(** * Call-centre backend: call registry, control actions, webhooks, persistence

    A shallow embedding of the call-state code of the backend:
    - [server.js] (Map-based registry [callLogsMap], the REST handlers
      [/api/calls], [/api/calls/start], [/api/calls/answer/:callId],
      [/api/calls/reject/:callId], [/api/calls/end/:callId], the broadcaster
      [updateActiveCalls] / [notifyClients]);
    - the array-based registry [global.callLogs] with
      [routes/inboundWebhook.js], and [POST /webhook] of the monolithic
      server: the router of [routes/webhook.js] and, behind it, the callback
      of [app.post("/webhook")];
    - [routes/webhook.js] (the signed webhook);
    - [db/callLogs.js] ([saveCallLog], both versions) and
      [db/subscriptions.js] ([saveSubscriptionToDb]);
    - the routes that read: [GET /api/calls/:id] and [GET /api/user] of
      [server.js], [getCallLogs] with [routes/callLogs.js], [routes/admin.js]
      behind [middlewares/isAdmin.js], and [routes/subscriptions.js];
    - the version of [server.js] whose handlers work on the array registry;
    - [addTagsToContact] of [utils/gohighlevel.js].

    Conventions of the embedding.
    - A JavaScript property that the code tests for presence or truthiness is
      an [option]; a property that is only copied is a plain value.  Call ids
      are strings.
    - Timestamps ([Date] objects, ISO strings, [Date.now()]) are integers,
      milliseconds since the epoch; a request reads the clock once.
    - A request runs to its response without another request in between.
    - External calls take their outcome as an argument of the handler (voice
      provider) or from the fault schedule of the world (database): the
      theorems quantify over every outcome.
    - The tables are lists of rows without constraints; SQL compares strings
      exactly, and an UPDATE reports the rows it matched (the driver connects
      with [FOUND_ROWS]).
    - [io.emit] and [pool.execute] append to a trace, the way a test double
      records calls; the SELECT statements of the read routes take their
      outcome from the fault schedule and are not recorded.  The CRM
      synchronisation at the end of the two save functions is fire-and-forget
      and touches none of the modelled state; it is left out there, and
      [addTagsToContact] is modelled on its own, over the answers of the CRM.
    - The world holds the registry of either server: [callLogsMap] for the
      Map-registry [server.js], [callLogs] for the array-registry servers.
      The inbound-webhook route takes the server that mounts it as an
      argument, because only the array-registry servers put [callLogs],
      [updateActiveCalls] and [notifyClients] on [global]. *)

From Stdlib Require Import ZArith String Ascii List Sorted Permutation Lia.
From Stdlib Require QArith.
From stdpp Require Import base numbers strings list sorting.

Local Open Scope string_scope.

(** ** JavaScript helpers *)

Module Js.

(** Truthiness of a string-valued property: absent and the empty string
    are falsy. *)
Definition truthy (s : option string) : bool :=
  match s with
  | Some v => negb (String.eqb v EmptyString)
  | None => false
  end.

(** [a || b] on string properties, the result kept optional. *)
Definition or (a b : option string) : option string :=
  if truthy a then a else b.

(** [a || "literal"]. *)
Definition or_str (a : option string) (b : string) : string :=
  match a with
  | Some v => if String.eqb v EmptyString then b else v
  | None => b
  end.

(** [a || null]: a falsy value is stored as NULL. *)
Definition or_null (a : option string) : option string :=
  if truthy a then a else None.

(** [n || 0] on numbers. *)
Definition or_zero (n : option Z) : Z := default 0%Z n.

(** Truthiness of a number-valued property. *)
Definition truthy_num (n : option Z) : bool :=
  match n with
  | Some v => negb (v =? 0)%Z
  | None => false
  end.

Definition lower_ascii (c : ascii) : ascii :=
  let n := nat_of_ascii c in
  if ((65 <=? n) && (n <=? 90))%nat then ascii_of_nat (n + 32) else c.

(** [String.prototype.toLowerCase].  Only the comparison with ["admin"] is
    made on its result, and the only strings the full Unicode mapping sends
    to ["admin"] are its ASCII case variants. *)
Fixpoint toLowerCase (s : string) : string :=
  match s with
  | EmptyString => EmptyString
  | String c r => String (lower_ascii c) (toLowerCase r)
  end.

(** [hay.includes(needle)]. *)
Definition includes (hay needle : string) : bool :=
  match String.index 0 needle hay with
  | Some _ => true
  | None => false
  end.

End Js.

(** ** Data model *)

Record Monitor := mkMonitor {
  controlUrl : option string;
  listenUrl : option string
}.

Record Customer := mkCustomer {
  number : option string
}.

(** [call.monitor?.controlUrl] *)
Definition monitor_controlUrl (m : option Monitor) : option string :=
  match m with
  | Some mon => controlUrl mon
  | None => None
  end.

(** [call.customer?.number] *)
Definition customer_number (c : option Customer) : option string :=
  match c with
  | Some cu => number cu
  | None => None
  end.

(** An in-memory call record, a JavaScript object of either registry. *)
Record Call := mkCall {
  id : string;
  type : option string;
  status : string;
  orgId : option string;
  phoneNumberId : option string;
  assistantId : option string;
  customer : option Customer;
  createdAt : option Z;
  updatedAt : option Z;
  direction : string;
  startTime : option Z;
  duration : Z;
  user_email : string;
  from : option string;
  monitor : option Monitor;
  endTime : option Z;
  agentId : option string;
  notes : option string
}.

(** [req.user] *)
Record User := mkUser {
  email : string;
  role : option string
}.

(** The argument of [saveCallLog]; with [agent_id] and [notes] normalised by
    [|| null] it is also a row of the [call_logs] table. *)
Module CallData.
Record t := mk {
  call_id : string;
  user_email : string;
  direction : string;
  phone_number : string;
  status : string;
  start_time : Z;
  duration : Z;
  agent_id : option string;
  notes : option string
}.
End CallData.

(** The argument of [saveSubscriptionToDb]. *)
Module SubscriptionData.
Record t := mk {
  email : string;
  subscriptionId : string;
  plan : string;
  status : string;
  price : QArith_base.Q;
  stripeEventId : option string;
  expiryDate : option Z
}.
End SubscriptionData.

(** A row of the [subscriptions] table. *)
Module SubscriptionRow.
Record t := mk {
  email : string;
  subscription_id : string;
  plan : string;
  status : string;
  price : QArith_base.Q;
  expiry_date : option Z;
  stripe_event_id : option string
}.
End SubscriptionRow.

(** A row of the [users] table, the two columns the webhooks read. *)
Module UserRow.
Record t := mk {
  email : string;
  phone : option string
}.
End UserRow.

Record Db := mkDb {
  call_logs : list CallData.t;
  subscriptions : list SubscriptionRow.t;
  users : list UserRow.t
}.

(** The SQL statements the code passes to [pool.execute]. *)
Inductive Query :=
| UpdateCallLogs (row : CallData.t)
| InsertCallLogs (row : CallData.t)
| SelectSubscriptionByEventId (e : option string)
| SelectSubscriptionByEmail (m : string)
| UpdateSubscriptions (row : SubscriptionRow.t)
| InsertSubscriptions (row : SubscriptionRow.t)
| SelectUserEmailByPhone (p : string).

(** What [pool.execute] resolves to: [affectedRows] of a write, and the
    selected column of the rows of a read. *)
Record QueryResult := mkQueryResult {
  affectedRows : nat;
  rows : list string
}.

(** Socket.IO broadcasts. *)
Inductive Emit :=
| CallUpdate (c : Call)
| ActiveCalls (n : nat).

(** One entry of the trace: a broadcast, or a statement sent to the database
    with its outcome ([None] when the promise rejected). *)
Inductive Event :=
| Emitted (e : Emit)
| Executed (q : Query) (r : option QueryResult).

(** The state of the process and of its database.  [faults] schedules the
    outcome of the coming [pool.execute] calls, one entry per call, [true]
    for a rejection; past its end every call succeeds. *)
Record World := mkWorld {
  callLogsMap : list (string * Call);
  callLogs : list Call;
  activeCalls : nat;
  database : Db;
  faults : list bool;
  trace : list Event
}.

Definition set_callLogsMap (v : list (string * Call)) (w : World) : World :=
  mkWorld v (callLogs w) (activeCalls w) (database w) (faults w) (trace w).

Definition set_callLogs (v : list Call) (w : World) : World :=
  mkWorld (callLogsMap w) v (activeCalls w) (database w) (faults w) (trace w).

Definition set_activeCalls (v : nat) (w : World) : World :=
  mkWorld (callLogsMap w) (callLogs w) v (database w) (faults w) (trace w).

Definition log_event (e : Event) (w : World) : World :=
  mkWorld (callLogsMap w) (callLogs w) (activeCalls w) (database w) (faults w)
          (trace w ++ [e]).

Definition set_database (d : Db) (fs : list bool) (w : World) : World :=
  mkWorld (callLogsMap w) (callLogs w) (activeCalls w) d fs (trace w).

(** ** A state and exception monad for the asynchronous code *)

Inductive Error :=
| DbError (q : Query)
| TypeError (msg : string).

Inductive Result (A : Type) :=
| Ok (a : A)
| Throw (e : Error).
Arguments Ok {A} a.
Arguments Throw {A} e.

Definition M (A : Type) : Type := World -> Result A * World.

Definition ret {A} (a : A) : M A := fun w => (Ok a, w).

Definition throw {A} (e : Error) : M A := fun w => (Throw e, w).

Definition bind {A B} (c : M A) (k : A -> M B) : M B := fun w =>
  match c w with
  | (Ok a, w') => k a w'
  | (Throw e, w') => (Throw e, w')
  end.

(** [try { c } catch (e) { h e }] *)
Definition try_catch {A} (c : M A) (h : Error -> M A) : M A := fun w =>
  match c w with
  | (Ok a, w') => (Ok a, w')
  | (Throw e, w') => h e w'
  end.

Notation "'let*' x ':=' c 'in' k" := (bind c (fun x => k))
  (at level 10, x name, c at level 100, k at level 200).
Notation "'run' c 'in' k" := (bind c (fun _ => k))
  (at level 10, c at level 100, k at level 200).

(** ** The database behind [pool.execute] *)

Definition call_id_is (k : string) (r : CallData.t) : bool :=
  String.eqb (CallData.call_id r) k.

Definition event_id_is (e : option string) (r : SubscriptionRow.t) : bool :=
  match e, SubscriptionRow.stripe_event_id r with
  | Some x, Some y => String.eqb y x
  | _, _ => false
  end.

Definition sub_email_is (m : string) (r : SubscriptionRow.t) : bool :=
  String.eqb (SubscriptionRow.email r) m.

Definition phone_is (p : string) (r : UserRow.t) : bool :=
  match UserRow.phone r with
  | Some x => String.eqb x p
  | None => false
  end.

(** [UPDATE subscriptions SET ... WHERE email = ?]: every column but the key. *)
Definition update_subscription (new : SubscriptionRow.t) (r : SubscriptionRow.t)
  : SubscriptionRow.t :=
  if sub_email_is (SubscriptionRow.email new) r
  then SubscriptionRow.mk (SubscriptionRow.email r)
         (SubscriptionRow.subscription_id new) (SubscriptionRow.plan new)
         (SubscriptionRow.status new) (SubscriptionRow.price new)
         (SubscriptionRow.expiry_date new) (SubscriptionRow.stripe_event_id new)
  else r.

(** [UPDATE call_logs SET ... WHERE call_id = ?]: every column but the key. *)
Definition update_call_log (new : CallData.t) (r : CallData.t) : CallData.t :=
  if call_id_is (CallData.call_id new) r
  then CallData.mk (CallData.call_id r) (CallData.user_email new)
         (CallData.direction new) (CallData.phone_number new)
         (CallData.status new) (CallData.start_time new)
         (CallData.duration new) (CallData.agent_id new) (CallData.notes new)
  else r.

(** The effect of one statement on the tables.  An UPDATE reports the rows its
    WHERE clause matches; an INSERT appends a row. *)
Definition run_query (q : Query) (d : Db) : QueryResult * Db :=
  match q with
  | UpdateCallLogs row =>
      (mkQueryResult
         (length (List.filter (call_id_is (CallData.call_id row)) (call_logs d))) [],
       mkDb (map (update_call_log row) (call_logs d)) (subscriptions d) (users d))
  | InsertCallLogs row =>
      (mkQueryResult 1 [],
       mkDb (call_logs d ++ [row]) (subscriptions d) (users d))
  | SelectSubscriptionByEventId e =>
      (mkQueryResult 0
         (take 1 (map SubscriptionRow.email
                      (List.filter (event_id_is e) (subscriptions d)))), d)
  | SelectSubscriptionByEmail m =>
      (mkQueryResult 0
         (take 1 (map SubscriptionRow.email
                      (List.filter (sub_email_is m) (subscriptions d)))), d)
  | UpdateSubscriptions row =>
      (mkQueryResult
         (length (List.filter (sub_email_is (SubscriptionRow.email row)) (subscriptions d))) [],
       mkDb (call_logs d) (map (update_subscription row) (subscriptions d)) (users d))
  | InsertSubscriptions row =>
      (mkQueryResult 1 [],
       mkDb (call_logs d) (subscriptions d ++ [row]) (users d))
  | SelectUserEmailByPhone p =>
      (mkQueryResult 0
         (map UserRow.email (List.filter (phone_is p) (users d))), d)
  end.

(** [await pool.execute(sql, params)] *)
Definition pool_execute (q : Query) : M QueryResult := fun w =>
  match faults w with
  | true :: fs =>
      (Throw (DbError q), log_event (Executed q None) (set_database (database w) fs w))
  | fs =>
      let '(r, d) := run_query q (database w) in
      (Ok r, log_event (Executed q (Some r)) (set_database d (tail fs) w))
  end.

(** [io.emit(...)] *)
Definition io_emit (e : Emit) : M unit := fun w =>
  (Ok tt, log_event (Emitted e) w).

(** ** [db/callLogs.js] *)

Module CallLogs.

(** [start_time.toISOString().slice(0, 19).replace('T', ' ')]: the start
    time, which every caller passes as a [Date], cut to whole seconds. *)
Definition startTimeForDb (start_time : Z) : Z := (start_time / 1000 * 1000)%Z.

(** The bind parameters: [startTimeForDb], [agent_id || null],
    [notes || null]. *)
Definition params (callData : CallData.t) : CallData.t :=
  CallData.mk (CallData.call_id callData) (CallData.user_email callData)
    (CallData.direction callData) (CallData.phone_number callData)
    (CallData.status callData) (startTimeForDb (CallData.start_time callData))
    (CallData.duration callData)
    (Js.or_null (CallData.agent_id callData))
    (Js.or_null (CallData.notes callData)).

(** [saveCallLog]: UPDATE by [call_id], INSERT when no row was affected.  A
    database error is logged and swallowed. *)
Definition saveCallLog (callData : CallData.t) : M unit :=
  if negb (Js.truthy (Some (CallData.call_id callData))) then ret tt
  else
    try_catch
      (let* updateResult := pool_execute (UpdateCallLogs (params callData)) in
       if (affectedRows updateResult =? 0)%nat
       then run pool_execute (InsertCallLogs (params callData)) in ret tt
       else ret tt)
      (fun _ => ret tt).

End CallLogs.

(** The earlier [db/callLogs.js]: no guard on [call_id], parameters passed as
    they are, and a database error rethrown to the caller. *)
Module CallLogsV1.

Definition saveCallLog (callData : CallData.t) : M unit :=
  try_catch
    (let* updateResult := pool_execute (UpdateCallLogs callData) in
     if (affectedRows updateResult =? 0)%nat
     then run pool_execute (InsertCallLogs callData) in ret tt
     else ret tt)
    (fun error => throw error).

End CallLogsV1.

(** ** [db/subscriptions.js] *)

Module Subscriptions.

Definition params (d : SubscriptionData.t) : SubscriptionRow.t :=
  SubscriptionRow.mk (SubscriptionData.email d)
    (SubscriptionData.subscriptionId d) (SubscriptionData.plan d)
    (SubscriptionData.status d) (SubscriptionData.price d)
    (SubscriptionData.expiryDate d) (SubscriptionData.stripeEventId d).

(** The try block of [saveSubscriptionToDb]: UPDATE the row of the email,
    or INSERT one; an error is logged and swallowed. *)
Definition upsert (subscriptionData : SubscriptionData.t) : M unit :=
  try_catch
    (let* found :=
       pool_execute (SelectSubscriptionByEmail
                       (SubscriptionData.email subscriptionData)) in
     if (0 <? length (rows found))%nat
     then run pool_execute (UpdateSubscriptions (params subscriptionData)) in ret tt
     else run pool_execute (InsertSubscriptions (params subscriptionData)) in ret tt)
    (fun _ => ret tt).

(** [saveSubscriptionToDb]: skip an event id already stored, otherwise run
    the try block.  The duplicate check is outside the try block, so its
    rejection reaches the caller. *)
Definition saveSubscriptionToDb (subscriptionData : SubscriptionData.t) : M unit :=
  let* processed :=
    (if Js.truthy (SubscriptionData.stripeEventId subscriptionData)
     then
       let* existingEvents :=
         pool_execute (SelectSubscriptionByEventId
                         (SubscriptionData.stripeEventId subscriptionData)) in
       ret (0 <? length (rows existingEvents))%nat
     else ret false) in
  if processed then ret tt else upsert subscriptionData.

End Subscriptions.

(** ** HTTP responses *)

Inductive Body :=
| ErrorJson (error : string)
| CallJson (call : Call)
| MessageCallJson (message : string) (call : Call)
| CallsJson (calls : list Call)
| ReceivedJson
| Text (s : string)
| NoBody.

Record Response := mkResponse {
  code : nat;
  body : Body
}.

Definition respond (c : nat) (b : Body) : M Response := ret (mkResponse c b).

(** Outcome of [axios.post(call.monitor.controlUrl, ...)]: the promise
    resolves, or rejects with [error.response?.data?.message]. *)
Inductive ControlOutcome :=
| Delivered
| Failed (message : option string).

(** [response.data] of [vapi.post("/call/phone", ...)]. *)
Module VapiCall.
Record t := mk {
  id : string;
  type : option string;
  status : option string;
  orgId : option string;
  phoneNumberId : option string;
  assistantId : option string;
  customer : option Customer;
  createdAt : option Z;
  updatedAt : option Z;
  monitor : option Monitor
}.
End VapiCall.

Inductive StartOutcome :=
| Placed (data : VapiCall.t)
| Refused (message : option string).

(** Property assignments on a call object. *)
Definition set_status (s : string) (c : Call) : Call :=
  mkCall (id c) (type c) s (orgId c) (phoneNumberId c) (assistantId c)
    (customer c) (createdAt c) (updatedAt c) (direction c) (startTime c)
    (duration c) (user_email c) (from c) (monitor c) (endTime c) (agentId c)
    (notes c).

(** [call.status = "completed"; call.duration = d; call.endTime = new Date();
    call.updatedAt = new Date().toISOString()] *)
Definition complete_locally (d now : Z) (c : Call) : Call :=
  mkCall (id c) (type c) "completed" (orgId c) (phoneNumberId c) (assistantId c)
    (customer c) (createdAt c) (Some now) (direction c) (startTime c)
    d (user_email c) (from c) (monitor c) (Some now) (agentId c) (notes c).

(** ** [server.js]: the Map-based registry and the REST handlers *)

Module Server.

(** [callLogsMap.get(k)] *)
Fixpoint map_get (k : string) (m : list (string * Call)) : option Call :=
  match m with
  | [] => None
  | (k', v) :: rest => if String.eqb k' k then Some v else map_get k rest
  end.

(** [callLogsMap.set(k, v)]: an existing key keeps its place in the
    iteration order, a new key goes last. *)
Fixpoint map_set (k : string) (v : Call) (m : list (string * Call))
  : list (string * Call) :=
  match m with
  | [] => [(k, v)]
  | (k', v') :: rest =>
      if String.eqb k' k then (k, v) :: rest else (k', v') :: map_set k v rest
  end.

(** [Array.from(callLogsMap.values())] *)
Definition map_values (m : list (string * Call)) : list Call := map snd m.

Definition registry_get (k : string) : M (option Call) := fun w =>
  (Ok (map_get k (callLogsMap w)), w).

Definition registry_set (k : string) (v : Call) : M unit := fun w =>
  (Ok tt, set_callLogsMap (map_set k v (callLogsMap w)) w).

Definition is_ongoing (call : Call) : bool := String.eqb (status call) "ongoing".

Definition updateActiveCalls : M unit := fun w =>
  let n := length (List.filter is_ongoing (map_values (callLogsMap w))) in
  io_emit (ActiveCalls n) (set_activeCalls n w).

Definition notifyClients (call : Call) : M unit := io_emit (CallUpdate call).

(** [req.user.role || 'user'] and the test [userRole.toLowerCase() === 'admin'] *)
Definition userRole (user : User) : string := Js.or_str (role user) "user".

Definition isAdmin (user : User) : bool :=
  String.eqb (Js.toLowerCase (userRole user)) "admin".

(** The comparator [(a, b) => new Date(b.startTime) - new Date(a.startTime)];
    [None] is NaN, the difference with a missing start time. *)
Definition compareFn (a b : Call) : option Z :=
  match startTime b, startTime a with
  | Some tb, Some ta => Some (tb - ta)%Z
  | _, _ => None
  end.

(** The comparator does not put [b] before [a]; the sort reads NaN as 0. *)
Definition keeps_order (a b : Call) : bool :=
  match compareFn a b with
  | Some v => (v <=? 0)%Z
  | None => true
  end.

Fixpoint insert_sorted (x : Call) (l : list Call) : list Call :=
  match l with
  | [] => [x]
  | y :: rest =>
      if keeps_order x y then x :: y :: rest else y :: insert_sorted x rest
  end.

(** [Array.prototype.sort(compareFn)]: the stable sort, as an insertion sort
    that leaves equal elements in their order. *)
Definition array_sort (l : list Call) : list Call := foldr insert_sorted [] l.

Definition owned_by (userEmail : string) (call : Call) : bool :=
  String.eqb (user_email call) userEmail.

(** [GET /api/calls] *)
Definition getCalls (user : User) : M Response := fun w =>
  let allLogs := array_sort (map_values (callLogsMap w)) in
  if isAdmin user then respond 200 (CallsJson allLogs) w
  else respond 200 (CallsJson (List.filter (owned_by (email user)) allLogs)) w.

Definition newCall (userEmail : string) (data : VapiCall.t) (now : Z) : Call :=
  mkCall (VapiCall.id data) (VapiCall.type data)
    (Js.or_str (VapiCall.status data) "queued")
    (VapiCall.orgId data) (VapiCall.phoneNumberId data)
    (VapiCall.assistantId data) (VapiCall.customer data)
    (Some (default now (VapiCall.createdAt data)))
    (Some (default now (VapiCall.updatedAt data)))
    "outbound"
    (Some (default now (VapiCall.createdAt data)))
    0%Z userEmail
    (customer_number (VapiCall.customer data))
    (VapiCall.monitor data) None None None.

(** [POST /api/calls/start] *)
Definition startCall (user : User) (phoneNumber : option string)
    (vapi : StartOutcome) (now : Z) : M Response :=
  if negb (Js.truthy phoneNumber)
  then respond 400 (ErrorJson "phoneNumber is required")
  else
    match vapi with
    | Refused message =>
        respond 500 (ErrorJson (Js.or_str message "Failed to start call"))
    | Placed data =>
        let call := newCall (email user) data now in
        run registry_set (id call) call in
        run notifyClients call in
        respond 200 (CallJson call)
    end.

(** [POST /api/calls/answer/:callId] *)
Definition answerCall (user : User) (callId : string) (axios : ControlOutcome)
  : M Response :=
  let* found := registry_get callId in
  match found with
  | None => respond 404 (ErrorJson "Call not found in active memory")
  | Some call =>
      if negb (String.eqb (direction call) "inbound")
      then respond 400 (ErrorJson "Not an inbound call")
      else if negb (String.eqb (status call) "ringing")
      then respond 400
             (ErrorJson ("Call status is " ++ status call ++ ", cannot answer."))
      else if negb (Js.truthy (monitor_controlUrl (monitor call)))
      then respond 404 (ErrorJson "No control URL available for this call yet.")
      else
        match axios with
        | Failed message =>
            respond 500 (ErrorJson (Js.or_str message "Failed to answer call"))
        | Delivered =>
            let call := set_status "answering" call in
            run registry_set callId call in
            run notifyClients call in
            respond 200 (MessageCallJson "Answer request sent" call)
        end
  end.

(** [POST /api/calls/reject/:callId] *)
Definition rejectCall (user : User) (callId : string) (axios : ControlOutcome)
  : M Response :=
  let* found := registry_get callId in
  match found with
  | None => respond 404 (ErrorJson "Call not found in active memory")
  | Some call =>
      if negb (String.eqb (direction call) "inbound")
      then respond 400 (ErrorJson "Not an inbound call")
      else if negb (String.eqb (status call) "ringing")
      then respond 400
             (ErrorJson ("Call status is " ++ status call ++ ", cannot reject."))
      else if negb (Js.truthy (monitor_controlUrl (monitor call)))
      then respond 404 (ErrorJson "No control URL available for this call yet.")
      else
        match axios with
        | Failed message =>
            respond 500 (ErrorJson (Js.or_str message "Failed to reject call"))
        | Delivered =>
            let call := set_status "rejecting" call in
            run registry_set callId call in
            run notifyClients call in
            respond 200 (MessageCallJson "Call reject request sent" call)
        end
  end.

(** [Math.floor((Date.now() - (call.startTime ? new Date(call.startTime)
    : Date.now())) / 1000)] *)
Definition elapsed_seconds (call : Call) (now : Z) : Z :=
  match startTime call with
  | Some t => ((now - t) / 1000)%Z
  | None => ((now - now) / 1000)%Z
  end.

(** The [callData] of the fallback, built from the completed record. *)
Definition fallbackCallData (user : User) (call : Call) (now : Z) : CallData.t :=
  CallData.mk (id call)
    (Js.or_str (Some (user_email call)) (email user))
    (direction call)
    (Js.or_str (Js.or (from call) (customer_number (customer call))) "N/A")
    (status call)
    (match startTime call with
     | Some t => t
     | None => (now - duration call * 1000)%Z
     end)
    (duration call)
    (Js.or (Js.or (agentId call) (assistantId call)) None)
    (Js.or (notes call) None).

(** The block under [if (vapiEndFailed)]. *)
Definition endLocally (user : User) (callId : string) (call : Call) (now : Z)
  : M Response :=
  let call := complete_locally (elapsed_seconds call now) now call in
  run registry_set callId call in
  run updateActiveCalls in
  run notifyClients call in
  try_catch
    (run CallLogs.saveCallLog (fallbackCallData user call now) in
     respond 200
       (MessageCallJson "Call ended locally (Vapi control failed or unavailable)" call))
    (fun _ =>
       respond 500
         (ErrorJson "Call ended locally, but failed to save log to database.")).

(** [POST /api/calls/end/:callId] *)
Definition endCall (user : User) (callId : string) (axios : ControlOutcome)
    (now : Z) : M Response :=
  try_catch
    (let* found := registry_get callId in
     match found with
     | None => respond 404 (ErrorJson "Call not found in active memory")
     | Some call =>
         if negb (String.eqb (user_email call) (email user)) && negb (isAdmin user)
         then respond 403 (ErrorJson "Forbidden: You cannot end this call.")
         else if String.eqb (status call) "completed" || String.eqb (status call) "ended"
         then respond 200 (MessageCallJson "Call already ended" call)
         else if Js.truthy (monitor_controlUrl (monitor call))
         then
           match axios with
           | Delivered =>
               let call := set_status "ending" call in
               run registry_set callId call in
               run notifyClients call in
               respond 200 (MessageCallJson "End call request sent to Vapi" call)
           | Failed _ => endLocally user callId call now
           end
         else endLocally user callId call now
     end)
    (fun _ =>
       respond 500
         (ErrorJson "An unexpected error occurred while trying to end the call.")).

End Server.

(** ** The array-based registry [global.callLogs] and the voice webhooks *)

(** The call object of a voice-provider event. *)
Module CallEvent.
Record t := mk {
  id : string;
  type : option string;
  direction : string;
  customer : option Customer;
  createdAt : option Z;
  status : string;
  duration : option Z;
  monitor : option Monitor;
  agentId : option string
}.
End CallEvent.

Module Registry.

(** [callLogs.find(c => c.id === callId)] *)
Definition find (callId : string) (l : list Call) : option Call :=
  snd <$> list_find (fun c => id c = callId) l.

(** [callLogs.findIndex(c => c.id === callId)] *)
Definition findIndex (callId : string) (l : list Call) : option nat :=
  fst <$> list_find (fun c => id c = callId) l.

(** [if (index > -1) callLogs[index] = newCall; else callLogs.unshift(newCall);] *)
Definition put (newCall : Call) (l : list Call) : list Call :=
  match findIndex (id newCall) l with
  | Some index => <[index:=newCall]> l
  | None => newCall :: l
  end.

Definition store (newCall : Call) : M unit := fun w =>
  (Ok tt, set_callLogs (put newCall (callLogs w)) w).

Definition is_ongoing (call : Call) : bool := String.eqb (status call) "ongoing".

(** [global.updateActiveCalls] *)
Definition updateActiveCalls : M unit := fun w =>
  let n := length (List.filter is_ongoing (callLogs w)) in
  io_emit (ActiveCalls n) (set_activeCalls n w).

(** [global.notifyClients] *)
Definition notifyClients (call : Call) : M unit := io_emit (CallUpdate call).

End Registry.

(** The callback of [app.post("/webhook", ...)] of the monolithic server
    (line 292).  The server registers it after the router of
    [routes/webhook.js] on the same path, so it is the second handler of
    [Monolith.postWebhook]. *)
Module VoiceWebhook.

Definition newCall (ev : CallEvent.t) (userEmail : string) (from : option string)
    (now : Z) : Call :=
  mkCall (CallEvent.id ev) None (CallEvent.status ev) None None None None None None
    (CallEvent.direction ev)
    (Some (default now (CallEvent.createdAt ev)))
    (Js.or_zero (CallEvent.duration ev))
    userEmail from (CallEvent.monitor ev) None None None.

Definition record (call : Call) : M Response :=
  run Registry.store call in
  run Registry.updateActiveCalls in
  run Registry.notifyClients call in
  respond 200 NoBody.

(** [event_call] is [req.body.call]; without it the first property access
    throws inside the try block. *)
Definition postWebhook (event_call : option CallEvent.t) (now : Z) : M Response :=
  match event_call with
  | None => respond 500 (ErrorJson "Internal Server Error")
  | Some call =>
      if Js.truthy (customer_number (CallEvent.customer call))
      then
        let* userEmail :=
          try_catch
            (let* found :=
               pool_execute
                 (SelectUserEmailByPhone
                    (default EmptyString (customer_number (CallEvent.customer call)))) in
             ret (match rows found with
                  | e :: _ => e
                  | [] => "N/A"
                  end))
            (fun _ => ret "N/A") in
        record (newCall call userEmail (customer_number (CallEvent.customer call)) now)
      else record (newCall call "N/A" (Some "N/A") now)
  end.

End VoiceWebhook.

(** The servers that mount the webhook routes.  The array-registry servers
    (the second [server.js], the monolithic server) set [global.callLogs],
    [global.updateActiveCalls] and [global.notifyClients]; the Map-registry
    [server.js] sets [global.getCallLogById] and [global.getAllCallLogs]
    only. *)
Inductive Host :=
| ArrayRegistry
| MapRegistry.

(** [routes/inboundWebhook.js] *)
Module InboundWebhook.

(** [req.body]: the call object under [data.object], or under [call]. *)
Record Payload := mkPayload {
  data_object : option CallEvent.t;
  call : option CallEvent.t
}.

Definition newCall (callEvent : CallEvent.t) (now : Z) : Call :=
  mkCall (CallEvent.id callEvent) None (CallEvent.status callEvent)
    None None None None None None
    (CallEvent.direction callEvent)
    (Some (default now (CallEvent.createdAt callEvent)))
    (Js.or_zero (CallEvent.duration callEvent))
    "N/A"
    (Some (Js.or_str (customer_number (CallEvent.customer callEvent)) "N/A"))
    None None None None.

Definition callData (callEvent : CallEvent.t) (now : Z) : CallData.t :=
  CallData.mk (CallEvent.id callEvent) "N/A" (CallEvent.direction callEvent)
    (Js.or_str (customer_number (CallEvent.customer callEvent)) "N/A")
    (CallEvent.status callEvent)
    (default now (CallEvent.createdAt callEvent))
    (Js.or_zero (CallEvent.duration callEvent))
    None None.

(** [router.post('/')], on the server that mounts it and over the
    [saveCallLog] it imports.  Where [global.callLogs] is undefined,
    [global.callLogs.findIndex] throws outside every try block, before a
    response is sent. *)
Definition post (host : Host) (saveCallLog : CallData.t -> M unit)
    (payload : Payload) (now : Z) : M Response :=
  match (match data_object payload with
         | Some o => Some o
         | None => call payload
         end) with
  | None => respond 400 (ErrorJson "No call data provided")
  | Some callEvent =>
      match host with
      | MapRegistry =>
          throw (TypeError "Cannot read properties of undefined (reading 'findIndex')")
      | ArrayRegistry =>
          let c := newCall callEvent now in
          run Registry.store c in
          run Registry.updateActiveCalls in
          run Registry.notifyClients c in
          run try_catch (saveCallLog (callData callEvent now)) (fun _ => ret tt) in
          respond 200 ReceivedJson
      end
  end.

End InboundWebhook.

(** ** [routes/webhook.js]: the signed webhook *)

(** [event.data.object]: a checkout session or a call. *)
Module DataObject.
Record t := mk {
  customer_email : string;
  subscription : string;
  amount_total : option Z;
  metadata_plan : option string;
  id : string;
  type : option string;
  customer : option Customer;
  status : string;
  createdAt : option Z;
  duration : option Z;
  agentId : option string
}.
End DataObject.

Module SignedEvent.
Record t := mk {
  id : string;
  type : option string;
  call : bool;
  data_object : option DataObject.t
}.
End SignedEvent.

Module SignedWebhook.
Section Handler.

(** [process.env.STRIPE_WEBHOOK_SECRET] *)
Variable endpointSecret : option string.
(** [stripe.webhooks.constructEvent(body, sig, secret)]: the event, or the
    message of the error it throws. *)
Variable constructEvent : string -> string -> string -> string + SignedEvent.t.
(** [d.setMonth(d.getMonth() + 1)] on a timestamp. *)
Variable nextMonth : Z -> Z.
(** The [saveCallLog] the route imports. *)
Variable saveCallLog : CallData.t -> M unit.

(** [event.type] after [if (!event.type && event.call) event.type = ...] *)
Definition eventType (event : SignedEvent.t) : option string :=
  if negb (Js.truthy (SignedEvent.type event)) && SignedEvent.call event
  then Some "call.inbound.completed"
  else SignedEvent.type event.

Definition type_is (t : option string) (name : string) : bool :=
  match t with
  | Some s => String.eqb s name
  | None => false
  end.

Definition subscriptionData (event : SignedEvent.t) (session : DataObject.t)
    (now : Z) : SubscriptionData.t :=
  SubscriptionData.mk (DataObject.customer_email session)
    (DataObject.subscription session)
    (Js.or_str (DataObject.metadata_plan session) "unknown")
    "active"
    (if Js.truthy_num (DataObject.amount_total session)
     then QArith_base.Qmake (default 0%Z (DataObject.amount_total session)) 100
     else QArith_base.Qmake 0 1)
    (Some (SignedEvent.id event))
    (Some (nextMonth now)).

Definition processCheckout (event : SignedEvent.t) (now : Z) : M unit :=
  match SignedEvent.data_object event with
  | None => throw (TypeError "Cannot read properties of undefined")
  | Some session =>
      try_catch
        (Subscriptions.saveSubscriptionToDb (subscriptionData event session now))
        (fun _ => ret tt)
  end.

Definition processCall (event : SignedEvent.t) (now : Z) : M unit :=
  match SignedEvent.data_object event with
  | None => throw (TypeError "Cannot read properties of undefined")
  | Some callEvent =>
      let* userEmail :=
        (if Js.truthy (customer_number (DataObject.customer callEvent))
         then
           try_catch
             (let* found :=
                pool_execute
                  (SelectUserEmailByPhone
                     (default EmptyString (customer_number (DataObject.customer callEvent)))) in
              ret (match rows found with
                   | e :: _ => e
                   | [] => "N/A"
                   end))
             (fun _ => ret "N/A")
         else ret "N/A") in
      match DataObject.type callEvent with
      | None => throw (TypeError "Cannot read properties of undefined")
      | Some t =>
          try_catch
            (saveCallLog
               (CallData.mk (DataObject.id callEvent) userEmail
                  (if Js.includes t "inbound" then "inbound" else "outbound")
                  (Js.or_str (customer_number (DataObject.customer callEvent)) "N/A")
                  (DataObject.status callEvent)
                  (default now (DataObject.createdAt callEvent))
                  (Js.or_zero (DataObject.duration callEvent))
                  (Js.or_null (DataObject.agentId callEvent))
                  None))
            (fun _ => ret tt)
      end
  end.

(** [router.post('/')].  A request that throws outside every try block gets
    no response: the handler's promise rejects. *)
Definition post (sig : option string) (rawBody : string) (now : Z) : M Response :=
  match endpointSecret with
  | None => respond 500 (Text "Webhook configuration error.")
  | Some secret =>
      if negb (Js.truthy (Some secret))
      then respond 500 (Text "Webhook configuration error.")
      else if negb (Js.truthy sig)
      then respond 400 (Text "Missing Stripe signature.")
      else
        match constructEvent rawBody (default EmptyString sig) secret with
        | inl message => respond 400 (Text ("Webhook Error: " ++ message))
        | inr event =>
            run (if type_is (eventType event) "checkout.session.completed"
                 then processCheckout event now else ret tt) in
            run (if type_is (eventType event) "call.inbound.completed"
                 then processCall event now else ret tt) in
            respond 200 ReceivedJson
        end
  end.

End Handler.
End SignedWebhook.

(** ** The monolithic server: what answers [POST /webhook] *)

Module Monolith.

(** What a handler of the Express stack does with a request it matches: it
    sends the response, or calls [next()]. *)
Inductive Step :=
| Sent (response : Response)
| Next.

(** Express offers a request to the matching handlers in the order they were
    registered and moves on only when one calls [next()]; a handler that
    throws ends the request.  With no handler left Express answers 404. *)
Fixpoint dispatch (stack : list (M Step)) : M Response :=
  match stack with
  | [] => respond 404 NoBody
  | handler :: rest =>
      let* step := handler in
      match step with
      | Sent response => ret response
      | Next => dispatch rest
      end
  end.

Section Wiring.

Variable endpointSecret : option string.
Variable constructEvent : string -> string -> string -> string + SignedEvent.t.
Variable nextMonth : Z -> Z.
Variable saveCallLog : CallData.t -> M unit.

(** [app.use('/webhook', webhookRoutes)], line 42: the handler of
    [routes/webhook.js] sends a response or throws on every path, and never
    calls [next()]. *)
Definition webhookRoutes (sig : option string) (rawBody : string) (now : Z) : M Step :=
  let* response :=
    SignedWebhook.post endpointSecret constructEvent nextMonth saveCallLog
      sig rawBody now in
  ret (Sent response).

(** [app.post("/webhook", ...)], line 292. *)
Definition voiceWebhook (event_call : option CallEvent.t) (now : Z) : M Step :=
  let* response := VoiceWebhook.postWebhook event_call now in
  ret (Sent response).

(** [POST /webhook]: a request with its signature header and its body, in
    which the second handler would look for [call]. *)
Definition postWebhook (sig : option string) (rawBody : string)
    (event_call : option CallEvent.t) (now : Z) : M Response :=
  dispatch [webhookRoutes sig rawBody now; voiceWebhook event_call now].

End Wiring.
End Monolith.

(** ** Observations used in the statements *)

(** The events a request appended to the trace. *)
Definition new_events (before after : World) : list Event :=
  drop (length (trace before)) (trace after).

(** The broadcasts among some events, in order. *)
Definition broadcasts (evs : list Event) : list Emit :=
  omap (fun ev => match ev with
                  | Emitted e => Some e
                  | Executed _ _ => None
                  end) evs.

(** The statements sent to the database among some events, in order. *)
Definition statements (evs : list Event) : list Query :=
  omap (fun ev => match ev with
                  | Emitted _ => None
                  | Executed q _ => Some q
                  end) evs.

(** A statement on [call_logs] that changed the table: an UPDATE that matched
    a row, or an INSERT. *)
Definition is_call_log_write (ev : Event) : bool :=
  match ev with
  | Executed (UpdateCallLogs _) (Some r) => (0 <? affectedRows r)%nat
  | Executed (InsertCallLogs _) (Some _) => true
  | _ => false
  end.

Definition call_log_writes (evs : list Event) : nat :=
  length (List.filter is_call_log_write evs).

(** Rows of [call_logs] with a given [call_id]. *)
Definition rows_for (k : string) (t : list CallData.t) : nat :=
  length (List.filter (call_id_is k) t).

(** Rows of [subscriptions] that carry a given event id. *)
Definition rows_for_event (e : string) (t : list SubscriptionRow.t) : nat :=
  length (List.filter (event_id_is (Some e)) t).

(** Rows of [subscriptions] with a given email. *)
Definition rows_for_email (m : string) (t : list SubscriptionRow.t) : nat :=
  length (List.filter (sub_email_is m) t).

(** No scheduled database fault. *)
Definition healthy (w : World) : Prop := Forall (fun b => b = false) (faults w).

(** [subscriptions] is keyed by email, and an event id marks one row at most
    (rows written without an event id aside). *)
Definition keyed (t : list SubscriptionRow.t) : Prop :=
  NoDup (map SubscriptionRow.email t) /\
  forall e, e <> EmptyString -> (rows_for_event e t <= 1)%nat.

Definition terminal (s : string) : Prop := s = "completed" \/ s = "ended".

(** Start times present and decreasing: most recently started first. *)
Definition started_no_later (a b : Call) : Prop :=
  exists ta tb, startTime a = Some ta /\ startTime b = Some tb /\ (ta <= tb)%Z.

Definition most_recent_first (l : list Call) : Prop :=
  StronglySorted (fun a b => started_no_later b a) l.

(** The payload carries what the signed webhook dereferences outside its try
    blocks: [event.data.object] for the two event types it processes, and a
    string [type] on the call object. *)
Definition readable (event : SignedEvent.t) : bool :=
  let t := SignedWebhook.eventType event in
  if SignedWebhook.type_is t "checkout.session.completed"
  then match SignedEvent.data_object event with
       | Some _ => true
       | None => false
       end
  else if SignedWebhook.type_is t "call.inbound.completed"
  then match SignedEvent.data_object event with
       | Some o => match DataObject.type o with
                   | Some _ => true
                   | None => false
                   end
       | None => false
       end
  else true.

(** [InboundWebhook.post] reads the call object of the payload. *)
Definition payload_call (payload : InboundWebhook.Payload) : option CallEvent.t :=
  match InboundWebhook.data_object payload with
  | Some o => Some o
  | None => InboundWebhook.call payload
  end.

(** The registry of [server.js] as its handlers leave it: every record is
    stored under its own id and has a start time. *)
Definition registry_ok (m : list (string * Call)) : Prop :=
  Forall (fun entry => fst entry = id (snd entry) /\ is_Some (startTime (snd entry))) m.

(** A control action on the registry of [server.js], with the answer of the
    provider, and the state after a sequence of them. *)
Inductive ControlAction :=
| AnswerCall (user : User) (callId : string) (axios : ControlOutcome)
| RejectCall (user : User) (callId : string) (axios : ControlOutcome)
| EndCall (user : User) (callId : string) (axios : ControlOutcome) (now : Z).

Definition perform (w : World) (action : ControlAction) : World :=
  match action with
  | AnswerCall user callId axios => snd (Server.answerCall user callId axios w)
  | RejectCall user callId axios => snd (Server.rejectCall user callId axios w)
  | EndCall user callId axios now => snd (Server.endCall user callId axios now w)
  end.

Definition perform_all (actions : list ControlAction) (w : World) : World :=
  foldl perform w actions.

(** The control handle of a looked-up record. *)
Definition controlHandle (found : option Call) : option string :=
  match found with
  | Some call => monitor_controlUrl (monitor call)
  | None => None
  end.

(** ** Sample data *)

Module Sample.

Definition db0 : Db := mkDb [] [] [].

Definition world (m : list (string * Call)) (l : list Call) (fs : list bool) : World :=
  mkWorld m l 0 db0 fs [].

Definition alice : User := mkUser "alice@example.com" None.
Definition bob : User := mkUser "bob@example.com" (Some "user").
Definition root : User := mkUser "root@example.com" (Some "Admin").

Definition control : Monitor :=
  mkMonitor (Some "https://control.example/c1") (Some "wss://listen.example/c1").

Definition call (s dir : string) (t : Z) (m : option Monitor) : Call :=
  mkCall "c1" None s None None None None (Some t) (Some t) dir (Some t) 0%Z
    "alice@example.com" (Some "+15550100") m None None None.

Definition ringing : Call := call "ringing" "inbound" 1000 (Some control).
Definition ongoing : Call := call "ongoing" "outbound" 1000 (Some control).
Definition unmonitored : Call := call "ongoing" "outbound" 1000 None.
Definition ended : Call := call "ended" "outbound" 1000 None.

Definition placed (s : option string) : VapiCall.t :=
  VapiCall.mk "c1" (Some "outboundPhoneCall") s None None None
    (Some (mkCustomer (Some "+15550100"))) (Some 1000%Z) None None.

(** A provider response that carries a monitor. *)
Definition monitored : VapiCall.t :=
  VapiCall.mk "c1" (Some "outboundPhoneCall") (Some "queued") None None None
    (Some (mkCustomer (Some "+15550100"))) (Some 1000%Z) None (Some control).

Definition event (s : string) (m : option Monitor) : CallEvent.t :=
  CallEvent.mk "c1" (Some "inboundPhoneCall") "inbound" None (Some 1000%Z) s None m None.

Definition callData (k s : string) : CallData.t :=
  CallData.mk k "alice@example.com" "inbound" "+15550100" s 1000%Z 0%Z None None.

Definition subscription (m : string) (e : string) : SubscriptionData.t :=
  SubscriptionData.mk m "sub_1" "pro" "active" (QArith_base.Qmake 49 1) (Some e) None.

Definition checkout : SignedEvent.t :=
  SignedEvent.mk "evt_1" (Some "checkout.session.completed") false
    (Some (DataObject.mk "alice@example.com" "sub_1" (Some 4900%Z) (Some "pro")
             "cs_1" None None "complete" None None None)).

Definition constructEvent (body sig secret : string) : string + SignedEvent.t :=
  if String.eqb sig "t=1,v1=ok" then inr checkout else inl "No signatures found".

End Sample.

(** ** More of [server.js]: the single-record route and the session guard *)

Module Api.

(** [req.user.role && req.user.role.toLowerCase() === 'admin'] *)
Definition hasAdminRole (user : User) : bool :=
  match role user with
  | Some r => Js.truthy (Some r) && String.eqb (Js.toLowerCase r) "admin"
  | None => false
  end.

(** [GET /api/calls/:id] *)
Definition getCall (user : User) (callId : string) : M Response := fun w =>
  match Server.map_get callId (callLogsMap w) with
  | Some call =>
      if String.eqb (user_email call) (email user) || hasAdminRole user
      then respond 200 (CallJson call) w
      else respond 403 (ErrorJson "Forbidden") w
  | None => respond 404 (ErrorJson "In-memory call log not found") w
  end.

(** [middlewares/isAuthenticated.js] in front of a handler; [session] is
    [req.user] when [req.isAuthenticated()] holds. *)
Definition isAuthenticated (session : option User) (next : User -> M Response)
  : M Response :=
  match session with
  | Some user => next user
  | None => respond 401 (ErrorJson "Unauthorized. Please log in.")
  end.

(** The call routes of [server.js], each with what the provider answers. *)
Inductive Route :=
| ListCalls
| ShowCall (callId : string)
| StartCall (phoneNumber : option string) (vapi : StartOutcome)
| Answer (callId : string) (axios : ControlOutcome)
| Reject (callId : string) (axios : ControlOutcome)
| Finish (callId : string) (axios : ControlOutcome).

(** One request: the session, the route and the time of the request. *)
Record Request := mkRequest {
  session : option User;
  route : Route;
  at_time : Z
}.

Definition handle (request : Request) : M Response :=
  isAuthenticated (session request) (fun user =>
    match route request with
    | ListCalls => Server.getCalls user
    | ShowCall callId => getCall user callId
    | StartCall phoneNumber vapi =>
        Server.startCall user phoneNumber vapi (at_time request)
    | Answer callId axios => Server.answerCall user callId axios
    | Reject callId axios => Server.rejectCall user callId axios
    | Finish callId axios => Server.endCall user callId axios (at_time request)
    end).

Definition serve (w : World) (request : Request) : World := snd (handle request w).

Definition serve_all (requests : list Request) (w : World) : World :=
  foldl serve w requests.

(** The call id a request addresses, if any: the route parameter, or the id
    the provider gave the call it placed. *)
Definition target (request : Request) : option string :=
  match session request, route request with
  | Some _, StartCall phoneNumber (Placed data) =>
      if Js.truthy phoneNumber then Some (VapiCall.id data) else None
  | Some _, Answer callId _ => Some callId
  | Some _, Reject callId _ => Some callId
  | Some _, Finish callId _ => Some callId
  | _, _ => None
  end.

End Api.

(** ** Reading the tables: [getCallLogs], the log routes, the subscription
    routes *)

Module Reads.

(** The error of a rejected read. *)
Definition rejected : Error := TypeError "query rejected".

(** [await pool.execute(select)] for the SELECT statements of the read
    routes, and [await pool.getConnection()]: the next entry of the fault
    schedule decides, the tables stay as they are.  These reads are not
    recorded in the trace. *)
Definition pool_select {A} (read : Db -> A) : M A := fun w =>
  match faults w with
  | true :: fs => (Throw rejected, set_database (database w) fs w)
  | fs => (Ok (read (database w)), set_database (database w) (tail fs) w)
  end.

(** [ORDER BY start_time DESC] *)
Definition later_first (a b : CallData.t) : Prop :=
  (CallData.start_time b <= CallData.start_time a)%Z.

#[global] Instance later_first_dec : RelDecision later_first :=
  fun a b => Z.le_dec (CallData.start_time b) (CallData.start_time a).

Definition user_email_is (m : string) (r : CallData.t) : bool :=
  String.eqb (CallData.user_email r) m.

(** [SELECT * FROM call_logs [WHERE user_email = ?] ORDER BY start_time DESC];
    SQL leaves the order of equal start times open, the model keeps the order
    of the table for them. *)
Definition select_call_logs (userEmail : option string) (d : Db) : list CallData.t :=
  merge_sort later_first
    (match userEmail with
     | Some m => List.filter (user_email_is m) (call_logs d)
     | None => call_logs d
     end).

(** [getCallLogs] of [db/callLogs.js]: all rows when [userEmail] is falsy;
    a database error is logged and an empty array returned. *)
Definition getCallLogs (userEmail : option string) : M (list CallData.t) :=
  try_catch
    (pool_select (select_call_logs (if Js.truthy userEmail then userEmail else None)))
    (fun _ => ret []).

(** [getCallLogs] of the earlier [db/callLogs.js]: the error is not caught. *)
Definition getCallLogsV1 (userEmail : option string) : M (list CallData.t) :=
  pool_select (select_call_logs (if Js.truthy userEmail then userEmail else None)).

Inductive LogsBody :=
| LogsJson (logs : list CallData.t)
| LogsError (error : string).

(** [routes/callLogs.js], [GET /api/call-logs], over the [getCallLogs] it
    imports. *)
Definition callLogsRoute (getLogs : option string -> M (list CallData.t))
    (session : option User) : M (nat * LogsBody) :=
  match session with
  | None => ret (401, LogsError "Unauthorized. Please log in.")
  | Some user =>
      try_catch
        (let* logs :=
           (if Api.hasAdminRole user then getLogs None
            else getLogs (Some (email user))) in
         ret (200, LogsJson logs))
        (fun _ => ret (500, LogsError "Internal server error"))
  end.

(** [middlewares/isAdmin.js]: authenticated, and the role exactly ['admin']. *)
Definition isAdmin (session : option User) : bool :=
  match session with
  | Some user =>
      match role user with
      | Some r => String.eqb r "admin"
      | None => false
      end
  | None => false
  end.

(** [routes/admin.js], [GET /api/admin/call-logs] *)
Definition adminCallLogs (session : option User) : M (nat * LogsBody) :=
  if isAdmin session
  then
    try_catch
      (let* logs := pool_select (select_call_logs None) in
       ret (200, LogsJson logs))
      (fun _ => ret (500, LogsError "Internal server error"))
  else ret (403, LogsError "Forbidden. Admins only.").

Definition is_active_for (m : string) (r : SubscriptionRow.t) : bool :=
  String.eqb (SubscriptionRow.email r) m && String.eqb (SubscriptionRow.status r) "active".

(** [SELECT * FROM subscriptions WHERE email = ? AND status = "active" LIMIT 1] *)
Definition select_active (m : string) (d : Db) : list SubscriptionRow.t :=
  take 1 (List.filter (is_active_for m) (subscriptions d)).

Inductive AccountBody :=
| UserJson (email : string) (isSubscribed : bool) (role : string)
| SubscriptionJson (subscription : SubscriptionRow.t)
| MessageJson (message : string)
| AccountError (error : string).

(** [GET /api/user] of [server.js]; the [name] of the session, which the
    answer copies, is not modelled. *)
Definition apiUser (session : option User) : M (nat * AccountBody) :=
  match session with
  | None => ret (401, AccountError "Unauthorized. Please log in.")
  | Some user =>
      try_catch
        (let* found := pool_select (select_active (email user)) in
         ret (200, UserJson (email user) (0 <? length found)%nat
                     (Js.or_str (role user) "user")))
        (fun _ => ret (500, AccountError "Internal server error fetching subscription"))
  end.

(** [GET /api/subscriptions/me] of [routes/subscriptions.js]; the [name] of
    the session, which the answer adds to the row, is not modelled. *)
Definition subscriptionsMe (session : option User) : M (nat * AccountBody) :=
  match session with
  | None => ret (401, AccountError "Unauthorized. Please log in.")
  | Some user =>
      try_catch
        (let* found := pool_select (select_active (email user)) in
         match found with
         | subscription :: _ => ret (200, SubscriptionJson subscription)
         | [] => ret (404, AccountError "No active subscription found for this user")
         end)
        (fun _ => ret (500, AccountError "Internal server error"))
  end.

(** [POST /api/subscriptions/add-subscription]: a connection, then an INSERT
    of the five columns of the body. *)
Definition addSubscription (email subscriptionId plan status : string)
    (price : QArith_base.Q) : M (nat * AccountBody) :=
  try_catch
    (run pool_select (fun _ => tt) in
     run pool_execute
           (InsertSubscriptions
              (SubscriptionRow.mk email subscriptionId plan status price None None)) in
     ret (200, MessageJson "Subscription added successfully"))
    (fun _ => ret (500, AccountError "Internal server error")).

End Reads.

(** ** Sequences of saves *)

(** The state after a sequence of [saveCallLog] calls, and after a sequence
    of [saveSubscriptionToDb] calls. *)
Definition save_all (saves : list CallData.t) (w : World) : World :=
  foldl (fun w callData => snd (CallLogs.saveCallLog callData w)) w saves.

Definition deliver_all (deliveries : list SubscriptionData.t) (w : World) : World :=
  foldl (fun w d => snd (Subscriptions.saveSubscriptionToDb d w)) w deliveries.

(** The next statement is not scheduled to be rejected. *)
Definition answers (w : World) : Prop := head (faults w) <> Some true.

(** The [subscriptions] table after the try block of [saveSubscriptionToDb]
    ran on a database that answers: the UPDATE when the email has a row, the
    INSERT otherwise. *)
Definition upserted (row : SubscriptionRow.t) (t : list SubscriptionRow.t)
  : list SubscriptionRow.t :=
  if (0 <? rows_for_email (SubscriptionRow.email row) t)%nat
  then map (update_subscription row) t
  else (t ++ [row])%list.

(** ** [server.js], the version with the array registry *)

Module ServerV2.

Definition registry_find (callId : string) : M (option Call) := fun w =>
  (Ok (Registry.find callId (callLogs w)), w).

(** Assignments to properties of the record [callLogs.find] returned: the
    object in the array changes, where it stands. *)
Definition mutate (callId : string) (call : Call) : M unit := fun w =>
  (Ok tt,
   set_callLogs
     (match Registry.findIndex callId (callLogs w) with
      | Some index => <[index:=call]> (callLogs w)
      | None => callLogs w
      end) w).

(** [callLogs.unshift(newCall)] *)
Definition unshift (call : Call) : M unit := fun w =>
  (Ok tt, set_callLogs (call :: callLogs w) w).

(** [GET /api/calls] *)
Definition getCalls (user : User) : M Response := fun w =>
  respond 200 (CallsJson (callLogs w)) w.

(** [GET /api/calls/:id] *)
Definition getCall (user : User) (callId : string) : M Response :=
  let* found := registry_find callId in
  match found with
  | Some call => respond 200 (CallJson call)
  | None => respond 404 (ErrorJson "In-memory call log not found")
  end.

Definition newCall (userEmail : string) (data : VapiCall.t) (now : Z) : Call :=
  mkCall (VapiCall.id data) (VapiCall.type data) "queued"
    (VapiCall.orgId data) (VapiCall.phoneNumberId data)
    (VapiCall.assistantId data) (VapiCall.customer data)
    (VapiCall.createdAt data) (VapiCall.updatedAt data)
    "outbound" (Some now) 0%Z userEmail None (VapiCall.monitor data) None None None.

(** [POST /api/calls/start] *)
Definition startCall (user : User) (phoneNumber : option string)
    (vapi : StartOutcome) (now : Z) : M Response :=
  if negb (Js.truthy phoneNumber)
  then respond 400 (ErrorJson "phoneNumber is required")
  else
    match vapi with
    | Refused message =>
        respond 500 (ErrorJson (Js.or_str message "Failed to start call"))
    | Placed data =>
        let call := newCall (email user) data now in
        run unshift call in
        run Registry.updateActiveCalls in
        run Registry.notifyClients call in
        respond 200 (CallJson call)
    end.

(** [POST /api/calls/answer/:callId] *)
Definition answerCall (user : User) (callId : string) (axios : ControlOutcome)
  : M Response :=
  let* found := registry_find callId in
  match found with
  | None => respond 404 (ErrorJson "Call not found")
  | Some call =>
      if negb (String.eqb (direction call) "inbound")
      then respond 400 (ErrorJson "Not an inbound call")
      else if negb (Js.truthy (monitor_controlUrl (monitor call)))
      then respond 404 (ErrorJson "No control URL available for this call")
      else
        match axios with
        | Failed message =>
            respond 500 (ErrorJson (Js.or_str message "Failed to answer call"))
        | Delivered =>
            let call := set_status "ongoing" call in
            run mutate callId call in
            run Registry.notifyClients call in
            respond 200 (MessageCallJson "Call answered" call)
        end
  end.

(** [call.status = "completed"; call.duration = d] *)
Definition complete (d : Z) (c : Call) : Call :=
  mkCall (id c) (type c) "completed" (orgId c) (phoneNumberId c) (assistantId c)
    (customer c) (createdAt c) (updatedAt c) (direction c) (startTime c)
    d (user_email c) (from c) (monitor c) (endTime c) (agentId c) (notes c).

(** [POST /api/calls/reject/:callId] *)
Definition rejectCall (user : User) (callId : string) (axios : ControlOutcome)
    (now : Z) : M Response :=
  let* found := registry_find callId in
  match found with
  | None => respond 404 (ErrorJson "Call not found")
  | Some call =>
      if negb (String.eqb (direction call) "inbound")
      then respond 400 (ErrorJson "Not an inbound call")
      else if negb (Js.truthy (monitor_controlUrl (monitor call)))
      then respond 404 (ErrorJson "No control URL available for this call")
      else
        match axios with
        | Failed message =>
            respond 500 (ErrorJson (Js.or_str message "Failed to reject call"))
        | Delivered =>
            let call := complete (Server.elapsed_seconds call now) call in
            run mutate callId call in
            run Registry.updateActiveCalls in
            run Registry.notifyClients call in
            respond 200 (MessageCallJson "Call rejected" call)
        end
  end.

(** The [callData] the end route saves. *)
Definition callData (user : User) (call : Call) (now : Z) : CallData.t :=
  CallData.mk (id call)
    (Js.or_str (Some (user_email call)) (email user))
    (direction call)
    (Js.or_str (from call) "N/A")
    (status call)
    (default now (startTime call))
    (duration call)
    (Js.or_null (agentId call))
    (Js.or_null (notes call)).

(** [POST /api/calls/end/:callId] *)
Definition endCall (user : User) (callId : string) (axios : ControlOutcome)
    (now : Z) : M Response :=
  let* found := registry_find callId in
  match found with
  | None => respond 404 (ErrorJson "Call not found or no control URL available")
  | Some call =>
      if negb (Js.truthy (monitor_controlUrl (monitor call)))
      then respond 404 (ErrorJson "Call not found or no control URL available")
      else
        match axios with
        | Failed message =>
            respond 500 (ErrorJson (Js.or_str message "Failed to end call"))
        | Delivered =>
            let call := complete (Server.elapsed_seconds call now) call in
            run mutate callId call in
            run Registry.updateActiveCalls in
            run Registry.notifyClients call in
            run try_catch (CallLogs.saveCallLog (callData user call now))
                  (fun _ => ret tt) in
            respond 200 (MessageCallJson "Call end request sent" call)
        end
  end.

End ServerV2.

(** A control action on the array registry, with the answer of the provider,
    and the state after a sequence of them. *)
Inductive ArrayControl :=
| ArrayAnswer (user : User) (callId : string) (axios : ControlOutcome)
| ArrayReject (user : User) (callId : string) (axios : ControlOutcome) (now : Z)
| ArrayEnd (user : User) (callId : string) (axios : ControlOutcome) (now : Z).

Definition perform_array (w : World) (action : ArrayControl) : World :=
  match action with
  | ArrayAnswer user callId axios => snd (ServerV2.answerCall user callId axios w)
  | ArrayReject user callId axios now => snd (ServerV2.rejectCall user callId axios now w)
  | ArrayEnd user callId axios now => snd (ServerV2.endCall user callId axios now w)
  end.

Definition perform_all_array (actions : list ArrayControl) (w : World) : World :=
  foldl perform_array w actions.

(** ** [utils/gohighlevel.js]: adding tags to a contact *)

Module Ghl.

(** A contact as the CRM returns it; [tags] may be missing. *)
Record Contact := mkContact {
  contact_id : string;
  tags : option (list string)
}.

(** The requests sent to the CRM. *)
Inductive Request :=
| GetContact (contactId : string)
| PutTags (contactId : string) (tags : list string).

Section Api.

(** [process.env.GHL_API_KEY] *)
Variable apiKey : option string.
(** What [GET /contacts/:contactId] gives [getContact] to return: the
    contact, or [null] after a 404, any other error, or a response without
    a contact. *)
Variable fetched : string -> option Contact.
(** Whether [PUT /contacts/:contactId] with these tags gives [updateContact]
    a contact to return. *)
Variable updated : string -> list string -> bool.

(** [getContact], with the requests it sent. *)
Definition getContact (contactId : string) : option Contact * list Request :=
  if negb (Js.truthy apiKey) then (None, [])
  else if negb (Js.truthy (Some contactId)) then (None, [])
  else (fetched contactId, [GetContact contactId]).

(** [updateContact(contactId, { tags })], as a truth value. *)
Definition updateTags (contactId : string) (tags : list string) : bool * list Request :=
  if negb (Js.truthy apiKey) then (false, [])
  else if negb (Js.truthy (Some contactId)) then (false, [])
  else (updated contactId tags, [PutTags contactId tags]).

(** [[...new Set(l)]]: the first occurrence of each element, in order. *)
Fixpoint unique_from (seen l : list string) : list string :=
  match l with
  | [] => []
  | x :: rest =>
      if decide (x ∈ seen) then unique_from seen rest
      else x :: unique_from (x :: seen) rest
  end.

Definition unique (l : list string) : list string := unique_from [] l.

(** [Array.prototype.sort()] without comparator, on strings: ascending in
    the order of the code units. *)
Definition sort (l : list string) : list string := merge_sort String.le l.

(** [addTagsToContact]; the two [sort()] calls of the comparison sort the
    arrays in place, so the tags sent are sorted. *)
Definition addTagsToContact (contactId : string) (tagsToAdd : list string)
  : bool * list Request :=
  if negb (Js.truthy apiKey) then (false, [])
  else if negb (Js.truthy (Some contactId)) || (length tagsToAdd =? 0)%nat
  then (false, [])
  else
    let (currentContact, sent) := getContact contactId in
    match currentContact with
    | None => (false, sent)
    | Some contact =>
        let existingTags := default [] (tags contact) in
        let updatedTags := unique (existingTags ++ tagsToAdd) in
        if decide (sort existingTags = sort updatedTags) then (true, sent)
        else
          let (updateResult, sent') := updateTags contactId (sort updatedTags) in
          (updateResult, (sent ++ sent')%list)
    end.

End Api.
End Ghl.

(** * Properties *)

(** ** The registry of [server.js] *)

Lemma map_get_set_same k v m :
  Server.map_get k (Server.map_set k v m) = Some v.
Proof.
  induction m as [|[k' v'] rest IH]; simpl.
  - now rewrite String.eqb_refl.
  - destruct (String.eqb k' k) eqn:E; simpl.
    + now rewrite String.eqb_refl.
    + now rewrite E.
Qed.

Lemma map_get_set_other k k' v m :
  k' <> k -> Server.map_get k' (Server.map_set k v m) = Server.map_get k' m.
Proof.
  intros Hne. induction m as [|[k0 v0] rest IH]; simpl.
  - destruct (String.eqb k k') eqn:E; [apply String.eqb_eq in E; congruence | easy].
  - destruct (String.eqb k0 k) eqn:E; simpl.
    + apply String.eqb_eq in E. subst k0.
      destruct (String.eqb k k') eqn:E'; [apply String.eqb_eq in E'; congruence | easy].
    + destruct (String.eqb k0 k'); [easy | apply IH].
Qed.

Lemma map_get_elem k v m :
  Server.map_get k m = Some v -> v ∈ Server.map_values m.
Proof.
  induction m as [|[k' v'] rest IH]; simpl; [easy|].
  destruct (String.eqb k' k).
  - intros [= ->]. apply list_elem_of_here.
  - intros H. apply list_elem_of_further, IH, H.
Qed.

Lemma eqb_neq_false (a b : string) : a <> b -> String.eqb a b = false.
Proof. apply String.eqb_neq. Qed.

Ltac run_handler :=
  unfold bind, try_catch, ret, respond, Server.registry_get, Server.registry_set,
    Server.notifyClients, Server.updateActiveCalls, io_emit; simpl.

(** ** C3: control actions from an invalid source state *)

Lemma answer_not_ringing w user callId call axios :
  Server.map_get callId (callLogsMap w) = Some call ->
  status call <> "ringing" ->
  exists b, Server.answerCall user callId axios w = (Ok (mkResponse 400 b), w).
Proof.
  intros Hget Hst. unfold Server.answerCall. run_handler. rewrite Hget.
  rewrite (eqb_neq_false _ _ Hst).
  destruct (String.eqb (direction call) "inbound"); simpl; eexists; reflexivity.
Qed.

Lemma reject_not_ringing w user callId call axios :
  Server.map_get callId (callLogsMap w) = Some call ->
  status call <> "ringing" ->
  exists b, Server.rejectCall user callId axios w = (Ok (mkResponse 400 b), w).
Proof.
  intros Hget Hst. unfold Server.rejectCall. run_handler. rewrite Hget.
  rewrite (eqb_neq_false _ _ Hst).
  destruct (String.eqb (direction call) "inbound"); simpl; eexists; reflexivity.
Qed.

Lemma end_already_ended w user callId call axios now :
  Server.map_get callId (callLogsMap w) = Some call ->
  terminal (status call) ->
  user_email call = email user \/ Server.isAdmin user = true ->
  Server.endCall user callId axios now w
  = (Ok (mkResponse 200 (MessageCallJson "Call already ended" call)), w).
Proof.
  intros Hget Hterm Hown. unfold Server.endCall. run_handler. rewrite Hget.
  assert (Hguard : negb (String.eqb (user_email call) (email user))
                   && negb (Server.isAdmin user) = false).
  { destruct Hown as [-> | ->].
    - now rewrite String.eqb_refl.
    - apply andb_false_r. }
  rewrite Hguard.
  destruct Hterm as [-> | ->]; reflexivity.
Qed.

(** C3 (as the code has it).  An answer or a reject on a call whose status is
    not ['ringing'] is answered 400 and changes nothing: not the record, not
    the trace, not the database.  An end by the owner or an admin on a call
    already ['completed'] or ['ended'] also changes nothing, and is answered
    200 with the message "Call already ended" and the record. *)
Theorem C3_invalid_source_state w user callId call axios now :
  Server.map_get callId (callLogsMap w) = Some call ->
  (status call <> "ringing" ->
   (exists b, Server.answerCall user callId axios w = (Ok (mkResponse 400 b), w)) /\
   (exists b, Server.rejectCall user callId axios w = (Ok (mkResponse 400 b), w))) /\
  (terminal (status call) ->
   user_email call = email user \/ Server.isAdmin user = true ->
   Server.endCall user callId axios now w
   = (Ok (mkResponse 200 (MessageCallJson "Call already ended" call)), w)).
Proof.
  intros Hget. split.
  - intros Hst. split.
    + eapply answer_not_ringing; eauto.
    + eapply reject_not_ringing; eauto.
  - intros Hterm Hown. now apply end_already_ended.
Qed.

Lemma C3_invalid_source_state_witness :
  let w := Sample.world [("c1", Sample.ended)] [] [] in
  (exists b, Server.answerCall Sample.bob "c1" Delivered w = (Ok (mkResponse 400 b), w)) /\
  Server.endCall Sample.alice "c1" Delivered 9000 w
  = (Ok (mkResponse 200 (MessageCallJson "Call already ended" Sample.ended)), w).
Proof.
  intros w.
  destruct (C3_invalid_source_state w Sample.bob "c1" Sample.ended Delivered 9000 eq_refl)
    as [Hcontrol _].
  destruct (C3_invalid_source_state w Sample.alice "c1" Sample.ended Delivered 9000 eq_refl)
    as [_ Hend].
  split.
  - apply Hcontrol. discriminate.
  - apply Hend; [right; reflexivity | left; reflexivity].
Defined.

(** C3, counterexample to the specification as written: an end request on a
    call already ['ended'] is not answered 400. *)
Lemma C3_end_on_ended_is_not_400 :
  let w := Sample.world [("c1", Sample.ended)] [] [] in
  Server.map_get "c1" (callLogsMap w) = Some Sample.ended /\
  terminal (status Sample.ended) /\
  ~ (exists b, fst (Server.endCall Sample.alice "c1" Delivered 9000 w)
               = Ok (mkResponse 400 b)).
Proof.
  split; [reflexivity|]. split; [right; reflexivity|].
  intros [b Hb]. vm_compute in Hb. discriminate.
Qed.

(** ** C8: who may end, answer and reject *)

Lemma end_forbidden w user callId call axios now :
  Server.map_get callId (callLogsMap w) = Some call ->
  user_email call <> email user ->
  Server.isAdmin user = false ->
  Server.endCall user callId axios now w
  = (Ok (mkResponse 403 (ErrorJson "Forbidden: You cannot end this call.")), w).
Proof.
  intros Hget Hne Hadm. unfold Server.endCall. run_handler. rewrite Hget.
  now rewrite (eqb_neq_false _ _ Hne), Hadm.
Qed.

Lemma answer_ignores_user w user other callId axios :
  Server.answerCall user callId axios w = Server.answerCall other callId axios w.
Proof. reflexivity. Qed.

Lemma reject_ignores_user w user other callId axios :
  Server.rejectCall user callId axios w = Server.rejectCall other callId axios w.
Proof. reflexivity. Qed.

Lemma answer_delivered w user callId call :
  Server.map_get callId (callLogsMap w) = Some call ->
  direction call = "inbound" ->
  status call = "ringing" ->
  Js.truthy (monitor_controlUrl (monitor call)) = true ->
  Server.answerCall user callId Delivered w
  = (Ok (mkResponse 200 (MessageCallJson "Answer request sent"
                           (set_status "answering" call))),
     log_event (Emitted (CallUpdate (set_status "answering" call)))
       (set_callLogsMap
          (Server.map_set callId (set_status "answering" call) (callLogsMap w)) w)).
Proof.
  intros Hget Hdir Hst Hurl. unfold Server.answerCall. run_handler.
  now rewrite Hget, Hdir, Hst, Hurl.
Qed.

Lemma reject_delivered w user callId call :
  Server.map_get callId (callLogsMap w) = Some call ->
  direction call = "inbound" ->
  status call = "ringing" ->
  Js.truthy (monitor_controlUrl (monitor call)) = true ->
  Server.rejectCall user callId Delivered w
  = (Ok (mkResponse 200 (MessageCallJson "Call reject request sent"
                           (set_status "rejecting" call))),
     log_event (Emitted (CallUpdate (set_status "rejecting" call)))
       (set_callLogsMap
          (Server.map_set callId (set_status "rejecting" call) (callLogsMap w)) w)).
Proof.
  intros Hget Hdir Hst Hurl. unfold Server.rejectCall. run_handler.
  now rewrite Hget, Hdir, Hst, Hurl.
Qed.

(** C8.  On a record of the registry, an end request by a caller who is
    neither its owner nor an admin is answered 403 and changes nothing.
    Answer and reject make no ownership check: the same caller gets from them
    exactly what any other user, the owner included, gets, and on a ringing
    inbound call with a control handle the request is dispatched and the
    record moves to ['answering'] (resp. ['rejecting']). *)
Theorem C8_ownership_asymmetry w user other callId call axios now :
  Server.map_get callId (callLogsMap w) = Some call ->
  user_email call <> email user ->
  Server.isAdmin user = false ->
  Server.endCall user callId axios now w
  = (Ok (mkResponse 403 (ErrorJson "Forbidden: You cannot end this call.")), w) /\
  Server.answerCall user callId axios w = Server.answerCall other callId axios w /\
  Server.rejectCall user callId axios w = Server.rejectCall other callId axios w /\
  (direction call = "inbound" -> status call = "ringing" ->
   Js.truthy (monitor_controlUrl (monitor call)) = true ->
   fst (Server.answerCall user callId Delivered w)
   = Ok (mkResponse 200 (MessageCallJson "Answer request sent"
                           (set_status "answering" call))) /\
   fst (Server.rejectCall user callId Delivered w)
   = Ok (mkResponse 200 (MessageCallJson "Call reject request sent"
                           (set_status "rejecting" call)))).
Proof.
  intros Hget Hne Hadm. split; [now apply (end_forbidden w user callId call)|].
  split; [apply answer_ignores_user|]. split; [apply reject_ignores_user|].
  intros Hdir Hst Hurl.
  rewrite (answer_delivered w user callId call), (reject_delivered w user callId call);
    auto.
Qed.

Lemma C8_ownership_asymmetry_witness :
  let w := Sample.world [("c1", Sample.ringing)] [] [] in
  fst (Server.endCall Sample.bob "c1" Delivered 9000 w)
  = Ok (mkResponse 403 (ErrorJson "Forbidden: You cannot end this call.")) /\
  fst (Server.answerCall Sample.bob "c1" Delivered w)
  = Ok (mkResponse 200 (MessageCallJson "Answer request sent"
                          (set_status "answering" Sample.ringing))).
Proof.
  intros w.
  assert (Hne : user_email Sample.ringing <> email Sample.bob) by discriminate.
  destruct (C8_ownership_asymmetry w Sample.bob Sample.alice "c1" Sample.ringing
              Delivered 9000 eq_refl Hne eq_refl) as (Hend & _ & _ & Hcontrol).
  split.
  - now rewrite Hend.
  - now destruct (Hcontrol eq_refl eq_refl eq_refl).
Defined.

(** ** The database *)

Lemma update_call_log_key row r :
  CallData.call_id (update_call_log row r) = CallData.call_id r.
Proof. unfold update_call_log. now destruct (call_id_is _ r). Qed.

Lemma filter_length_cons {A} (p : A -> bool) (x : A) (l : list A) :
  length (List.filter p (x :: l))
  = ((if p x then 1 else 0) + length (List.filter p l))%nat.
Proof. simpl. now destruct (p x). Qed.

Lemma rows_for_cons k r t :
  rows_for k (r :: t) = ((if call_id_is k r then 1 else 0) + rows_for k t)%nat.
Proof. apply filter_length_cons. Qed.

Lemma rows_for_update k row t :
  rows_for k (map (update_call_log row) t) = rows_for k t.
Proof.
  induction t as [|r t IH]; [easy|].
  change (map (update_call_log row) (r :: t))
    with (update_call_log row r :: map (update_call_log row) t).
  rewrite !rows_for_cons, IH. unfold call_id_is.
  now rewrite update_call_log_key.
Qed.

Lemma rows_for_insert k row t :
  rows_for k (t ++ [row])
  = (rows_for k t + if call_id_is k row then 1 else 0)%nat.
Proof.
  induction t as [|r t IH].
  - simpl. rewrite rows_for_cons. unfold rows_for. simpl. lia.
  - change (((r :: t) ++ [row])%list) with ((r :: (t ++ [row]))%list).
    rewrite !rows_for_cons, IH. lia.
Qed.

Lemma healthy_cases w :
  healthy w ->
  faults w = [] \/
  exists fs, faults w = false :: fs /\ Forall (fun b => b = false) fs.
Proof.
  unfold healthy. destruct (faults w) as [|b fs]; [now left|].
  intros H. apply Forall_cons in H as [-> H]. right. eauto.
Qed.

(** A healthy [pool.execute] resolves with the result of the statement. *)
Lemma pool_execute_healthy q w :
  healthy w ->
  pool_execute q w
  = (Ok (fst (run_query q (database w))),
     log_event (Executed q (Some (fst (run_query q (database w)))))
       (set_database (snd (run_query q (database w))) (tail (faults w)) w)).
Proof.
  intros H. unfold pool_execute.
  destruct (healthy_cases w H) as [-> | (fs & -> & _)];
    now destruct (run_query q (database w)).
Qed.

Lemma healthy_tail w d e :
  healthy w -> healthy (log_event e (set_database d (tail (faults w)) w)).
Proof.
  unfold healthy. simpl. intros H.
  destruct (faults w) as [|b fs]; simpl; [constructor | now apply Forall_cons in H].
Qed.

(** The two outcomes of [pool.execute]. *)
Lemma pool_execute_cases q w :
  (exists fs, faults w = true :: fs /\
     pool_execute q w
     = (Throw (DbError q),
        log_event (Executed q None) (set_database (database w) fs w))) \/
  pool_execute q w
  = (Ok (fst (run_query q (database w))),
     log_event (Executed q (Some (fst (run_query q (database w)))))
       (set_database (snd (run_query q (database w))) (tail (faults w)) w)).
Proof.
  unfold pool_execute. destruct (faults w) as [|[] fs].
  - right. now destruct (run_query q (database w)).
  - left. eauto.
  - right. now destruct (run_query q (database w)).
Qed.

(** ** [saveCallLog] *)

Lemma truthy_nonempty (s : string) : s <> EmptyString -> Js.truthy (Some s) = true.
Proof. intros H. simpl. now rewrite (eqb_neq_false _ _ H). Qed.

(** What a save does to its surroundings, whatever the database answers: it
    never throws, leaves both registries alone and broadcasts nothing.  With a
    call id, it sends the UPDATE of the row first and at most one INSERT of it
    after, and changes the table at most once. *)
Lemma saveCallLog_effect d w :
  exists evs db fs,
    CallLogs.saveCallLog d w
    = (Ok tt, mkWorld (callLogsMap w) (callLogs w) (activeCalls w) db fs (trace w ++ evs)) /\
    broadcasts evs = [] /\
    (CallData.call_id d <> EmptyString ->
     (statements evs = [UpdateCallLogs (CallLogs.params d)] \/
      rows_for (CallData.call_id d) (call_logs (database w)) = 0%nat /\
      statements evs
      = [UpdateCallLogs (CallLogs.params d); InsertCallLogs (CallLogs.params d)]) /\
     (call_log_writes evs <= 1)%nat /\
     (healthy w -> call_log_writes evs = 1%nat)).
Proof.
  unfold CallLogs.saveCallLog.
  destruct (String.eqb (CallData.call_id d) EmptyString) eqn:Hid; simpl; rewrite Hid; simpl.
  { exists [], (database w), (faults w). rewrite app_nil_r.
    split; [now destruct w|]. split; [reflexivity|].
    intros Hne. apply String.eqb_eq in Hid. contradiction. }
  unfold try_catch, bind, ret.
  destruct (pool_execute_cases (UpdateCallLogs (CallLogs.params d)) w)
    as [(fs & Hf & ->) | ->].
  - exists [Executed (UpdateCallLogs (CallLogs.params d)) None], (database w), fs.
    split; [reflexivity|]. split; [reflexivity|]. intros _. split; [now left|].
    split; [unfold call_log_writes; simpl; lia|].
    intros H. unfold healthy in H. rewrite Hf in H.
    apply Forall_cons in H as [? _]. discriminate.
  - simpl.
    destruct (length (List.filter (call_id_is (CallData.call_id d)) (call_logs (database w))))
      as [|n] eqn:Hn; simpl.
    + match goal with
      | |- context [pool_execute ?q ?w1] =>
          destruct (pool_execute_cases q w1) as [(fs & Hf & ->) | ->]
      end.
      * eexists [_; _], _, _.
        split; [unfold log_event, set_database; simpl;
                rewrite <- app_assoc; reflexivity|].
        split; [reflexivity|]. intros _. split; [right; split; [exact Hn | reflexivity]|].
        unfold call_log_writes. simpl. split; [lia|].
        intros H. unfold healthy in H. simpl in Hf.
        destruct (faults w) as [|b fs0]; simpl in Hf; [discriminate|].
        subst fs0. apply Forall_cons in H as [_ H].
        apply Forall_cons in H as [? _]. discriminate.
      * eexists [_; _], _, _.
        split; [unfold log_event, set_database; simpl;
                rewrite <- app_assoc; reflexivity|].
        split; [reflexivity|]. intros _. split; [right; split; [exact Hn | reflexivity]|].
        unfold call_log_writes. simpl. split; [lia|reflexivity].
    + eexists [_], _, _. split; [reflexivity|].
      split; [reflexivity|]. intros _. split; [now left|].
      unfold call_log_writes. simpl. split; [lia|reflexivity].
Qed.

Lemma update_call_log_hit row r :
  CallData.call_id r = CallData.call_id row ->
  update_call_log row r = row.
Proof.
  intros H. unfold update_call_log, call_id_is. rewrite H, String.eqb_refl.
  now destruct row.
Qed.

Lemma updated_rows_hold row t r :
  r ∈ map (update_call_log row) t ->
  CallData.call_id r = CallData.call_id row ->
  r = row.
Proof.
  intros Hin Hk. apply list_elem_of_fmap in Hin as (r0 & -> & _).
  rewrite update_call_log_key in Hk. now apply update_call_log_hit.
Qed.

Lemma rows_for_none k t r :
  rows_for k t = 0%nat -> r ∈ t -> CallData.call_id r <> k.
Proof.
  induction t as [|r0 t IH]; intros Hn Hin; [now apply elem_of_nil in Hin|].
  rewrite rows_for_cons in Hn. apply elem_of_cons in Hin as [-> | Hin].
  - unfold call_id_is in Hn. destruct (String.eqb (CallData.call_id r0) k) eqn:E.
    + simpl in Hn. lia.
    + now apply String.eqb_neq.
  - apply IH; [lia | easy].
Qed.

(** On a healthy database a save leaves one more row for a call id that had
    none and the same number otherwise, and every row of that call id then
    holds the saved values. *)
Lemma saveCallLog_healthy d w :
  CallData.call_id d <> EmptyString ->
  healthy w ->
  exists w',
    CallLogs.saveCallLog d w = (Ok tt, w') /\
    healthy w' /\
    (forall k, rows_for k (call_logs (database w'))
               = if String.eqb (CallData.call_id d) k
                 then Nat.max 1 (rows_for k (call_logs (database w)))
                 else rows_for k (call_logs (database w))) /\
    (forall r, r ∈ call_logs (database w') ->
               CallData.call_id r = CallData.call_id d -> r = CallLogs.params d).
Proof.
  intros Hid Hw. unfold CallLogs.saveCallLog. rewrite (truthy_nonempty _ Hid). simpl.
  unfold try_catch, bind, ret.
  rewrite (pool_execute_healthy _ w Hw). simpl.
  fold (rows_for (CallData.call_id d) (call_logs (database w))).
  destruct (rows_for (CallData.call_id d) (call_logs (database w))) as [|n] eqn:Hn; simpl.
  - rewrite pool_execute_healthy by now apply healthy_tail.
    simpl. eexists. split; [reflexivity|]. split.
    { apply healthy_tail. simpl. now apply healthy_tail. }
    simpl. split.
    + intros k. rewrite rows_for_insert, rows_for_update. unfold call_id_is. simpl.
      destruct (String.eqb (CallData.call_id d) k) eqn:E; [|lia].
      apply String.eqb_eq in E. subst k. rewrite Hn. reflexivity.
    + intros r Hin Hk. apply elem_of_app in Hin as [Hin | Hin].
      * exfalso. apply list_elem_of_fmap in Hin as (r0 & -> & Hin0).
        rewrite update_call_log_key in Hk.
        now apply (rows_for_none _ _ _ Hn Hin0).
      * now apply list_elem_of_singleton in Hin.
  - eexists. split; [reflexivity|]. split; [now apply healthy_tail|].
    simpl. split.
    + intros k. rewrite rows_for_update.
      destruct (String.eqb (CallData.call_id d) k) eqn:E; [|reflexivity].
      apply String.eqb_eq in E. subst k. rewrite Hn. lia.
    + intros r Hin Hk. now apply (updated_rows_hold _ _ _ Hin).
Qed.

Lemma saveCallLog_twice d1 d2 w :
  CallData.call_id d1 <> EmptyString ->
  CallData.call_id d2 = CallData.call_id d1 ->
  healthy w ->
  (rows_for (CallData.call_id d1) (call_logs (database w)) <= 1)%nat ->
  let w2 := snd (CallLogs.saveCallLog d2 (snd (CallLogs.saveCallLog d1 w))) in
  rows_for (CallData.call_id d1) (call_logs (database w2)) = 1%nat /\
  (forall r, r ∈ call_logs (database w2) ->
             CallData.call_id r = CallData.call_id d1 -> r = CallLogs.params d2).
Proof.
  intros Hid Hsame Hw Hle.
  destruct (saveCallLog_healthy d1 w Hid Hw) as (w1 & E1 & Hw1 & Hrows1 & _).
  rewrite E1. simpl.
  assert (Hid2 : CallData.call_id d2 <> EmptyString) by now rewrite Hsame.
  destruct (saveCallLog_healthy d2 w1 Hid2 Hw1) as (w2 & E2 & _ & Hrows2 & Hrow).
  rewrite E2. simpl. split.
  - rewrite Hrows2, Hsame, String.eqb_refl, Hrows1, String.eqb_refl. lia.
  - intros r Hin Hk. apply Hrow; [easy | now rewrite Hsame].
Qed.

(** ** [saveSubscriptionToDb] *)

Lemma rows_for_event_cons e r t :
  rows_for_event e (r :: t)
  = ((if event_id_is (Some e) r then 1 else 0) + rows_for_event e t)%nat.
Proof. apply filter_length_cons. Qed.

Lemma rows_for_event_insert e row t :
  rows_for_event e (t ++ [row])
  = (rows_for_event e t + if event_id_is (Some e) row then 1 else 0)%nat.
Proof.
  induction t as [|r t IH].
  - simpl. rewrite rows_for_event_cons. unfold rows_for_event. simpl. lia.
  - change (((r :: t) ++ [row])%list) with ((r :: (t ++ [row]))%list).
    rewrite !rows_for_event_cons, IH. lia.
Qed.

Lemma event_id_is_true e r :
  event_id_is (Some e) r = true <-> SubscriptionRow.stripe_event_id r = Some e.
Proof.
  unfold event_id_is. destruct (SubscriptionRow.stripe_event_id r) as [y|].
  - rewrite String.eqb_eq. split; congruence.
  - split; discriminate.
Qed.

Lemma update_subscription_email row r :
  SubscriptionRow.email (update_subscription row r) = SubscriptionRow.email r.
Proof. unfold update_subscription. now destruct (sub_email_is _ r). Qed.

Lemma update_subscription_emails row t :
  map SubscriptionRow.email (map (update_subscription row) t)
  = map SubscriptionRow.email t.
Proof.
  induction t as [|r t IH]; simpl; [easy|].
  now rewrite update_subscription_email, IH.
Qed.

Lemma rows_for_email_cons m r t :
  rows_for_email m (r :: t)
  = ((if sub_email_is m r then 1 else 0) + rows_for_email m t)%nat.
Proof. apply filter_length_cons. Qed.

Lemma rows_for_email_absent m t :
  m ∉ map SubscriptionRow.email t -> rows_for_email m t = 0%nat.
Proof.
  induction t as [|r t IH]; intros Hn; [reflexivity|].
  rewrite rows_for_email_cons. simpl in Hn. apply not_elem_of_cons in Hn as [Hne Hn].
  unfold sub_email_is at 1. rewrite (eqb_neq_false _ _ (not_eq_sym Hne)).
  now rewrite IH.
Qed.

Lemma rows_for_email_keyed m t :
  NoDup (map SubscriptionRow.email t) -> (rows_for_email m t <= 1)%nat.
Proof.
  induction t as [|r t IH]; intros Hnd; [unfold rows_for_email; simpl; lia|].
  simpl in Hnd. apply NoDup_cons in Hnd as [Hnotin Hnd].
  rewrite rows_for_email_cons. unfold sub_email_is at 1.
  destruct (String.eqb (SubscriptionRow.email r) m) eqn:E.
  - apply String.eqb_eq in E. subst m. rewrite rows_for_email_absent by easy. lia.
  - specialize (IH Hnd). lia.
Qed.

Lemma rows_for_email_none m t r :
  rows_for_email m t = 0%nat -> r ∈ t -> SubscriptionRow.email r <> m.
Proof.
  induction t as [|r0 t IH]; intros Hn Hin; [now apply elem_of_nil in Hin|].
  rewrite rows_for_email_cons in Hn. apply elem_of_cons in Hin as [-> | Hin].
  - unfold sub_email_is in Hn.
    destruct (String.eqb (SubscriptionRow.email r0) m) eqn:E.
    + simpl in Hn. lia.
    + now apply String.eqb_neq.
  - apply IH; [lia | easy].
Qed.

(** After the UPDATE, a fresh event id marks exactly the rows of the email. *)
Lemma rows_for_event_update_fresh e row t :
  SubscriptionRow.stripe_event_id row = Some e ->
  rows_for_event e t = 0%nat ->
  rows_for_event e (map (update_subscription row) t)
  = rows_for_email (SubscriptionRow.email row) t.
Proof.
  intros Hrow. induction t as [|r t IH]; intros Hn; [easy|].
  change (map (update_subscription row) (r :: t))
    with (update_subscription row r :: map (update_subscription row) t).
  rewrite rows_for_event_cons in *. rewrite rows_for_email_cons.
  destruct (event_id_is (Some e) r) eqn:Er; [simpl in Hn; lia|].
  rewrite IH by (simpl in Hn; lia).
  unfold update_subscription.
  destruct (sub_email_is (SubscriptionRow.email row) r) eqn:Em.
  - replace (event_id_is (Some e) _) with true; [reflexivity|].
    symmetry. apply event_id_is_true. simpl. exact Hrow.
  - now rewrite Er.
Qed.

(** After the UPDATE, any other event id marks no more rows than before. *)
Lemma rows_for_event_update_other e row t :
  SubscriptionRow.stripe_event_id row <> Some e ->
  (rows_for_event e (map (update_subscription row) t) <= rows_for_event e t)%nat.
Proof.
  intros Hrow. induction t as [|r t IH]; [easy|].
  change (map (update_subscription row) (r :: t))
    with (update_subscription row r :: map (update_subscription row) t).
  rewrite !rows_for_event_cons.
  assert (H : ((if event_id_is (Some e) (update_subscription row r) then 1 else 0)
               <= (if event_id_is (Some e) r then 1 else 0))%nat).
  { unfold update_subscription.
    destruct (sub_email_is (SubscriptionRow.email row) r); [|lia].
    destruct (event_id_is (Some e) (SubscriptionRow.mk _ _ _ _ _ _ _)) eqn:E.
    - apply event_id_is_true in E. simpl in E. congruence.
    - destruct (event_id_is (Some e) r); lia. }
  lia.
Qed.

Lemma keyed_update row t :
  keyed t ->
  (forall e, SubscriptionRow.stripe_event_id row = Some e -> e <> EmptyString ->
             rows_for_event e t = 0%nat) ->
  keyed (map (update_subscription row) t).
Proof.
  intros [Hnd Hev] Hfresh. split.
  - now rewrite update_subscription_emails.
  - intros e He.
    destruct (decide (SubscriptionRow.stripe_event_id row = Some e)) as [Heq | Hne].
    + rewrite rows_for_event_update_fresh by auto. now apply rows_for_email_keyed.
    + pose proof (rows_for_event_update_other e row t Hne). specialize (Hev e He). lia.
Qed.

Lemma keyed_insert row t :
  keyed t ->
  rows_for_email (SubscriptionRow.email row) t = 0%nat ->
  (forall e, SubscriptionRow.stripe_event_id row = Some e -> e <> EmptyString ->
             rows_for_event e t = 0%nat) ->
  keyed (t ++ [row]).
Proof.
  intros [Hnd Hev] Hemail Hfresh. split.
  - rewrite map_app. simpl. apply NoDup_app. split; [easy|]. split.
    + intros m Hm Hin. apply list_elem_of_singleton in Hin. subst m.
      apply list_elem_of_fmap in Hm as (r & Hr & Hin).
      now apply (rows_for_email_none _ _ _ Hemail Hin).
    + apply NoDup_singleton.
  - intros e He. rewrite rows_for_event_insert.
    destruct (event_id_is (Some e) row) eqn:E.
    + apply event_id_is_true in E. rewrite (Hfresh e E He). lia.
    + specialize (Hev e He). lia.
Qed.

Lemma selected_some {A B} (f : A -> B) (l : list A) :
  (0 <? length (take 1 (map f l)))%nat = (0 <? length l)%nat.
Proof. now destruct l. Qed.

(** The try block, whatever the database answers: it never throws, and the
    table is left as it was, or the rows of the email are updated, or a row is
    added for an email that had none. *)
Lemma upsert_effect d w :
  exists w',
    Subscriptions.upsert d w = (Ok tt, w') /\
    (subscriptions (database w') = subscriptions (database w) \/
     (0 < rows_for_email (SubscriptionData.email d) (subscriptions (database w)))%nat /\
     subscriptions (database w')
     = map (update_subscription (Subscriptions.params d)) (subscriptions (database w)) \/
     rows_for_email (SubscriptionData.email d) (subscriptions (database w)) = 0%nat /\
     subscriptions (database w')
     = (subscriptions (database w) ++ [Subscriptions.params d])%list) /\
    (healthy w ->
     healthy w' /\
     subscriptions (database w')
     = if (0 <? rows_for_email (SubscriptionData.email d) (subscriptions (database w)))%nat
       then map (update_subscription (Subscriptions.params d)) (subscriptions (database w))
       else (subscriptions (database w) ++ [Subscriptions.params d])%list).
Proof.
  unfold Subscriptions.upsert, try_catch, bind, ret.
  destruct (pool_execute_cases (SelectSubscriptionByEmail (SubscriptionData.email d)) w)
    as [(fs & Hf & ->) | ->].
  { eexists. split; [reflexivity|]. split; [now left|].
    intros H. unfold healthy in H. rewrite Hf in H.
    apply Forall_cons in H as [? _]. discriminate. }
  cbn [fst snd run_query rows]. rewrite selected_some.
  fold (rows_for_email (SubscriptionData.email d) (subscriptions (database w))).
  destruct (rows_for_email (SubscriptionData.email d) (subscriptions (database w)))
    as [|n] eqn:Hn; cbn [Nat.ltb Nat.leb length].
  - match goal with
    | |- context [pool_execute ?q ?w1] =>
        destruct (pool_execute_cases q w1) as [(fs & Hf & ->) | ->]
    end.
    + eexists. split; [reflexivity|]. split; [now left|].
      intros H. exfalso. unfold healthy in H. simpl in Hf.
      destruct (faults w) as [|b fs0]; simpl in Hf; [discriminate|].
      subst fs0. apply Forall_cons in H as [_ H]. apply Forall_cons in H as [? _].
      discriminate.
    + eexists. split; [reflexivity|]. split; [right; right; now split|].
      intros H. split; [|reflexivity].
      apply healthy_tail. simpl. now apply healthy_tail.
  - match goal with
    | |- context [pool_execute ?q ?w1] =>
        destruct (pool_execute_cases q w1) as [(fs & Hf & ->) | ->]
    end.
    + eexists. split; [reflexivity|]. split; [now left|].
      intros H. exfalso. unfold healthy in H. simpl in Hf.
      destruct (faults w) as [|b fs0]; simpl in Hf; [discriminate|].
      subst fs0. apply Forall_cons in H as [_ H]. apply Forall_cons in H as [? _].
      discriminate.
    + eexists. split; [reflexivity|]. split; [right; left; split; [lia | reflexivity]|].
      intros H. split; [|reflexivity].
      apply healthy_tail. simpl. now apply healthy_tail.
Qed.

Lemma truthy_some (o : option string) :
  Js.truthy o = true -> exists e, o = Some e /\ e <> EmptyString.
Proof.
  destruct o as [e|]; simpl; [|discriminate].
  intros H. exists e. split; [reflexivity|].
  apply String.eqb_neq. now destruct (String.eqb e EmptyString).
Qed.

(** One delivery, whatever the database answers: the table is left as it was,
    or the event id was on no row and the try block ran. *)
Lemma saveSubscriptionToDb_effect d w :
  let t := subscriptions (database w) in
  let t' := subscriptions (database (snd (Subscriptions.saveSubscriptionToDb d w))) in
  t' = t \/
  (forall e, SubscriptionData.stripeEventId d = Some e -> e <> EmptyString ->
             rows_for_event e t = 0%nat) /\
  ((0 < rows_for_email (SubscriptionData.email d) t)%nat /\
   t' = map (update_subscription (Subscriptions.params d)) t \/
   rows_for_email (SubscriptionData.email d) t = 0%nat /\
   t' = (t ++ [Subscriptions.params d])%list).
Proof.
  unfold Subscriptions.saveSubscriptionToDb, bind, ret.
  destruct (Js.truthy (SubscriptionData.stripeEventId d)) eqn:Ht.
  - destruct (truthy_some _ Ht) as (e & He & Hne).
    destruct (pool_execute_cases
                (SelectSubscriptionByEventId (SubscriptionData.stripeEventId d)) w)
      as [(fs & Hf & ->) | ->]; [now left|].
    cbn [fst snd run_query rows]. rewrite selected_some, He.
    fold (rows_for_event e (subscriptions (database w))).
    destruct (rows_for_event e (subscriptions (database w))) as [|n] eqn:Hn;
      cbn [Nat.ltb Nat.leb]; [|now left].
    match goal with
    | |- context [Subscriptions.upsert d ?w1] =>
        destruct (upsert_effect d w1) as (w' & -> & Hcases & _)
    end.
    cbn [snd] in *. simpl in Hcases.
    destruct Hcases as [Hsame | Hrun]; [now left|].
    right. split; [|exact Hrun].
    intros e' He' _. congruence.
  - destruct (upsert_effect d w) as (w' & -> & Hcases & _). cbn [snd].
    destruct Hcases as [Hsame | Hrun]; [now left|].
    right. split; [|exact Hrun].
    intros e He Hne. rewrite He in Ht. simpl in Ht.
    rewrite (eqb_neq_false _ _ Hne) in Ht. discriminate.
Qed.

(** A delivery keeps the table keyed, whatever the database answers. *)
Lemma saveSubscriptionToDb_keyed d w :
  keyed (subscriptions (database w)) ->
  keyed (subscriptions (database (snd (Subscriptions.saveSubscriptionToDb d w)))).
Proof.
  intros Hk.
  destruct (saveSubscriptionToDb_effect d w) as [-> | (Hfresh & [(_ & ->) | (Hnone & ->)])].
  - exact Hk.
  - apply keyed_update; [exact Hk|]. intros e He. apply Hfresh. exact He.
  - apply keyed_insert; [exact Hk | exact Hnone |]. intros e He. apply Hfresh. exact He.
Qed.

(** A stored event id makes a healthy delivery stop after the duplicate
    check: one SELECT, and the database untouched. *)
Lemma saveSubscriptionToDb_skip d w e :
  healthy w ->
  SubscriptionData.stripeEventId d = Some e -> e <> EmptyString ->
  (0 < rows_for_event e (subscriptions (database w)))%nat ->
  exists w',
    Subscriptions.saveSubscriptionToDb d w = (Ok tt, w') /\
    healthy w' /\
    database w' = database w /\
    statements (new_events w w') = [SelectSubscriptionByEventId (Some e)].
Proof.
  intros Hw He Hne Hpos.
  unfold Subscriptions.saveSubscriptionToDb, bind, ret.
  rewrite He, (truthy_nonempty _ Hne), (pool_execute_healthy _ w Hw).
  cbn [fst snd run_query rows]. rewrite selected_some.
  fold (rows_for_event e (subscriptions (database w))).
  destruct (rows_for_event e (subscriptions (database w))) as [|n]; [lia|].
  cbn [Nat.ltb Nat.leb]. eexists. split; [reflexivity|].
  split; [now apply healthy_tail|]. split; [reflexivity|].
  unfold new_events. simpl. rewrite drop_app_length. reflexivity.
Qed.

(** After a healthy delivery the event id is on a row. *)
Lemma saveSubscriptionToDb_marks d w e :
  healthy w ->
  SubscriptionData.stripeEventId d = Some e -> e <> EmptyString ->
  exists w',
    Subscriptions.saveSubscriptionToDb d w = (Ok tt, w') /\
    healthy w' /\
    (0 < rows_for_event e (subscriptions (database w')))%nat.
Proof.
  intros Hw He Hne.
  destruct (rows_for_event e (subscriptions (database w))) as [|n] eqn:Hn.
  - unfold Subscriptions.saveSubscriptionToDb, bind, ret.
    rewrite He, (truthy_nonempty _ Hne), (pool_execute_healthy _ w Hw).
    cbn [fst snd run_query rows]. rewrite selected_some.
    fold (rows_for_event e (subscriptions (database w))). rewrite Hn.
    cbn [Nat.ltb Nat.leb].
    match goal with
    | |- context [Subscriptions.upsert d ?w1] =>
        destruct (upsert_effect d w1) as (w' & -> & _ & Hh)
    end.
    destruct Hh as [Hw' Ht']; [now apply healthy_tail|].
    exists w'. split; [reflexivity|]. split; [exact Hw'|].
    rewrite Ht'. simpl.
    destruct (rows_for_email (SubscriptionData.email d) (subscriptions (database w)))
      as [|m] eqn:Hm; cbn [Nat.ltb Nat.leb].
    + rewrite rows_for_event_insert.
      replace (event_id_is (Some e) (Subscriptions.params d)) with true; [lia|].
      symmetry. apply event_id_is_true. exact He.
    + rewrite rows_for_event_update_fresh; [| exact He | exact Hn].
      change (SubscriptionRow.email (Subscriptions.params d))
        with (SubscriptionData.email d). lia.
  - destruct (saveSubscriptionToDb_skip d w e Hw He Hne) as (w' & E & Hw' & Hdb & _);
      [lia|].
    exists w'. split; [exact E|]. split; [exact Hw'|]. rewrite Hdb, Hn. lia.
Qed.

(** A save changes the number of rows of a call id only from none to one. *)
Lemma saveCallLog_rows d w k :
  let t' := call_logs (database (snd (CallLogs.saveCallLog d w))) in
  rows_for k t' = rows_for k (call_logs (database w)) \/
  rows_for k (call_logs (database w)) = 0%nat /\ rows_for k t' = 1%nat.
Proof.
  unfold CallLogs.saveCallLog.
  destruct (Js.truthy (Some (CallData.call_id d))); cbn [negb]; [|now left].
  unfold try_catch, bind, ret.
  destruct (pool_execute_cases (UpdateCallLogs (CallLogs.params d)) w)
    as [(fs & Hf & ->) | ->]; [now left|].
  cbn [fst snd run_query affectedRows CallLogs.params CallData.call_id].
  fold (rows_for (CallData.call_id d) (call_logs (database w))).
  destruct (rows_for (CallData.call_id d) (call_logs (database w))) as [|n] eqn:Hn;
    cbn [Nat.eqb].
  - match goal with
    | |- context [pool_execute ?q ?w1] =>
        destruct (pool_execute_cases q w1) as [(fs & Hf & ->) | ->]
    end.
    + left. simpl. apply rows_for_update.
    + simpl. rewrite rows_for_insert, rows_for_update. unfold call_id_is. simpl.
      destruct (String.eqb (CallData.call_id d) k) eqn:E.
      * apply String.eqb_eq in E. subst k. right. rewrite Hn. split; reflexivity.
      * left. lia.
  - left. simpl. apply rows_for_update.
Qed.

(** C4.  Duplicate delivery.  Start from a call log with at most one row for
    the call id and from a subscriptions table keyed by email.  After two
    saves of the same (non-empty) call id the call log has at most one row
    for it, and after two deliveries of the same (non-empty) payment event id
    at most one subscription row carries it, whatever the database answers.
    When the database answers every statement, the call log has exactly one
    row for the call id, holding the values of the second save; and the
    second delivery of the event stops at the duplicate check: it sends the
    one SELECT by event id, leaves the database as the first delivery left
    it, and exactly one row carries the event id. *)
Theorem C4_duplicate_delivery w callData1 callData2 sub1 sub2 e :
  CallData.call_id callData1 <> EmptyString ->
  CallData.call_id callData2 = CallData.call_id callData1 ->
  (rows_for (CallData.call_id callData1) (call_logs (database w)) <= 1)%nat ->
  SubscriptionData.stripeEventId sub1 = Some e ->
  SubscriptionData.stripeEventId sub2 = Some e ->
  e <> EmptyString ->
  keyed (subscriptions (database w)) ->
  let c2 := snd (CallLogs.saveCallLog callData2 (snd (CallLogs.saveCallLog callData1 w))) in
  let s1 := snd (Subscriptions.saveSubscriptionToDb sub1 w) in
  let s2 := snd (Subscriptions.saveSubscriptionToDb sub2 s1) in
  (rows_for (CallData.call_id callData1) (call_logs (database c2)) <= 1)%nat /\
  (rows_for_event e (subscriptions (database s2)) <= 1)%nat /\
  (healthy w ->
   rows_for (CallData.call_id callData1) (call_logs (database c2)) = 1%nat /\
   (forall r, r ∈ call_logs (database c2) ->
              CallData.call_id r = CallData.call_id callData1 ->
              r = CallLogs.params callData2) /\
   rows_for_event e (subscriptions (database s2)) = 1%nat /\
   database s2 = database s1 /\
   statements (new_events s1 s2) = [SelectSubscriptionByEventId (Some e)]).
Proof.
  intros Hid Hsame Hrows He1 He2 Hne Hkeyed c2 s1 s2.
  assert (Hk2 : keyed (subscriptions (database s2))).
  { apply saveSubscriptionToDb_keyed, saveSubscriptionToDb_keyed, Hkeyed. }
  split; [|split].
  - pose proof (saveCallLog_rows callData1 w (CallData.call_id callData1)) as H1.
    pose proof (saveCallLog_rows callData2 (snd (CallLogs.saveCallLog callData1 w))
                  (CallData.call_id callData1)) as H2.
    cbv zeta in H1, H2. fold c2 in H2. lia.
  - apply Hk2, Hne.
  - intros Hw.
    destruct (saveCallLog_twice callData1 callData2 w Hid Hsame Hw Hrows) as [Hone Hrow].
    split; [exact Hone|]. split; [exact Hrow|].
    destruct (saveSubscriptionToDb_marks sub1 w e Hw He1 Hne) as (w1 & E1 & Hw1 & Hpos).
    assert (Hs1 : s1 = w1) by (unfold s1; now rewrite E1).
    destruct (saveSubscriptionToDb_skip sub2 w1 e Hw1 He2 Hne Hpos)
      as (w2 & E2 & _ & Hdb & Hst).
    assert (Hs2 : s2 = w2) by (unfold s2; now rewrite Hs1, E2).
    rewrite Hs2, Hs1. split; [|split; [exact Hdb | exact Hst]].
    destruct Hk2 as [_ Hev]. specialize (Hev e Hne). rewrite Hs2 in Hev.
    rewrite Hdb in *. lia.
Qed.

Lemma C4_duplicate_delivery_witness :
  let w := Sample.world [] [] [] in
  let c2 := snd (CallLogs.saveCallLog (Sample.callData "c1" "ended")
                   (snd (CallLogs.saveCallLog (Sample.callData "c1" "ongoing") w))) in
  let s1 := snd (Subscriptions.saveSubscriptionToDb
                   (Sample.subscription "alice@example.com" "evt_1") w) in
  let s2 := snd (Subscriptions.saveSubscriptionToDb
                   (Sample.subscription "alice@example.com" "evt_1") s1) in
  rows_for "c1" (call_logs (database c2)) = 1%nat /\
  rows_for_event "evt_1" (subscriptions (database s2)) = 1%nat /\
  database s2 = database s1.
Proof.
  intros w c2 s1 s2.
  assert (Hkeyed : keyed (subscriptions (database w))).
  { split; [apply NoDup_nil_2 | intros; unfold rows_for_event; simpl; lia]. }
  assert (Hid : CallData.call_id (Sample.callData "c1" "ongoing") <> EmptyString)
    by discriminate.
  assert (Hne : "evt_1" <> EmptyString) by discriminate.
  assert (Hrows : (rows_for (CallData.call_id (Sample.callData "c1" "ongoing"))
                     (call_logs (database w)) <= 1)%nat) by (unfold rows_for; simpl; lia).
  destruct (C4_duplicate_delivery w (Sample.callData "c1" "ongoing")
              (Sample.callData "c1" "ended")
              (Sample.subscription "alice@example.com" "evt_1")
              (Sample.subscription "alice@example.com" "evt_1")
              "evt_1" Hid eq_refl Hrows eq_refl eq_refl Hne Hkeyed)
    as (_ & _ & Hhealthy).
  destruct Hhealthy as (Hone & _ & Hev & Hdb & _); [constructor|].
  split; [exact Hone|]. split; [exact Hev | exact Hdb].
Defined.

(** ** The listing: [Array.prototype.sort] and the owner filter *)

Lemma insert_sorted_perm x l : Server.insert_sorted x l ≡ₚ x :: l.
Proof.
  induction l as [|y rest IH]; simpl; [reflexivity|].
  destruct (Server.keeps_order x y); [reflexivity|].
  rewrite IH. apply Permutation_swap.
Qed.

Lemma array_sort_perm l : Server.array_sort l ≡ₚ l.
Proof.
  induction l as [|x l IH]; simpl; [reflexivity|].
  rewrite insert_sorted_perm. now rewrite IH.
Qed.

Lemma started_no_later_trans a b c :
  started_no_later a b -> started_no_later b c -> started_no_later a c.
Proof.
  intros (ta & tb & Ha & Hb & Hab) (tb' & tc & Hb' & Hc & Hbc).
  exists ta, tc. split; [exact Ha|]. split; [exact Hc|].
  rewrite Hb in Hb'. injection Hb' as <-. lia.
Qed.

(** The comparator decides the order of two started calls. *)
Lemma keeps_order_started x y :
  is_Some (startTime x) -> is_Some (startTime y) ->
  if Server.keeps_order x y then started_no_later y x else started_no_later x y.
Proof.
  intros [tx Hx] [ty Hy]. unfold Server.keeps_order, Server.compareFn.
  rewrite Hx, Hy. destruct (Z.leb_spec (ty - tx) 0).
  - exists ty, tx. repeat split; [easy | easy | lia].
  - exists tx, ty. repeat split; [easy | easy | lia].
Qed.

Lemma insert_sorted_sorted x l :
  is_Some (startTime x) ->
  Forall (fun c => is_Some (startTime c)) l ->
  most_recent_first l ->
  most_recent_first (Server.insert_sorted x l).
Proof.
  unfold most_recent_first. intros Hx Hall Hs.
  induction Hs as [|y rest Hrest IH Hy]; simpl.
  - repeat constructor.
  - apply Forall_cons in Hall as [Hsy Hall].
    pose proof (keeps_order_started x y Hx Hsy) as Hcmp.
    destruct (Server.keeps_order x y).
    + constructor; [now constructor|].
      constructor; [exact Hcmp|].
      eapply Forall_impl; [exact Hy|]. simpl. intros z Hz.
      eapply started_no_later_trans; eauto.
    + constructor; [now apply IH|].
      rewrite insert_sorted_perm. constructor; [exact Hcmp | exact Hy].
Qed.

Lemma array_sort_sorted l :
  Forall (fun c => is_Some (startTime c)) l ->
  most_recent_first (Server.array_sort l).
Proof.
  induction l as [|x l IH]; intros Hall; simpl.
  - constructor.
  - apply Forall_cons in Hall as [Hx Hall].
    apply insert_sorted_sorted; [exact Hx | | now apply IH].
    now rewrite array_sort_perm.
Qed.

Lemma filter_sorted (p : Call -> bool) l :
  most_recent_first l -> most_recent_first (List.filter p l).
Proof.
  unfold most_recent_first. induction 1 as [|y rest Hrest IH Hy]; simpl.
  - constructor.
  - destruct (p y); [|exact IH].
    constructor; [exact IH|].
    apply Forall_forall. intros z Hz.
    apply list_elem_of_In, filter_In in Hz as [Hz _].
    rewrite Forall_forall in Hy. apply Hy. now apply list_elem_of_In.
Qed.

Lemma owned_by_true m c : Server.owned_by m c = true <-> user_email c = m.
Proof. unfold Server.owned_by. apply String.eqb_eq. Qed.

(** What [GET /api/calls] answers, for any registry: the whole registry in
    some order to an admin, exactly the caller's own records to anyone else. *)
Lemma getCalls_lists w user :
  exists calls,
    Server.getCalls user w = (Ok (mkResponse 200 (CallsJson calls)), w) /\
    (forall c, c ∈ calls <->
               c ∈ Server.map_values (callLogsMap w) /\
               (Server.isAdmin user = true \/ user_email c = email user)) /\
    calls = (if Server.isAdmin user
             then Server.array_sort (Server.map_values (callLogsMap w))
             else List.filter (Server.owned_by (email user))
                    (Server.array_sort (Server.map_values (callLogsMap w)))).
Proof.
  unfold Server.getCalls, respond, ret.
  destruct (Server.isAdmin user) eqn:Hadm; eexists; (split; [reflexivity|]);
    (split; [|reflexivity]); intros c.
  - rewrite array_sort_perm. split; [intros H; split; [exact H | now left] | now intros [H _]].
  - rewrite list_elem_of_In, filter_In, <- list_elem_of_In, array_sort_perm, owned_by_true.
    split.
    + intros [H1 H2]. split; [exact H1 | now right].
    + intros [H1 [H2 | H2]]; [discriminate | now split].
Qed.

(** C6.  [GET /api/calls], in every state of the registry.  A caller who is
    not an admin receives exactly the records whose [user_email] is the
    caller's email, never one of another owner; an admin receives every
    record.  Either list is ordered by start time, most recently started
    first, the records having a start time (every record the handlers create
    has one). *)
Theorem C6_listing w user :
  exists calls,
    Server.getCalls user w = (Ok (mkResponse 200 (CallsJson calls)), w) /\
    (if Server.isAdmin user
     then calls ≡ₚ Server.map_values (callLogsMap w)
     else Forall (fun c => user_email c = email user) calls /\
          (forall c, c ∈ Server.map_values (callLogsMap w) ->
                     user_email c = email user -> c ∈ calls)) /\
    (Forall (fun c => is_Some (startTime c)) (Server.map_values (callLogsMap w)) ->
     most_recent_first calls).
Proof.
  destruct (getCalls_lists w user) as (calls & Hresp & Hmem & Hcalls).
  exists calls. split; [exact Hresp|]. split.
  - destruct (Server.isAdmin user) eqn:Hadm.
    + rewrite Hcalls. apply array_sort_perm.
    + split.
      * apply Forall_forall. intros c Hc. apply Hmem in Hc as [_ [H | H]];
          [discriminate | exact H].
      * intros c Hc Hown. apply Hmem. split; [exact Hc | now right].
  - intros Hall. rewrite Hcalls. destruct (Server.isAdmin user).
    + now apply array_sort_sorted.
    + now apply filter_sorted, array_sort_sorted.
Qed.

Lemma C6_listing_witness :
  let older := Sample.call "completed" "outbound" 1000 None in
  let newer := Sample.call "ongoing" "outbound" 5000 None in
  let w := Sample.world [("a", older); ("b", newer)] [] [] in
  exists calls,
    Server.getCalls Sample.alice w = (Ok (mkResponse 200 (CallsJson calls)), w) /\
    Forall (fun c => user_email c = email Sample.alice) calls /\
    most_recent_first calls.
Proof.
  intros older newer w.
  assert (Hall : Forall (fun c => is_Some (startTime c))
                   (Server.map_values (callLogsMap w))).
  { repeat constructor; eexists; reflexivity. }
  destruct (C6_listing w Sample.alice) as (calls & Hresp & Hown & Hsorted).
  exists calls. split; [exact Hresp|]. split; [exact (proj1 Hown) | exact (Hsorted Hall)].
Defined.

(** ** C5: start, then list *)

Lemma startCall_placed w user phoneNumber data now :
  Js.truthy phoneNumber = true ->
  Server.startCall user phoneNumber (Placed data) now w
  = (Ok (mkResponse 200 (CallJson (Server.newCall (email user) data now))),
     log_event (Emitted (CallUpdate (Server.newCall (email user) data now)))
       (set_callLogsMap
          (Server.map_set (VapiCall.id data) (Server.newCall (email user) data now)
             (callLogsMap w)) w)).
Proof. intros H. unfold Server.startCall. now rewrite H. Qed.

(** C5 (as the code has it).  After a successful [POST /api/calls/start] the
    registry holds, under the id of the provider's response, a record with
    direction ['outbound'], the caller's email as [user_email], and as status
    the status of the provider's response, ['queued'] when the response has
    none; a [GET /api/calls] by the same user right after lists the record. *)
Theorem C5_start_then_list w user phoneNumber data now :
  Js.truthy phoneNumber = true ->
  let started := Server.startCall user phoneNumber (Placed data) now w in
  let call := Server.newCall (email user) data now in
  fst started = Ok (mkResponse 200 (CallJson call)) /\
  Server.map_get (VapiCall.id data) (callLogsMap (snd started)) = Some call /\
  status call = Js.or_str (VapiCall.status data) "queued" /\
  (Js.truthy (VapiCall.status data) = false -> status call = "queued") /\
  direction call = "outbound" /\
  user_email call = email user /\
  exists calls,
    fst (Server.getCalls user (snd started)) = Ok (mkResponse 200 (CallsJson calls)) /\
    call ∈ calls.
Proof.
  intros Hphone started call. unfold started.
  rewrite (startCall_placed w user phoneNumber data now Hphone). cbn [fst snd].
  split; [reflexivity|]. split; [apply map_get_set_same|].
  split; [reflexivity|]. split.
  { intros Hst. simpl. destruct (VapiCall.status data) as [s|]; simpl in *; [|reflexivity].
    destruct (String.eqb s EmptyString); [reflexivity | discriminate]. }
  split; [reflexivity|]. split; [reflexivity|].
  match goal with
  | |- context [Server.getCalls user ?w1] =>
      destruct (getCalls_lists w1 user) as (calls & -> & Hmem & _)
  end.
  exists calls. split; [reflexivity|].
  apply Hmem. split; [|now right].
  eapply map_get_elem. simpl. apply map_get_set_same.
Qed.

Lemma C5_start_then_list_witness :
  let w := Sample.world [] [] [] in
  let started :=
    Server.startCall Sample.alice (Some "+15550100") (Placed (Sample.placed None)) 5000 w in
  exists call calls,
    Server.map_get "c1" (callLogsMap (snd started)) = Some call /\
    status call = "queued" /\
    fst (Server.getCalls Sample.alice (snd started))
    = Ok (mkResponse 200 (CallsJson calls)) /\
    call ∈ calls.
Proof.
  intros w started.
  destruct (C5_start_then_list w Sample.alice (Some "+15550100") (Sample.placed None)
              5000 eq_refl) as (_ & Hget & _ & Hqueued & _ & _ & calls & Hlist & Hin).
  eexists. exists calls. split; [exact Hget|]. split; [now apply Hqueued|].
  split; [exact Hlist | exact Hin].
Defined.

(** C5, counterexample to the specification as written: the record takes the
    status of the provider's response, here ['ringing'], not ['queued']. *)
Lemma C5_started_record_not_queued :
  let w := Sample.world [] [] [] in
  let started :=
    Server.startCall Sample.alice (Some "+15550100")
      (Placed (Sample.placed (Some "ringing"))) 5000 w in
  fst started
  = Ok (mkResponse 200
          (CallJson (Server.newCall "alice@example.com"
                       (Sample.placed (Some "ringing")) 5000))) /\
  ~ (exists call,
       Server.map_get "c1" (callLogsMap (snd started)) = Some call /\
       status call = "queued").
Proof.
  split; [reflexivity|].
  intros (call & Hget & Hst). vm_compute in Hget. injection Hget as <-.
  vm_compute in Hst. discriminate.
Qed.

(** ** The end action *)

(** The local fallback: the record is completed with the elapsed seconds, the
    count and the record are broadcast, the record is saved once, and the
    request is answered 200 whatever the database answers. *)
Lemma endLocally_effect w user callId call now :
  let done := complete_locally (Server.elapsed_seconds call now) now call in
  let saved := CallLogs.params (Server.fallbackCallData user done now) in
  let n := length (List.filter Server.is_ongoing
                     (Server.map_values (Server.map_set callId done (callLogsMap w)))) in
  exists evs db fs,
    Server.endLocally user callId call now w
    = (Ok (mkResponse 200
             (MessageCallJson "Call ended locally (Vapi control failed or unavailable)" done)),
       mkWorld (Server.map_set callId done (callLogsMap w)) (callLogs w) n db fs
         (trace w ++ [Emitted (ActiveCalls n); Emitted (CallUpdate done)] ++ evs)) /\
    broadcasts evs = [] /\
    (id call <> EmptyString ->
     (statements evs = [UpdateCallLogs saved] \/
      rows_for (id call) (call_logs (database w)) = 0%nat /\
      statements evs = [UpdateCallLogs saved; InsertCallLogs saved]) /\
     (call_log_writes evs <= 1)%nat /\
     (healthy w -> call_log_writes evs = 1%nat)).
Proof.
  intros done saved n. unfold Server.endLocally. run_handler.
  match goal with
  | |- context [CallLogs.saveCallLog ?d ?w1] =>
      destruct (saveCallLog_effect d w1) as (evs & db & fs & -> & Hb & Hs)
  end.
  exists evs, db, fs. split.
  - simpl. rewrite <- !app_assoc. reflexivity.
  - split; [exact Hb|]. intros Hid. apply Hs. exact Hid.
Qed.

Lemma endCall_guards_pass user call :
  user_email call = email user \/ Server.isAdmin user = true ->
  ~ terminal (status call) ->
  negb (String.eqb (user_email call) (email user)) && negb (Server.isAdmin user) = false /\
  String.eqb (status call) "completed" || String.eqb (status call) "ended" = false.
Proof.
  intros Hown Hterm. split.
  - destruct Hown as [-> | ->]; [now rewrite String.eqb_refl | apply andb_false_r].
  - apply orb_false_intro; apply String.eqb_neq; intros H; apply Hterm;
      [now left | now right].
Qed.

(** [POST /api/calls/end/:callId] runs the local fallback when the record has
    no control handle, and when the provider rejects the command. *)
Lemma endCall_falls_back w user callId call axios now :
  Server.map_get callId (callLogsMap w) = Some call ->
  user_email call = email user \/ Server.isAdmin user = true ->
  ~ terminal (status call) ->
  Js.truthy (monitor_controlUrl (monitor call)) = false \/ (exists m, axios = Failed m) ->
  Server.endCall user callId axios now w = Server.endLocally user callId call now w.
Proof.
  intros Hget Hown Hterm Hwhy.
  destruct (endCall_guards_pass user call Hown Hterm) as [Hg1 Hg2].
  destruct (endLocally_effect w user callId call now) as (evs & db & fs & E & _).
  unfold Server.endCall, try_catch, bind, Server.registry_get.
  rewrite Hget, Hg1, Hg2.
  destruct Hwhy as [Hurl | [m ->]].
  - rewrite Hurl, E. reflexivity.
  - destruct (Js.truthy (monitor_controlUrl (monitor call))); rewrite E; reflexivity.
Qed.


(** A rejected answer or reject command is answered 500 and changes nothing. *)
Lemma answer_failed w user callId call message :
  Server.map_get callId (callLogsMap w) = Some call ->
  direction call = "inbound" ->
  status call = "ringing" ->
  Js.truthy (monitor_controlUrl (monitor call)) = true ->
  Server.answerCall user callId (Failed message) w
  = (Ok (mkResponse 500 (ErrorJson (Js.or_str message "Failed to answer call"))), w).
Proof.
  intros Hget Hdir Hst Hurl. unfold Server.answerCall. run_handler.
  now rewrite Hget, Hdir, Hst, Hurl.
Qed.

Lemma reject_failed w user callId call message :
  Server.map_get callId (callLogsMap w) = Some call ->
  direction call = "inbound" ->
  status call = "ringing" ->
  Js.truthy (monitor_controlUrl (monitor call)) = true ->
  Server.rejectCall user callId (Failed message) w
  = (Ok (mkResponse 500 (ErrorJson (Js.or_str message "Failed to reject call"))), w).
Proof.
  intros Hget Hdir Hst Hurl. unfold Server.rejectCall. run_handler.
  now rewrite Hget, Hdir, Hst, Hurl.
Qed.

Lemma new_events_app w w' evs :
  trace w' = (trace w ++ evs)%list -> new_events w w' = evs.
Proof. intros H. unfold new_events. rewrite H. apply drop_app_length. Qed.

Lemma new_events_same w : new_events w w = [].
Proof. unfold new_events. apply drop_all. Qed.

(** ** C2: ending a call that has no control handle *)

(** C2 (as the code has it).  Take a record of the registry with a non-empty
    id and no [monitor.controlUrl], and an end request by its owner.  If the
    record is already ['completed'] or ['ended'], the request is answered
    "Call already ended" and nothing changes or is written.  Otherwise the
    record becomes ['completed'], its [duration] is the whole number of
    seconds from its [startTime] to now, and the record is saved once: the
    request sends the UPDATE of its [call_logs] row, then the INSERT of that
    row if the UPDATE matched none, and nothing else; at most one of the two
    changes the table, and exactly one when the database answers. *)
Theorem C2_end_without_control_handle w user callId call axios now :
  Server.map_get callId (callLogsMap w) = Some call ->
  id call <> EmptyString ->
  Js.truthy (monitor_controlUrl (monitor call)) = false ->
  user_email call = email user ->
  let ended := Server.endCall user callId axios now w in
  let done := complete_locally (Server.elapsed_seconds call now) now call in
  let saved := CallLogs.params (Server.fallbackCallData user done now) in
  (terminal (status call) ->
   ended = (Ok (mkResponse 200 (MessageCallJson "Call already ended" call)), w)) /\
  (~ terminal (status call) ->
   fst ended
   = Ok (mkResponse 200
           (MessageCallJson "Call ended locally (Vapi control failed or unavailable)" done)) /\
   Server.map_get callId (callLogsMap (snd ended)) = Some done /\
   status done = "completed" /\
   (forall t, startTime call = Some t -> duration done = ((now - t) / 1000)%Z) /\
   CallData.call_id saved = id call /\
   CallData.status saved = "completed" /\
   CallData.duration saved = duration done /\
   (statements (new_events w (snd ended)) = [UpdateCallLogs saved] \/
    rows_for (id call) (call_logs (database w)) = 0%nat /\
    statements (new_events w (snd ended)) = [UpdateCallLogs saved; InsertCallLogs saved]) /\
   (call_log_writes (new_events w (snd ended)) <= 1)%nat /\
   (healthy w -> call_log_writes (new_events w (snd ended)) = 1%nat)).
Proof.
  intros Hget Hid Hurl Hown ended done saved. split.
  - intros Hterm. unfold ended. apply end_already_ended; auto.
  - intros Hterm. unfold ended.
    rewrite (endCall_falls_back w user callId call axios now Hget (or_introl Hown) Hterm
               (or_introl Hurl)).
    destruct (endLocally_effect w user callId call now) as (evs & db & fs & -> & Hb & Hs).
    destruct (Hs Hid) as (Hst & Hle & Hh). cbn [fst snd callLogsMap].
    split; [reflexivity|]. split; [apply map_get_set_same|]. split; [reflexivity|].
    split; [intros t Ht; simpl; unfold Server.elapsed_seconds; now rewrite Ht|].
    split; [reflexivity|]. split; [reflexivity|]. split; [reflexivity|].
    erewrite new_events_app by reflexivity.
    change (statements ([Emitted (ActiveCalls _); Emitted (CallUpdate _)] ++ evs))
      with (statements evs).
    change (call_log_writes ([Emitted (ActiveCalls _); Emitted (CallUpdate _)] ++ evs))
      with (call_log_writes evs).
    split; [exact Hst|]. split; [exact Hle | exact Hh].
Qed.

Lemma C2_end_without_control_handle_witness :
  let w := Sample.world [("c1", Sample.unmonitored)] [] [] in
  let ended := Server.endCall Sample.alice "c1" Delivered 9500 w in
  exists done,
    Server.map_get "c1" (callLogsMap (snd ended)) = Some done /\
    status done = "completed" /\
    duration done = 8%Z /\
    call_log_writes (new_events w (snd ended)) = 1%nat.
Proof.
  intros w ended.
  assert (Hid : id Sample.unmonitored <> EmptyString) by discriminate.
  assert (Hterm : ~ terminal (status Sample.unmonitored)).
  { intros [H | H]; discriminate. }
  destruct (C2_end_without_control_handle w Sample.alice "c1" Sample.unmonitored
              Delivered 9500 eq_refl Hid eq_refl eq_refl) as [_ Hrun].
  destruct (Hrun Hterm) as (_ & Hget & Hst & Hdur & _ & _ & _ & _ & _ & Hone).
  eexists. split; [exact Hget|]. split; [exact Hst|].
  split; [exact (Hdur 1000%Z eq_refl)|].
  apply Hone. constructor.
Defined.

(** C2, counterexample to the specification as written: for a record without
    control handle that is already ['ended'], the owner's end request neither
    makes it ['completed'] nor writes to the call log. *)
Lemma C2_end_on_ended_writes_nothing :
  let w := Sample.world [("c1", Sample.ended)] [] [] in
  let ended := Server.endCall Sample.alice "c1" Delivered 9500 w in
  monitor_controlUrl (monitor Sample.ended) = None /\
  user_email Sample.ended = email Sample.alice /\
  Server.map_get "c1" (callLogsMap (snd ended)) = Some Sample.ended /\
  status Sample.ended <> "completed" /\
  statements (new_events w (snd ended)) = [] /\
  call_log_writes (new_events w (snd ended)) = 0%nat.
Proof. repeat split; discriminate. Qed.

(** ** C7: a control command the provider rejects *)

(** C7 (as the code has it).  On a record with a control handle whose
    provider rejects the command: an end request by the owner or an admin, on
    a record not yet terminal, completes the record locally, broadcasts it and
    saves it once (the UPDATE of its row, then the INSERT if no row matched),
    and is answered 200; an answer or a reject request on a ringing inbound
    call is answered 500 and changes nothing, neither the record nor the
    call log. *)
Theorem C7_provider_failure w user callId call message now :
  Server.map_get callId (callLogsMap w) = Some call ->
  Js.truthy (monitor_controlUrl (monitor call)) = true ->
  let ended := Server.endCall user callId (Failed message) now w in
  let done := complete_locally (Server.elapsed_seconds call now) now call in
  let saved := CallLogs.params (Server.fallbackCallData user done now) in
  (user_email call = email user \/ Server.isAdmin user = true ->
   ~ terminal (status call) ->
   id call <> EmptyString ->
   fst ended
   = Ok (mkResponse 200
           (MessageCallJson "Call ended locally (Vapi control failed or unavailable)" done)) /\
   Server.map_get callId (callLogsMap (snd ended)) = Some done /\
   status done = "completed" /\
   CallData.status saved = "completed" /\
   (statements (new_events w (snd ended)) = [UpdateCallLogs saved] \/
    rows_for (id call) (call_logs (database w)) = 0%nat /\
    statements (new_events w (snd ended)) = [UpdateCallLogs saved; InsertCallLogs saved]) /\
   (healthy w -> call_log_writes (new_events w (snd ended)) = 1%nat)) /\
  (direction call = "inbound" ->
   status call = "ringing" ->
   Server.answerCall user callId (Failed message) w
   = (Ok (mkResponse 500 (ErrorJson (Js.or_str message "Failed to answer call"))), w) /\
   Server.rejectCall user callId (Failed message) w
   = (Ok (mkResponse 500 (ErrorJson (Js.or_str message "Failed to reject call"))), w)).
Proof.
  intros Hget Hurl ended done saved. split.
  - intros Hown Hterm Hid. unfold ended.
    rewrite (endCall_falls_back w user callId call (Failed message) now Hget Hown Hterm)
      by (right; eauto).
    destruct (endLocally_effect w user callId call now) as (evs & db & fs & -> & Hb & Hs).
    destruct (Hs Hid) as (Hst & Hle & Hh). cbn [fst snd callLogsMap].
    split; [reflexivity|]. split; [apply map_get_set_same|]. split; [reflexivity|].
    split; [reflexivity|].
    erewrite new_events_app by reflexivity.
    change (statements ([Emitted (ActiveCalls _); Emitted (CallUpdate _)] ++ evs))
      with (statements evs).
    change (call_log_writes ([Emitted (ActiveCalls _); Emitted (CallUpdate _)] ++ evs))
      with (call_log_writes evs).
    split; [exact Hst | exact Hh].
  - intros Hdir Hst. split.
    + now apply (answer_failed w user callId call).
    + now apply (reject_failed w user callId call).
Qed.

Lemma C7_provider_failure_witness :
  let w := Sample.world [("c1", Sample.ongoing)] [] [] in
  let ended := Server.endCall Sample.alice "c1" (Failed None) 9500 w in
  exists done,
    Server.map_get "c1" (callLogsMap (snd ended)) = Some done /\
    status done = "completed" /\
    call_log_writes (new_events w (snd ended)) = 1%nat.
Proof.
  intros w ended.
  assert (Hid : id Sample.ongoing <> EmptyString) by discriminate.
  assert (Hterm : ~ terminal (status Sample.ongoing)).
  { intros [H | H]; discriminate. }
  destruct (C7_provider_failure w Sample.alice "c1" Sample.ongoing None 9500
              eq_refl eq_refl) as [Hend _].
  destruct (Hend (or_introl eq_refl) Hterm Hid) as (_ & Hget & Hst & _ & _ & Hone).
  eexists. split; [exact Hget|]. split; [exact Hst|]. apply Hone. constructor.
Defined.

(** C7, counterexample to the specification as written: when the provider
    rejects an answer command, the record is not marked ['completed'] and
    nothing is written to the store; the request is answered 500. *)
Lemma C7_failed_answer_has_no_fallback :
  let w := Sample.world [("c1", Sample.ringing)] [] [] in
  let answered := Server.answerCall Sample.alice "c1" (Failed None) w in
  fst answered = Ok (mkResponse 500 (ErrorJson "Failed to answer call")) /\
  ~ (exists call, Server.map_get "c1" (callLogsMap (snd answered)) = Some call /\
                  status call = "completed") /\
  statements (new_events w (snd answered)) = [] /\
  call_logs (database (snd answered)) = [].
Proof.
  split; [reflexivity|]. split; [|split; reflexivity].
  intros (call & Hget & Hst). vm_compute in Hget. injection Hget as <-.
  vm_compute in Hst. discriminate.
Qed.

(** ** The array registry *)

Lemma find_put c l : Registry.find (id c) (Registry.put c l) = Some c.
Proof.
  unfold Registry.find, Registry.put, Registry.findIndex.
  induction l as [|x l IH]; simpl.
  - now rewrite decide_True.
  - destruct (decide (id x = id c)) as [Hx | Hx]; simpl.
    + now rewrite decide_True.
    + destruct (list_find (fun c0 => id c0 = id c) l) as [[i y]|] eqn:Hfind; simpl in *.
      * rewrite decide_False by exact Hx.
        destruct (list_find _ (<[i:=c]> l)) as [[j z]|]; simpl in *; congruence.
      * now rewrite decide_True.
Qed.


Lemma broadcasts_app a b : broadcasts (a ++ b) = (broadcasts a ++ broadcasts b)%list.
Proof. apply omap_app. Qed.

Lemma put_cases c l :
  (exists i x, l !! i = Some x /\ id x = id c /\ Registry.put c l = <[i:=c]> l) \/
  ((id c ∉ map id l) /\ Registry.put c l = c :: l).
Proof.
  unfold Registry.put, Registry.findIndex.
  destruct (list_find (fun c0 => id c0 = id c) l) as [[i x]|] eqn:Hfind; simpl.
  - apply list_find_Some in Hfind as (Hi & Hx & _). left. now exists i, x.
  - apply list_find_None in Hfind. right. split; [|reflexivity].
    intros Hin. apply list_elem_of_fmap in Hin as (x & Hx & Hin).
    rewrite Forall_forall in Hfind. now apply (Hfind x Hin).
Qed.

Lemma put_ids c l : NoDup (map id l) -> NoDup (map id (Registry.put c l)).
Proof.
  intros Hnd. destruct (put_cases c l) as [(i & x & Hi & Hx & ->) | [Hfresh ->]].
  - rewrite list_fmap_insert, list_insert_id; [exact Hnd|].
    rewrite list_lookup_fmap, Hi. simpl. now rewrite Hx.
  - simpl. now apply NoDup_cons.
Qed.

Lemma find_cons k x l :
  Registry.find k (x :: l) = if decide (id x = k) then Some x else Registry.find k l.
Proof.
  unfold Registry.find. simpl. destruct (decide (id x = k)); [reflexivity|].
  now destruct (list_find (fun c => id c = k) l) as [[i y]|].
Qed.

Lemma find_insert_other k c l i x :
  l !! i = Some x -> id x <> k -> id c <> k ->
  Registry.find k (<[i:=c]> l) = Registry.find k l.
Proof.
  revert i. induction l as [|y l IH]; intros i Hi Hx Hc; [reflexivity|].
  destruct i as [|i]; simpl in *.
  - injection Hi as ->. rewrite !find_cons. now rewrite !decide_False.
  - rewrite !find_cons. destruct (decide (id y = k)); [reflexivity|]. now apply IH.
Qed.

Lemma find_put_other k c l :
  k <> id c -> Registry.find k (Registry.put c l) = Registry.find k l.
Proof.
  intros Hne. destruct (put_cases c l) as [(i & x & Hi & Hx & ->) | [Hfresh ->]].
  - apply (find_insert_other k c l i x Hi); congruence.
  - rewrite find_cons. now rewrite decide_False by congruence.
Qed.

Lemma put_length c l :
  length (Registry.put c l)
  = match Registry.find (id c) l with
    | Some _ => length l
    | None => S (length l)
    end.
Proof.
  unfold Registry.put, Registry.findIndex, Registry.find.
  destruct (list_find (fun c0 => id c0 = id c) l) as [[i x]|]; simpl;
    [apply length_insert | reflexivity].
Qed.

Lemma find_Some_id k l c : Registry.find k l = Some c -> id c = k.
Proof.
  unfold Registry.find.
  destruct (list_find (fun c0 => id c0 = k) l) as [[i x]|] eqn:Hfind; [|discriminate].
  intros [= <-]. now apply list_find_Some in Hfind as (_ & Hx & _).
Qed.

Lemma mutate_is_put k l c c' :
  Registry.find k l = Some c -> id c' = k ->
  match Registry.findIndex k l with
  | Some index => <[index:=c']> l
  | None => l
  end = Registry.put c' l.
Proof.
  unfold Registry.find, Registry.put, Registry.findIndex. intros Hfind Hid.
  rewrite Hid.
  destruct (list_find (fun c0 => id c0 = k) l) as [[i x]|]; [reflexivity | discriminate].
Qed.

Lemma call_log_writes_emitted e1 e2 evs :
  call_log_writes ([Emitted e1; Emitted e2] ++ evs) = call_log_writes evs.
Proof. reflexivity. Qed.

Ltac run_v2 :=
  unfold bind, try_catch, ret, respond, ServerV2.registry_find, ServerV2.mutate,
    ServerV2.unshift, Registry.notifyClients, Registry.updateActiveCalls, io_emit;
  simpl.

(** On an array-registry server the inbound-webhook route stores the call of
    the event in place of any record of the same id, broadcasts the count of
    ongoing calls and the stored call, then saves. *)
Lemma inbound_post_effect w payload callEvent now :
  payload_call payload = Some callEvent ->
  exists evs db fs,
    let c := InboundWebhook.newCall callEvent now in
    let l := Registry.put c (callLogs w) in
    let n := length (List.filter Registry.is_ongoing l) in
    InboundWebhook.post ArrayRegistry CallLogs.saveCallLog payload now w
    = (Ok (mkResponse 200 ReceivedJson),
       mkWorld (callLogsMap w) l n db fs
         (trace w ++ [Emitted (ActiveCalls n); Emitted (CallUpdate c)] ++ evs)) /\
    broadcasts evs = [].
Proof.
  unfold payload_call, InboundWebhook.post. intros ->.
  unfold bind, Registry.store, Registry.updateActiveCalls, Registry.notifyClients,
    io_emit, respond, ret, try_catch. simpl.
  match goal with
  | |- context [CallLogs.saveCallLog ?d ?w1] =>
      destruct (saveCallLog_effect d w1) as (evs & db & fs & -> & Hb & _)
  end.
  exists evs, db, fs. split; [|exact Hb].
  simpl. rewrite <- !app_assoc. reflexivity.
Qed.

(** On the Map-registry server the route throws as soon as the payload has a
    call, for want of [global.callLogs]. *)
Lemma inbound_post_map_registry saveCallLog payload callEvent now w :
  payload_call payload = Some callEvent ->
  InboundWebhook.post MapRegistry saveCallLog payload now w
  = (Throw (TypeError "Cannot read properties of undefined (reading 'findIndex')"), w).
Proof. unfold payload_call, InboundWebhook.post. now intros ->. Qed.

(** The end route when the provider accepted the command. *)
Lemma v2_end_effect w user callId call now :
  Registry.find callId (callLogs w) = Some call ->
  Js.truthy (monitor_controlUrl (monitor call)) = true ->
  let done := ServerV2.complete (Server.elapsed_seconds call now) call in
  let l := Registry.put done (callLogs w) in
  let n := length (List.filter Registry.is_ongoing l) in
  exists evs db fs,
    ServerV2.endCall user callId Delivered now w
    = (Ok (mkResponse 200 (MessageCallJson "Call end request sent" done)),
       mkWorld (callLogsMap w) l n db fs
         (trace w ++ [Emitted (ActiveCalls n); Emitted (CallUpdate done)] ++ evs)) /\
    broadcasts evs = [] /\
    (callId <> EmptyString ->
     (call_log_writes evs <= 1)%nat /\ (healthy w -> call_log_writes evs = 1%nat)).
Proof.
  intros Hfind Hurl. cbv zeta. pose proof (find_Some_id _ _ _ Hfind) as Hid.
  unfold ServerV2.endCall. run_v2. rewrite Hfind, Hurl. simpl.
  rewrite (mutate_is_put callId (callLogs w) call
             (ServerV2.complete (Server.elapsed_seconds call now) call) Hfind Hid).
  match goal with
  | |- context [CallLogs.saveCallLog ?d ?w1] =>
      destruct (saveCallLog_effect d w1) as (evs & db & fs & -> & Hb & Hs)
  end.
  exists evs, db, fs. split.
  - simpl. rewrite <- !app_assoc. reflexivity.
  - split; [exact Hb|]. intros Hne.
    destruct Hs as (_ & Hle & Hh); [simpl; congruence|]. split; [exact Hle | exact Hh].
Qed.

Lemma put_keeps_monitor k0 k call c' l :
  Registry.find k0 l = Some call -> id c' = k0 -> monitor c' = monitor call ->
  monitor <$> Registry.find k (Registry.put c' l) = monitor <$> Registry.find k l.
Proof.
  intros Hfind Hid Hmon. destruct (decide (k = k0)) as [-> | Hne].
  - subst k0. rewrite find_put, Hfind. simpl. now rewrite Hmon.
  - rewrite find_put_other by congruence. reflexivity.
Qed.

(** A control action of the array-registry [server.js] leaves the registry
    as it is, or changes [status] and [duration] of the record of the call,
    where it stands. *)
Lemma perform_array_registry w action :
  callLogs (perform_array w action) = callLogs w \/
  exists callId call c',
    Registry.find callId (callLogs w) = Some call /\
    id c' = callId /\ monitor c' = monitor call /\
    callLogs (perform_array w action) = Registry.put c' (callLogs w).
Proof.
  destruct action as [user callId axios | user callId axios now | user callId axios now];
    simpl.
  - unfold ServerV2.answerCall. run_v2.
    destruct (Registry.find callId (callLogs w)) as [call|] eqn:Hfind; [|now left].
    pose proof (find_Some_id _ _ _ Hfind) as Hid.
    destruct (negb (String.eqb (direction call) "inbound")); [now left|].
    destruct (negb (Js.truthy (monitor_controlUrl (monitor call)))); [now left|].
    destruct axios; [|now left]. right. simpl.
    exists callId, call, (set_status "ongoing" call).
    repeat split; try assumption.
    apply (mutate_is_put callId (callLogs w) call); assumption.
  - unfold ServerV2.rejectCall. run_v2.
    destruct (Registry.find callId (callLogs w)) as [call|] eqn:Hfind; [|now left].
    pose proof (find_Some_id _ _ _ Hfind) as Hid.
    destruct (negb (String.eqb (direction call) "inbound")); [now left|].
    destruct (negb (Js.truthy (monitor_controlUrl (monitor call)))); [now left|].
    destruct axios; [|now left]. right. simpl.
    exists callId, call, (ServerV2.complete (Server.elapsed_seconds call now) call).
    repeat split; try assumption.
    apply (mutate_is_put callId (callLogs w) call); assumption.
  - destruct (Registry.find callId (callLogs w)) as [call|] eqn:Hfind.
    + pose proof (find_Some_id _ _ _ Hfind) as Hid.
      destruct (Js.truthy (monitor_controlUrl (monitor call))) eqn:Hurl.
      * destruct axios as [|message].
        -- destruct (v2_end_effect w user callId call now Hfind Hurl)
             as (evs & db & fs & -> & _).
           right. exists callId, call,
             (ServerV2.complete (Server.elapsed_seconds call now) call).
           repeat split; assumption.
        -- left. unfold ServerV2.endCall. run_v2. now rewrite Hfind, Hurl.
      * left. unfold ServerV2.endCall. run_v2. now rewrite Hfind, Hurl.
    + left. unfold ServerV2.endCall. run_v2. now rewrite Hfind.
Qed.

Lemma perform_all_array_keeps_monitors actions w k :
  monitor <$> Registry.find k (callLogs (perform_all_array actions w))
  = monitor <$> Registry.find k (callLogs w).
Proof.
  unfold perform_all_array. revert w.
  induction actions as [|action actions IH]; intros w; simpl; [reflexivity|].
  rewrite IH.
  destruct (perform_array_registry w action)
    as [-> | (callId & call & c' & Hfind & Hid & Hmon & ->)]; [reflexivity|].
  now apply put_keeps_monitor with (k0 := callId) (call := call).
Qed.

(** ** C1: the control handle across updates *)

Lemma map_set_keeps_monitor callId call call' m k :
  Server.map_get callId m = Some call ->
  monitor call' = monitor call ->
  monitor <$> Server.map_get k (Server.map_set callId call' m)
  = monitor <$> Server.map_get k m.
Proof.
  intros Hget Hmon. destruct (decide (k = callId)) as [-> | Hne].
  - rewrite map_get_set_same, Hget. simpl. now rewrite Hmon.
  - now rewrite map_get_set_other.
Qed.

(** A control action leaves the registry as it is, or replaces the record of
    the call by the same record with other [status], [duration], [endTime]
    and [updatedAt]. *)
Lemma answerCall_registry w user callId axios :
  let m' := callLogsMap (snd (Server.answerCall user callId axios w)) in
  m' = callLogsMap w \/
  exists call,
    Server.map_get callId (callLogsMap w) = Some call /\
    m' = Server.map_set callId (set_status "answering" call) (callLogsMap w).
Proof.
  unfold Server.answerCall. run_handler.
  destruct (Server.map_get callId (callLogsMap w)) as [call|] eqn:Hget; [|now left].
  destruct (negb (String.eqb (direction call) "inbound")); [now left|].
  destruct (negb (String.eqb (status call) "ringing")); [now left|].
  destruct (negb (Js.truthy (monitor_controlUrl (monitor call)))); [now left|].
  destruct axios; [|now left]. right. exists call. now split.
Qed.

Lemma rejectCall_registry w user callId axios :
  let m' := callLogsMap (snd (Server.rejectCall user callId axios w)) in
  m' = callLogsMap w \/
  exists call,
    Server.map_get callId (callLogsMap w) = Some call /\
    m' = Server.map_set callId (set_status "rejecting" call) (callLogsMap w).
Proof.
  unfold Server.rejectCall. run_handler.
  destruct (Server.map_get callId (callLogsMap w)) as [call|] eqn:Hget; [|now left].
  destruct (negb (String.eqb (direction call) "inbound")); [now left|].
  destruct (negb (String.eqb (status call) "ringing")); [now left|].
  destruct (negb (Js.truthy (monitor_controlUrl (monitor call)))); [now left|].
  destruct axios; [|now left]. right. exists call. now split.
Qed.

Lemma endCall_registry w user callId axios now :
  let m' := callLogsMap (snd (Server.endCall user callId axios now w)) in
  m' = callLogsMap w \/
  exists call,
    Server.map_get callId (callLogsMap w) = Some call /\
    (m' = Server.map_set callId (set_status "ending" call) (callLogsMap w) \/
     m' = Server.map_set callId
            (complete_locally (Server.elapsed_seconds call now) now call)
            (callLogsMap w)).
Proof.
  unfold Server.endCall, try_catch, bind, Server.registry_get.
  destruct (Server.map_get callId (callLogsMap w)) as [call|] eqn:Hget; [|now left].
  destruct (negb (String.eqb (user_email call) (email user)) && negb (Server.isAdmin user));
    [now left|].
  destruct (String.eqb (status call) "completed" || String.eqb (status call) "ended");
    [now left|].
  destruct (endLocally_effect w user callId call now) as (evs & db & fs & E & _).
  destruct (Js.truthy (monitor_controlUrl (monitor call))); [destruct axios|].
  - right. exists call. split; [reflexivity|]. now left.
  - rewrite E. right. exists call. split; [reflexivity|]. now right.
  - rewrite E. right. exists call. split; [reflexivity|]. now right.
Qed.

Lemma perform_keeps_monitors w action k :
  monitor <$> Server.map_get k (callLogsMap (perform w action))
  = monitor <$> Server.map_get k (callLogsMap w).
Proof.
  destruct action as [user callId axios | user callId axios | user callId axios now];
    simpl.
  - destruct (answerCall_registry w user callId axios) as [-> | (call & Hget & ->)];
      [reflexivity|].
    now apply map_set_keeps_monitor with (call := call).
  - destruct (rejectCall_registry w user callId axios) as [-> | (call & Hget & ->)];
      [reflexivity|].
    now apply map_set_keeps_monitor with (call := call).
  - destruct (endCall_registry w user callId axios now)
      as [-> | (call & Hget & [-> | ->])]; [reflexivity| |];
      now apply map_set_keeps_monitor with (call := call).
Qed.

Lemma perform_all_keeps_monitors actions w k :
  monitor <$> Server.map_get k (callLogsMap (perform_all actions w))
  = monitor <$> Server.map_get k (callLogsMap w).
Proof.
  unfold perform_all. revert w.
  induction actions as [|action actions IH]; intros w; simpl; [reflexivity|].
  now rewrite IH, perform_keeps_monitors.
Qed.

(** C1 (as the code has it).  The control actions never touch a control
    handle: in the Map-registry and in the array-registry version of
    [server.js] alike, after any sequence of answer, reject and end requests,
    whatever the provider and the database answer, every record of the
    registry has the [monitor] it had before, so a populated control handle
    stays populated.  An outbound start and a delivery to
    [POST /webhook/inbound] merge nothing: each stores a whole new record
    under the call id.  After a start the record has the [monitor] of the
    provider's response; after a delivery, on a server that exports
    [global.callLogs], the record is built from the event alone, and when the
    event omits the monitor it has no control handle. *)
Theorem C1_control_handle w actions arrayActions user phoneNumber data payload
    callEvent now k :
  Js.truthy phoneNumber = true ->
  payload_call payload = Some callEvent ->
  let delivered :=
    callLogs (snd (InboundWebhook.post ArrayRegistry CallLogs.saveCallLog payload now w)) in
  (monitor <$> Server.map_get k (callLogsMap (perform_all actions w))
   = monitor <$> Server.map_get k (callLogsMap w) /\
   controlHandle (Server.map_get k (callLogsMap (perform_all actions w)))
   = controlHandle (Server.map_get k (callLogsMap w)) /\
   monitor <$> Server.map_get (VapiCall.id data)
                 (callLogsMap (snd (Server.startCall user phoneNumber (Placed data) now w)))
   = Some (VapiCall.monitor data)) /\
  (monitor <$> Registry.find k (callLogs (perform_all_array arrayActions w))
   = monitor <$> Registry.find k (callLogs w) /\
   controlHandle (Registry.find k (callLogs (perform_all_array arrayActions w)))
   = controlHandle (Registry.find k (callLogs w)) /\
   monitor <$> Registry.find (VapiCall.id data)
                 (callLogs (snd (ServerV2.startCall user phoneNumber (Placed data) now w)))
   = Some (VapiCall.monitor data)) /\
  Registry.find (CallEvent.id callEvent) delivered
  = Some (InboundWebhook.newCall callEvent now) /\
  (CallEvent.monitor callEvent = None ->
   controlHandle (Registry.find (CallEvent.id callEvent) delivered) = None).
Proof.
  intros Hphone Hpayload delivered.
  pose proof (perform_all_keeps_monitors actions w k) as Hkept.
  pose proof (perform_all_array_keeps_monitors arrayActions w k) as Hkept2.
  assert (Hdelivered : Registry.find (CallEvent.id callEvent) delivered
                       = Some (InboundWebhook.newCall callEvent now)).
  { unfold delivered.
    destruct (inbound_post_effect w payload callEvent now Hpayload)
      as (evs & db & fs & -> & _).
    cbn [snd callLogs].
    change (CallEvent.id callEvent) with (id (InboundWebhook.newCall callEvent now)).
    apply find_put. }
  split; [|split; [|split]].
  - split; [exact Hkept|]. split.
    + unfold controlHandle.
      destruct (Server.map_get k (callLogsMap (perform_all actions w))) as [c'|],
               (Server.map_get k (callLogsMap w)) as [c|]; simpl in Hkept;
        congruence.
    + rewrite (startCall_placed w user phoneNumber data now Hphone). cbn [snd].
      simpl. now rewrite map_get_set_same.
  - split; [exact Hkept2|]. split.
    + unfold controlHandle.
      destruct (Registry.find k (callLogs (perform_all_array arrayActions w))) as [c'|],
               (Registry.find k (callLogs w)) as [c|]; simpl in Hkept2;
        congruence.
    + unfold ServerV2.startCall. rewrite Hphone. run_v2.
      unfold Registry.find. simpl. now rewrite decide_True.
  - exact Hdelivered.
  - intros _. now rewrite Hdelivered.
Qed.

Lemma C1_control_handle_witness :
  let w := Sample.world [("c1", Sample.ongoing)] [Sample.ringing] [] in
  let ev := Sample.event "ongoing" None in
  let actions := [AnswerCall Sample.bob "c1" Delivered;
                  EndCall Sample.alice "c1" (Failed None) 9500;
                  RejectCall Sample.bob "c1" Delivered] in
  let arrayActions := [ArrayAnswer Sample.bob "c1" Delivered;
                       ArrayEnd Sample.alice "c1" Delivered 9500;
                       ArrayReject Sample.bob "c1" (Failed None) 9600] in
  controlHandle (Server.map_get "c1" (callLogsMap (perform_all actions w)))
  = Some "https://control.example/c1" /\
  controlHandle (Registry.find "c1" (callLogs (perform_all_array arrayActions w)))
  = Some "https://control.example/c1" /\
  controlHandle
    (Registry.find "c1"
       (callLogs (snd (InboundWebhook.post ArrayRegistry CallLogs.saveCallLog
                         (InboundWebhook.mkPayload None (Some ev)) 9500 w))))
  = None.
Proof.
  intros w ev actions arrayActions.
  destruct (C1_control_handle w actions arrayActions Sample.alice (Some "+15550100")
              (Sample.placed None) (InboundWebhook.mkPayload None (Some ev)) ev 9500 "c1"
              eq_refl eq_refl)
    as ((_ & Hkept & _) & (_ & Hkept2 & _) & _ & Hdelivered).
  split; [exact Hkept|]. split; [exact Hkept2|]. exact (Hdelivered eq_refl).
Defined.

(** C1, counterexample to the specification as written: an outbound start
    stores the control handle of the provider's response; a delivery to
    [POST /webhook/inbound] for the same call, whose event omits the monitor,
    leaves the record of the call without a control handle. *)
Lemma C1_inbound_delivery_resets_control_handle :
  let w0 := Sample.world [] [] [] in
  let w1 := snd (ServerV2.startCall Sample.alice (Some "+15550100")
                   (Placed Sample.monitored) 2000 w0) in
  let ev := Sample.event "ongoing" None in
  let w2 := snd (InboundWebhook.post ArrayRegistry CallLogs.saveCallLog
                   (InboundWebhook.mkPayload None (Some ev)) 3000 w1) in
  controlHandle (Registry.find "c1" (callLogs w1)) = Some "https://control.example/c1" /\
  CallEvent.monitor ev = None /\
  (exists call, Registry.find "c1" (callLogs w2) = Some call) /\
  controlHandle (Registry.find "c1" (callLogs w2)) = None.
Proof.
  split; [reflexivity|]. split; [reflexivity|]. split; [|reflexivity].
  eexists. vm_compute. reflexivity.
Qed.

(** ** C9: the webhooks acknowledge whatever persistence does *)

Lemma try_catch_swallows (c : M unit) w :
  exists w', try_catch c (fun _ => ret tt) w = (Ok tt, w').
Proof.
  unfold try_catch, ret. destruct (c w) as [[[]|e] w']; eauto.
Qed.

Lemma processCheckout_returns nextMonth event session now w :
  SignedEvent.data_object event = Some session ->
  exists w', SignedWebhook.processCheckout nextMonth event now w = (Ok tt, w').
Proof.
  intros H. unfold SignedWebhook.processCheckout. rewrite H.
  apply try_catch_swallows.
Qed.

Lemma processCall_returns saveCallLog event callEvent t now w :
  SignedEvent.data_object event = Some callEvent ->
  DataObject.type callEvent = Some t ->
  exists w', SignedWebhook.processCall saveCallLog event now w = (Ok tt, w').
Proof.
  intros H Ht. unfold SignedWebhook.processCall. rewrite H, Ht. unfold bind at 1.
  destruct (Js.truthy (customer_number (DataObject.customer callEvent))).
  - unfold try_catch at 1.
    destruct (bind _ _ w) as [[userEmail|e] w1]; unfold ret; apply try_catch_swallows.
  - unfold ret. apply try_catch_swallows.
Qed.

(** The signed webhook acknowledges an event it can read, whatever the saves
    do. *)
Lemma signed_webhook_acknowledges secret constructEvent nextMonth saveCallLog
    sig rawBody event now w :
  secret <> EmptyString ->
  Js.truthy sig = true ->
  constructEvent rawBody (default EmptyString sig) secret = inr event ->
  readable event = true ->
  fst (SignedWebhook.post (Some secret) constructEvent nextMonth saveCallLog
         sig rawBody now w)
  = Ok (mkResponse 200 ReceivedJson).
Proof.
  intros Hsecret Hsig Hevent Hread.
  unfold SignedWebhook.post. rewrite (truthy_nonempty _ Hsecret), Hsig, Hevent.
  cbn [negb]. unfold readable in Hread. unfold bind at 1.
  destruct (SignedWebhook.type_is (SignedWebhook.eventType event)
              "checkout.session.completed") eqn:Hcheckout.
  - destruct (SignedEvent.data_object event) as [session|] eqn:Hobj; [|discriminate].
    destruct (processCheckout_returns nextMonth event session now w Hobj) as (w1 & ->).
    unfold bind at 1.
    destruct (SignedWebhook.type_is (SignedWebhook.eventType event)
                "call.inbound.completed") eqn:Hcall.
    + exfalso. unfold SignedWebhook.type_is in *.
      destruct (SignedWebhook.eventType event) as [s|]; [|discriminate].
      apply String.eqb_eq in Hcheckout, Hcall. congruence.
    + reflexivity.
  - unfold ret at 1. unfold bind at 1.
    destruct (SignedWebhook.type_is (SignedWebhook.eventType event)
                "call.inbound.completed") eqn:Hcall; [|reflexivity].
    destruct (SignedEvent.data_object event) as [o|] eqn:Hobj; [|discriminate].
    destruct (DataObject.type o) as [t|] eqn:Ht; [|discriminate].
    destruct (processCall_returns saveCallLog event o t now w Hobj Ht) as (w1 & ->).
    reflexivity.
Qed.

(** A verified event without the properties the handler dereferences outside
    its try blocks makes the handler throw. *)
Lemma signed_webhook_throws secret constructEvent nextMonth saveCallLog
    sig rawBody event now w :
  secret <> EmptyString ->
  Js.truthy sig = true ->
  constructEvent rawBody (default EmptyString sig) secret = inr event ->
  readable event = false ->
  fst (SignedWebhook.post (Some secret) constructEvent nextMonth saveCallLog
         sig rawBody now w)
  = Throw (TypeError "Cannot read properties of undefined").
Proof.
  intros Hsecret Hsig Hevent Hread.
  unfold SignedWebhook.post. rewrite (truthy_nonempty _ Hsecret), Hsig, Hevent.
  cbn [negb]. unfold readable in Hread. unfold bind at 1.
  destruct (SignedWebhook.type_is (SignedWebhook.eventType event)
              "checkout.session.completed") eqn:Hcheckout.
  - destruct (SignedEvent.data_object event) as [session|] eqn:Hobj; [discriminate|].
    unfold SignedWebhook.processCheckout, throw. now rewrite Hobj.
  - unfold ret at 1. unfold bind at 1.
    destruct (SignedWebhook.type_is (SignedWebhook.eventType event)
                "call.inbound.completed") eqn:Hcall; [|discriminate].
    unfold SignedWebhook.processCall.
    destruct (SignedEvent.data_object event) as [o|] eqn:Hobj; [|reflexivity].
    destruct (DataObject.type o) as [t|] eqn:Ht; [discriminate|].
    unfold bind at 1.
    destruct (Js.truthy (customer_number (DataObject.customer o))).
    + unfold try_catch, bind, ret, throw.
      match goal with
      | |- context [pool_execute ?q w] =>
          destruct (pool_execute_cases q w) as [(fs & Hf & ->) | ->]
      end; reflexivity.
    + reflexivity.
Qed.

(** On an array-registry server the inbound-webhook route acknowledges every
    payload with a call, for every [saveCallLog]. *)
Lemma inbound_webhook_acknowledges saveCallLog payload callEvent now w :
  payload_call payload = Some callEvent ->
  fst (InboundWebhook.post ArrayRegistry saveCallLog payload now w)
  = Ok (mkResponse 200 ReceivedJson).
Proof.
  intros Hpayload.
  unfold payload_call in Hpayload. unfold InboundWebhook.post. rewrite Hpayload.
  unfold bind, Registry.store, Registry.updateActiveCalls, Registry.notifyClients,
    io_emit.
  match goal with
  | |- context [try_catch ?c ?h ?w1] =>
      destruct (try_catch_swallows c w1) as (w2 & ->)
  end.
  reflexivity.
Qed.

(** C9 (where the code departs from it).  Take [POST /webhook] with the
    secret configured, a signature header and a payload that [constructEvent]
    accepts, and [POST /webhook/inbound] with a payload that carries a call
    object.  On a server that exports [global.callLogs] the inbound route
    answers 200 [{received: true}], and the signed webhook answers the same
    when the event carries the properties the handler reads, in every state
    of the database and for every [saveCallLog]: a save that throws does not
    change the response.  On the Map-registry server, which mounts the same
    inbound route and exports no [global.callLogs], the route throws before
    it sends a response and changes nothing; the signed webhook throws on a
    verified event that lacks [data.object], or [type] on its call object. *)
Theorem C9_webhook_responses secret constructEvent nextMonth saveCallLog
    sig rawBody event payload callEvent now w :
  secret <> EmptyString ->
  Js.truthy sig = true ->
  constructEvent rawBody (default EmptyString sig) secret = inr event ->
  payload_call payload = Some callEvent ->
  let signed :=
    SignedWebhook.post (Some secret) constructEvent nextMonth saveCallLog
      sig rawBody now w in
  (readable event = true -> fst signed = Ok (mkResponse 200 ReceivedJson)) /\
  (readable event = false ->
   fst signed = Throw (TypeError "Cannot read properties of undefined")) /\
  fst (InboundWebhook.post ArrayRegistry saveCallLog payload now w)
  = Ok (mkResponse 200 ReceivedJson) /\
  InboundWebhook.post MapRegistry saveCallLog payload now w
  = (Throw (TypeError "Cannot read properties of undefined (reading 'findIndex')"), w).
Proof.
  intros Hsecret Hsig Hevent Hpayload signed.
  split; [|split; [|split]].
  - now apply signed_webhook_acknowledges.
  - now apply signed_webhook_throws.
  - now apply inbound_webhook_acknowledges with (callEvent := callEvent).
  - now apply inbound_post_map_registry with (callEvent := callEvent).
Qed.

Lemma C9_webhook_responses_witness :
  let w := Sample.world [("c1", Sample.ongoing)] [] [true; true; true] in
  let ev := Sample.event "ended" None in
  let payload := InboundWebhook.mkPayload None (Some ev) in
  fst (Subscriptions.saveSubscriptionToDb
         (SignedWebhook.subscriptionData (fun t => (t + 2592000000)%Z)
            Sample.checkout
            (DataObject.mk "alice@example.com" "sub_1" (Some 4900%Z) (Some "pro")
               "cs_1" None None "complete" None None None) 7000) w)
  = Throw (DbError (SelectSubscriptionByEventId (Some "evt_1"))) /\
  fst (CallLogsV1.saveCallLog (InboundWebhook.callData ev 7000) w)
  = Throw (DbError (UpdateCallLogs (InboundWebhook.callData ev 7000))) /\
  fst (SignedWebhook.post (Some "whsec_1") Sample.constructEvent
         (fun t => (t + 2592000000)%Z) CallLogsV1.saveCallLog
         (Some "t=1,v1=ok") "{}" 7000 w)
  = Ok (mkResponse 200 ReceivedJson) /\
  fst (InboundWebhook.post ArrayRegistry CallLogsV1.saveCallLog payload 7000 w)
  = Ok (mkResponse 200 ReceivedJson) /\
  InboundWebhook.post MapRegistry CallLogsV1.saveCallLog payload 7000 w
  = (Throw (TypeError "Cannot read properties of undefined (reading 'findIndex')"), w).
Proof.
  intros w ev payload. split; [reflexivity|]. split; [reflexivity|].
  assert (Hsecret : "whsec_1" <> EmptyString) by discriminate.
  destruct (C9_webhook_responses "whsec_1" Sample.constructEvent
              (fun t => (t + 2592000000)%Z) CallLogsV1.saveCallLog
              (Some "t=1,v1=ok") "{}" Sample.checkout payload ev 7000 w
              Hsecret eq_refl eq_refl eq_refl)
    as (Hsigned & _ & Hinbound & Hmap).
  split; [exact (Hsigned eq_refl)|]. split; [exact Hinbound | exact Hmap].
Defined.

(** ** C10: what is broadcast after a mutation *)

(** [updateActiveCalls] publishes the number of ongoing records of the
    registry at that moment, and keeps it in [activeCalls]. *)
Lemma updateActiveCalls_counts w :
  Server.updateActiveCalls w
  = (Ok tt,
     log_event
       (Emitted (ActiveCalls
                   (length (List.filter Server.is_ongoing
                              (Server.map_values (callLogsMap w))))))
       (set_activeCalls
          (length (List.filter Server.is_ongoing (Server.map_values (callLogsMap w)))) w)).
Proof. reflexivity. Qed.







(** ** An invariant of the registry of [server.js] *)

Lemma registry_ok_get m k call :
  registry_ok m -> Server.map_get k m = Some call ->
  id call = k /\ is_Some (startTime call).
Proof.
  unfold registry_ok. induction m as [|[k' v] rest IH]; simpl; [discriminate|].
  intros Hok Hget. apply Forall_cons in Hok as [[Hkey Hstart] Hok].
  destruct (String.eqb k' k) eqn:E.
  - injection Hget as <-. apply String.eqb_eq in E. simpl in Hkey, Hstart.
    split; [congruence | exact Hstart].
  - now apply IH.
Qed.

Lemma registry_ok_set m k v :
  registry_ok m -> k = id v -> is_Some (startTime v) ->
  registry_ok (Server.map_set k v m).
Proof.
  unfold registry_ok. intros Hok Hk Hv.
  induction m as [|[k' v'] rest IH]; simpl.
  - repeat constructor; assumption.
  - apply Forall_cons in Hok as [Hhead Hok].
    destruct (String.eqb k' k); constructor; auto.
Qed.

Lemma registry_ok_started m :
  registry_ok m -> Forall (fun c => is_Some (startTime c)) (Server.map_values m).
Proof.
  unfold registry_ok, Server.map_values. intros H.
  apply Forall_fmap. eapply Forall_impl; [exact H|]. now intros [k c] [_ Hc].
Qed.

(** Every handler of [server.js] keeps the invariant, for every request and
    every answer of the provider and of the database. *)
Lemma handlers_keep_registry_ok w user callId phoneNumber vapi axios now :
  registry_ok (callLogsMap w) ->
  registry_ok (callLogsMap (snd (Server.getCalls user w))) /\
  registry_ok (callLogsMap (snd (Server.startCall user phoneNumber vapi now w))) /\
  registry_ok (callLogsMap (snd (Server.answerCall user callId axios w))) /\
  registry_ok (callLogsMap (snd (Server.rejectCall user callId axios w))) /\
  registry_ok (callLogsMap (snd (Server.endCall user callId axios now w))).
Proof.
  intros Hok. repeat split.
  - unfold Server.getCalls. now destruct (Server.isAdmin user).
  - unfold Server.startCall.
    destruct (negb (Js.truthy phoneNumber)); [exact Hok|].
    destruct vapi as [data | message]; [|exact Hok].
    simpl. apply registry_ok_set; [exact Hok | reflexivity | eexists; reflexivity].
  - destruct (answerCall_registry w user callId axios) as [-> | (call & Hget & ->)];
      [exact Hok|].
    destruct (registry_ok_get _ _ _ Hok Hget) as [Hid Hstart].
    apply registry_ok_set; [exact Hok | now rewrite <- Hid | exact Hstart].
  - destruct (rejectCall_registry w user callId axios) as [-> | (call & Hget & ->)];
      [exact Hok|].
    destruct (registry_ok_get _ _ _ Hok Hget) as [Hid Hstart].
    apply registry_ok_set; [exact Hok | now rewrite <- Hid | exact Hstart].
  - destruct (endCall_registry w user callId axios now)
      as [-> | (call & Hget & [-> | ->])]; [exact Hok| |];
      destruct (registry_ok_get _ _ _ Hok Hget) as [Hid Hstart];
      (apply registry_ok_set; [exact Hok | now rewrite <- Hid | exact Hstart]).
Qed.

(** In such a registry a record found under the id of a route, which is never
    empty, has a non-empty id. *)
Lemma found_id_nonempty m callId call :
  registry_ok m -> callId <> EmptyString ->
  Server.map_get callId m = Some call -> id call <> EmptyString.
Proof.
  intros Hok Hne Hget. destruct (registry_ok_get _ _ _ Hok Hget) as [-> _]. exact Hne.
Qed.

(** ** The registry across requests *)

(** The two admin tests of [server.js], [(role || 'user').toLowerCase()] and
    [role && role.toLowerCase()], agree. *)
Lemma admin_tests_agree user : Api.hasAdminRole user = Server.isAdmin user.
Proof.
  unfold Api.hasAdminRole, Server.isAdmin, Server.userRole, Js.or_str, Js.truthy.
  destruct (role user) as [r|]; [|reflexivity].
  destruct (String.eqb r EmptyString) eqn:E; simpl; [|reflexivity].
  apply String.eqb_eq in E. now subst r.
Qed.

Lemma map_get_keys k m :
  is_Some (Server.map_get k m) <-> k ∈ map fst m.
Proof.
  induction m as [|[k' v] rest IH]; simpl.
  - split; [intros [? [=]] | intros H; inversion H].
  - destruct (String.eqb k' k) eqn:E.
    + apply String.eqb_eq in E. subst k'. split; [intros _; left | eauto].
    + apply String.eqb_neq in E. rewrite IH. split.
      * intros H. now right.
      * intros H. inversion H; subst; [congruence | assumption].
Qed.

Lemma map_get_entry k c m :
  NoDup (map fst m) -> (k, c) ∈ m -> Server.map_get k m = Some c.
Proof.
  induction m as [|[k' v] rest IH]; simpl; intros Hnd Hin; [inversion Hin|].
  apply NoDup_cons in Hnd as [Hfresh Hnd].
  apply elem_of_cons in Hin as [[= <- <-] | Hin].
  - now rewrite String.eqb_refl.
  - destruct (String.eqb k' k) eqn:E; [|now apply IH].
    apply String.eqb_eq in E. subst k'. exfalso. apply Hfresh.
    apply list_elem_of_fmap. now exists (k, c).
Qed.

Lemma map_set_keys k v m :
  map fst (Server.map_set k v m)
  = if decide (k ∈ map fst m) then map fst m else (map fst m ++ [k])%list.
Proof.
  induction m as [|[k' v'] rest IH]; simpl.
  - destruct (decide (k ∈ [])) as [H|_]; [inversion H | reflexivity].
  - destruct (String.eqb k' k) eqn:E; simpl.
    + apply String.eqb_eq in E. subst k'.
      destruct (decide (k ∈ k :: map fst rest)) as [_|H]; [reflexivity|].
      exfalso. apply H. left.
    + apply String.eqb_neq in E. rewrite IH.
      destruct (decide (k ∈ map fst rest)) as [H|H];
        destruct (decide (k ∈ k' :: map fst rest)) as [H'|H']; try reflexivity.
      * exfalso. apply H'. now right.
      * exfalso. apply H. inversion H'; subst; [congruence | assumption].
Qed.

Lemma map_set_NoDup k v m :
  NoDup (map fst m) -> NoDup (map fst (Server.map_set k v m)).
Proof.
  intros Hnd. rewrite map_set_keys.
  destruct (decide (k ∈ map fst m)) as [H|H]; [exact Hnd|].
  apply NoDup_app. split; [exact Hnd|]. split.
  - intros x Hx Hk. apply list_elem_of_singleton in Hk. now subst x.
  - apply NoDup_singleton.
Qed.

Lemma map_set_present k v c m :
  Server.map_get k m = Some c -> map fst (Server.map_set k v m) = map fst m.
Proof.
  intros Hget. rewrite map_set_keys.
  destruct (decide (k ∈ map fst m)) as [H|H]; [reflexivity|].
  exfalso. apply H, map_get_keys. now exists c.
Qed.

(** What one request does to the registry. *)
Lemma serve_registry w request :
  let m := callLogsMap w in
  let m' := callLogsMap (Api.serve w request) in
  m' = m \/
  exists k c', Api.target request = Some k /\ m' = Server.map_set k c' m /\
    k = id c' /\ is_Some (startTime c') \/
    exists c, Api.target request = Some k /\ Server.map_get k m = Some c /\
      m' = Server.map_set k c' m /\
      (c' = set_status "answering" c \/ c' = set_status "rejecting" c \/
       c' = set_status "ending" c \/
       c' = complete_locally (Server.elapsed_seconds c (Api.at_time request))
              (Api.at_time request) c).
Proof.
  destruct request as [[user|] r now]; unfold Api.serve, Api.handle, Api.target; simpl;
    [|now left].
  destruct r as [| callId | phoneNumber vapi | callId axios | callId axios | callId axios].
  - left. unfold Server.getCalls. now destruct (Server.isAdmin user).
  - left. unfold Api.getCall.
    destruct (Server.map_get callId (callLogsMap w)) as [c|]; [|reflexivity].
    now destruct (String.eqb (user_email c) (email user) || Api.hasAdminRole user).
  - unfold Server.startCall.
    destruct (Js.truthy phoneNumber); simpl; [|now left; destruct vapi].
    destruct vapi as [data | message]; [|now left].
    right. exists (VapiCall.id data), (Server.newCall (email user) data now).
    left. repeat split. eexists; reflexivity.
  - destruct (answerCall_registry w user callId axios) as [-> | (c & Hget & ->)];
      [now left|].
    right. exists callId, (set_status "answering" c). right. exists c. auto.
  - destruct (rejectCall_registry w user callId axios) as [-> | (c & Hget & ->)];
      [now left|].
    right. exists callId, (set_status "rejecting" c). right. exists c. auto 6.
  - destruct (endCall_registry w user callId axios now)
      as [-> | (c & Hget & [-> | ->])]; [now left | |].
    + right. exists callId, (set_status "ending" c). right. exists c. auto 7.
    + right. eexists callId, _. right. exists c. auto 8.
Qed.

Lemma serve_keeps_invariant w request :
  registry_ok (callLogsMap w) /\ NoDup (map fst (callLogsMap w)) ->
  registry_ok (callLogsMap (Api.serve w request)) /\
  NoDup (map fst (callLogsMap (Api.serve w request))).
Proof.
  intros [Hok Hnd].
  destruct (serve_registry w request)
    as [-> | (k & c' & [(_ & -> & Hk & Hs) | (c & _ & Hget & -> & Hc)])];
    [now split | split; [now apply registry_ok_set | now apply map_set_NoDup] |].
  destruct (registry_ok_get _ _ _ Hok Hget) as [Hid Hstart].
  split; [|now apply map_set_NoDup].
  apply registry_ok_set; [exact Hok | |];
    destruct Hc as [-> | [-> | [-> | ->]]]; simpl; auto.
Qed.

(** X1.  From an empty registry, whatever requests the call routes of
    [server.js] receive (logged in or not, whatever the provider and the
    database answer), every record is stored under its own id, has a start
    time, and no id is stored twice. *)
Theorem X1_registry_invariant requests w :
  callLogsMap w = [] ->
  registry_ok (callLogsMap (Api.serve_all requests w)) /\
  NoDup (map fst (callLogsMap (Api.serve_all requests w))).
Proof.
  intros Hempty.
  assert (Hinit : registry_ok (callLogsMap w) /\ NoDup (map fst (callLogsMap w))).
  { rewrite Hempty. split; [apply Forall_nil_2 | apply NoDup_nil_2]. }
  clear Hempty. revert w Hinit. unfold Api.serve_all.
  induction requests as [|request requests IH]; intros w Hinit; simpl; [exact Hinit|].
  apply IH, serve_keeps_invariant, Hinit.
Qed.

Lemma X1_registry_invariant_witness :
  let requests :=
    [Api.mkRequest (Some Sample.alice)
       (Api.StartCall (Some "+15550100") (Placed (Sample.placed None))) 5000;
     Api.mkRequest None (Api.Finish "c1" Delivered) 6000;
     Api.mkRequest (Some Sample.alice) (Api.Finish "c1" Delivered) 9500;
     Api.mkRequest (Some Sample.bob)
       (Api.StartCall (Some "+15550101") (Placed (Sample.placed (Some "ringing")))) 9900] in
  let w := Api.serve_all requests (Sample.world [] [] []) in
  map fst (callLogsMap w) = ["c1"] /\
  registry_ok (callLogsMap w) /\ NoDup (map fst (callLogsMap w)).
Proof.
  split; [reflexivity|].
  apply (X1_registry_invariant _ (Sample.world [] [] [])). reflexivity.
Defined.

(** X2.  [GET /api/calls/:id] and [GET /api/calls] agree on what a user may
    see: in a registry that stores every record once, under its own id, a
    record is in the user's listing exactly when the single-record route
    answers 200 with it for its id. *)
Theorem X2_show_agrees_with_list w user c :
  registry_ok (callLogsMap w) ->
  NoDup (map fst (callLogsMap w)) ->
  (exists calls,
     Server.getCalls user w = (Ok (mkResponse 200 (CallsJson calls)), w) /\ c ∈ calls)
  <-> Api.getCall user (id c) w = (Ok (mkResponse 200 (CallJson c)), w).
Proof.
  intros Hok Hnd.
  destruct (getCalls_lists w user) as (calls0 & Hlist & Hmem & _).
  unfold Api.getCall, respond, ret. rewrite admin_tests_agree. split.
  - intros (calls & Hcalls & Hin). rewrite Hlist in Hcalls.
    injection Hcalls as <-. apply Hmem in Hin as [Hval Hmay].
    apply list_elem_of_fmap in Hval as ([k c0] & Hc & Hentry). simpl in Hc. subst c0.
    assert (Hk : k = id c).
    { unfold registry_ok in Hok. rewrite Forall_forall in Hok.
      now destruct (Hok _ Hentry) as [Hk _]. }
    subst k. rewrite (map_get_entry _ _ _ Hnd Hentry).
    destruct Hmay as [-> | ->]; [now rewrite orb_true_r | now rewrite String.eqb_refl].
  - destruct (Server.map_get (id c) (callLogsMap w)) as [c0|] eqn:Hget; [|discriminate].
    destruct (String.eqb (user_email c0) (email user) || Server.isAdmin user) eqn:Hmay;
      [|discriminate].
    intros [= ->]. exists calls0. split; [exact Hlist|]. apply Hmem. split.
    + eapply map_get_elem, Hget.
    + apply orb_true_iff in Hmay as [Hown | Hadmin]; [right | now left].
      now apply String.eqb_eq.
Qed.

Lemma X2_show_agrees_with_list_witness :
  let w := Sample.world [("c1", Sample.ongoing)] [] [] in
  (exists calls,
     Server.getCalls Sample.alice w = (Ok (mkResponse 200 (CallsJson calls)), w) /\
     Sample.ongoing ∈ calls)
  <-> Api.getCall Sample.alice "c1" w = (Ok (mkResponse 200 (CallJson Sample.ongoing)), w).
Proof.
  apply (X2_show_agrees_with_list (Sample.world [("c1", Sample.ongoing)] [] [])
           Sample.alice Sample.ongoing).
  - repeat constructor. simpl. eexists; reflexivity.
  - simpl. apply NoDup_singleton.
Defined.

(** X3.  A request changes at most the record of the call id it addresses:
    the record found under any other id is the same before and after, for
    every route, session and answer of the provider and the database. *)
Theorem X3_request_frame w request k :
  Api.target request <> Some k ->
  Server.map_get k (callLogsMap (Api.serve w request)) = Server.map_get k (callLogsMap w).
Proof.
  intros Hother.
  destruct (serve_registry w request)
    as [-> | (k0 & c' & [(Ht & -> & _) | (c & Ht & _ & -> & _)])]; [reflexivity | |];
    apply map_get_set_other; congruence.
Qed.

Lemma X3_request_frame_witness :
  let w := Sample.world [("c1", Sample.ongoing); ("c2", Sample.ringing)] [] [] in
  let request := Api.mkRequest (Some Sample.alice) (Api.Finish "c1" (Failed None)) 9500 in
  Server.map_get "c2" (callLogsMap (Api.serve w request)) = Some Sample.ringing.
Proof.
  apply (X3_request_frame
           (Sample.world [("c1", Sample.ongoing); ("c2", Sample.ringing)] [] [])
           (Api.mkRequest (Some Sample.alice) (Api.Finish "c1" (Failed None)) 9500) "c2").
  simpl. discriminate.
Defined.

Lemma serve_keys w request :
  map fst (callLogsMap w) `prefix_of` map fst (callLogsMap (Api.serve w request)).
Proof.
  destruct (serve_registry w request)
    as [-> | (k0 & c' & [(_ & -> & _) | (c & _ & _ & -> & _)])]; [reflexivity | |];
    rewrite map_set_keys; destruct (decide (k0 ∈ map fst (callLogsMap w)));
    try reflexivity; now apply prefix_app_r.
Qed.

(** X4.  No route of [server.js] removes a record or moves it: over any
    sequence of requests the ids of the registry, in the iteration order of
    the Map, only grow at the end, so a record once stored is found under its
    id ever after. *)
Theorem X4_records_stay requests w :
  map fst (callLogsMap w) `prefix_of` map fst (callLogsMap (Api.serve_all requests w)) /\
  forall k, is_Some (Server.map_get k (callLogsMap w)) ->
            is_Some (Server.map_get k (callLogsMap (Api.serve_all requests w))).
Proof.
  assert (Hprefix : map fst (callLogsMap w)
                    `prefix_of` map fst (callLogsMap (Api.serve_all requests w))).
  { unfold Api.serve_all. revert w.
    induction requests as [|request requests IH]; intros w; simpl; [reflexivity|].
    etransitivity; [apply serve_keys | apply IH]. }
  split; [exact Hprefix|].
  intros k Hk. apply map_get_keys. apply map_get_keys in Hk.
  destruct Hprefix as [more ->]. apply elem_of_app. now left.
Qed.

(** ** The life of a record under the control actions *)

(** One control action: the record under an id stays as it is, or moves from
    ringing to answering or rejecting, or from a non-terminal state to ending
    or completed. *)
Lemma perform_step w action k c :
  Server.map_get k (callLogsMap w) = Some c ->
  exists c',
    Server.map_get k (callLogsMap (perform w action)) = Some c' /\
    (c' = c \/
     (status c = "ringing" /\ direction c = "inbound" /\
      Js.truthy (monitor_controlUrl (monitor c)) = true /\
      (c' = set_status "answering" c \/ c' = set_status "rejecting" c)) \/
     (~ terminal (status c) /\
      (Js.truthy (monitor_controlUrl (monitor c)) = true /\ c' = set_status "ending" c \/
       exists now, c' = complete_locally (Server.elapsed_seconds c now) now c))).
Proof.
  intros Hget.
  destruct action as [user callId axios | user callId axios | user callId axios now];
    simpl.
  - destruct (decide (k = callId)) as [-> | Hne].
    + unfold Server.answerCall. run_handler. rewrite Hget.
      destruct (String.eqb (direction c) "inbound") eqn:Hdir; simpl; [|eauto].
      destruct (String.eqb (status c) "ringing") eqn:Hst; simpl; [|eauto].
      destruct (Js.truthy (monitor_controlUrl (monitor c))) eqn:Hurl; simpl; [|eauto].
      destruct axios; simpl; [|eauto].
      apply String.eqb_eq in Hdir, Hst. rewrite map_get_set_same.
      eexists; split; [reflexivity|]. right. left. auto.
    + exists c. split; [|now left].
      destruct (answerCall_registry w user callId axios) as [-> | (c0 & _ & ->)];
        [exact Hget | now rewrite map_get_set_other].
  - destruct (decide (k = callId)) as [-> | Hne].
    + unfold Server.rejectCall. run_handler. rewrite Hget.
      destruct (String.eqb (direction c) "inbound") eqn:Hdir; simpl; [|eauto].
      destruct (String.eqb (status c) "ringing") eqn:Hst; simpl; [|eauto].
      destruct (Js.truthy (monitor_controlUrl (monitor c))) eqn:Hurl; simpl; [|eauto].
      destruct axios; simpl; [|eauto].
      apply String.eqb_eq in Hdir, Hst. rewrite map_get_set_same.
      eexists; split; [reflexivity|]. right. left. auto.
    + exists c. split; [|now left].
      destruct (rejectCall_registry w user callId axios) as [-> | (c0 & _ & ->)];
        [exact Hget | now rewrite map_get_set_other].
  - destruct (decide (k = callId)) as [-> | Hne].
    + unfold Server.endCall, try_catch, bind, Server.registry_get. rewrite Hget.
      destruct (negb (String.eqb (user_email c) (email user)) && negb (Server.isAdmin user));
        [simpl; eauto|].
      destruct (String.eqb (status c) "completed" || String.eqb (status c) "ended")
        eqn:Hterm; [simpl; eauto|].
      assert (Hlive : ~ terminal (status c)).
      { apply orb_false_iff in Hterm as [H1 H2].
        apply String.eqb_neq in H1, H2. now intros [H | H]. }
      destruct (endLocally_effect w user callId c now) as (evs & db & fs & E & _).
      destruct (Js.truthy (monitor_controlUrl (monitor c))) eqn:Hurl; [destruct axios|].
      * simpl. rewrite map_get_set_same. eexists; split; [reflexivity|].
        right. right. split; [exact Hlive|]. now left.
      * rewrite E. simpl. rewrite map_get_set_same. eexists; split; [reflexivity|].
        right. right. split; [exact Hlive|]. right. now exists now.
      * rewrite E. simpl. rewrite map_get_set_same. eexists; split; [reflexivity|].
        right. right. split; [exact Hlive|]. right. now exists now.
    + exists c. split; [|now left].
      destruct (endCall_registry w user callId axios now)
        as [-> | (c0 & _ & [-> | ->])];
        [exact Hget | now rewrite map_get_set_other | now rewrite map_get_set_other].
Qed.

(** X5.  The control actions never change whose call a record is or when it
    started, and never touch a finished call: after any sequence of answer,
    reject and end requests a record has the id, owner, direction, start
    time, caller and customer it had, and a record that was completed or
    ended is the same record. *)
Theorem X5_control_actions_keep_identity actions w k c :
  Server.map_get k (callLogsMap w) = Some c ->
  exists c',
    Server.map_get k (callLogsMap (perform_all actions w)) = Some c' /\
    id c' = id c /\ user_email c' = user_email c /\ direction c' = direction c /\
    startTime c' = startTime c /\ from c' = from c /\ customer c' = customer c /\
    (terminal (status c) -> c' = c).
Proof.
  unfold perform_all. revert w c.
  induction actions as [|action actions IH]; intros w c Hget; simpl.
  - exists c. repeat split; auto.
  - destruct (perform_step w action k c Hget) as (c1 & Hget1 & Hstep).
    destruct (IH _ _ Hget1) as (c' & Hget' & Hid & Hown & Hdir & Hstart & Hfrom & Hcust & Hterm).
    exists c'. split; [exact Hget'|].
    destruct Hstep as [-> | [(Hring & _ & _ & Hc1) | (Hlive & Hc1)]].
    + repeat split; auto.
    + assert (Hlive : ~ terminal (status c)).
      { rewrite Hring. intros [H | H]; discriminate. }
      destruct Hc1 as [-> | ->]; simpl in *; repeat split; auto; intros; contradiction.
    + destruct Hc1 as [[_ ->] | [now ->]]; simpl in *; repeat split; auto;
        intros; contradiction.
Qed.

Lemma X5_control_actions_keep_identity_witness :
  let w := Sample.world [("c1", Sample.ended)] [] [] in
  let actions := [AnswerCall Sample.bob "c1" Delivered;
                  EndCall Sample.alice "c1" (Failed None) 9500;
                  RejectCall Sample.root "c1" Delivered] in
  Server.map_get "c1" (callLogsMap (perform_all actions w)) = Some Sample.ended.
Proof.
  cbv zeta.
  destruct (X5_control_actions_keep_identity
              [AnswerCall Sample.bob "c1" Delivered;
               EndCall Sample.alice "c1" (Failed None) 9500;
               RejectCall Sample.root "c1" Delivered]
              (Sample.world [("c1", Sample.ended)] [] []) "c1" Sample.ended)
    as (c' & Hget & _ & _ & _ & _ & _ & _ & Hterm); [reflexivity|].
  rewrite Hget. f_equal. apply Hterm. right. reflexivity.
Defined.

(** X6.  The status transitions of the control actions.  One answer, reject
    or end request leaves the status of a record as it is, or takes it from
    ringing (inbound, with a control URL) to answering or rejecting, or from
    a status other than completed and ended to ending (with a control URL)
    or to completed; no control action makes a call ongoing or ringing. *)
Theorem X6_status_transitions w action k c :
  Server.map_get k (callLogsMap w) = Some c ->
  exists c',
    Server.map_get k (callLogsMap (perform w action)) = Some c' /\
    (status c' = status c \/
     (status c = "ringing" /\ direction c = "inbound" /\
      Js.truthy (controlHandle (Some c)) = true /\
      (status c' = "answering" \/ status c' = "rejecting")) \/
     (~ terminal (status c) /\
      (Js.truthy (controlHandle (Some c)) = true /\ status c' = "ending" \/
       status c' = "completed"))) /\
    (status c' = "ongoing" -> status c = "ongoing") /\
    (status c' = "ringing" -> status c = "ringing").
Proof.
  intros Hget. destruct (perform_step w action k c Hget) as (c' & Hget' & Hstep).
  exists c'. split; [exact Hget'|]. simpl.
  destruct Hstep as [-> | [(Hring & Hdir & Hurl & [-> | ->]) | (Hlive & [[Hurl ->] | [now ->]])]];
    simpl; (split; [|split; intros; congruence || discriminate]); auto 8.
Qed.

Lemma X6_status_transitions_witness :
  let w := Sample.world [("c1", Sample.ringing)] [] [] in
  exists c',
    Server.map_get "c1" (callLogsMap (perform w (AnswerCall Sample.bob "c1" Delivered)))
    = Some c' /\
    status c' = "answering".
Proof.
  cbv zeta.
  destruct (X6_status_transitions (Sample.world [("c1", Sample.ringing)] [] [])
              (AnswerCall Sample.bob "c1" Delivered) "c1" Sample.ringing)
    as (c' & Hget & _); [reflexivity|].
  exists c'. split; [exact Hget|].
  vm_compute in Hget. injection Hget as <-. reflexivity.
Defined.

(** X7.  The row the end action saves for a call it completes locally.
    Its start time is the start time of the record, or the time of the
    request when the record has none, cut to whole seconds; start time plus
    duration lies within the two seconds before the request; the duration is
    not negative unless the record starts in the future.  The row belongs to
    the owner of the record, or to the caller when the record has no
    owner. *)
Theorem X7_saved_row_times user call now :
  let done := complete_locally (Server.elapsed_seconds call now) now call in
  let saved := CallLogs.params (Server.fallbackCallData user done now) in
  let started := default now (startTime call) in
  CallData.start_time saved = CallLogs.startTimeForDb started /\
  (CallData.start_time saved <= started < CallData.start_time saved + 1000)%Z /\
  (CallData.start_time saved + 1000 * CallData.duration saved <= now
   < CallData.start_time saved + 1000 * CallData.duration saved + 2000)%Z /\
  ((started <= now)%Z -> (0 <= CallData.duration saved)%Z) /\
  CallData.duration saved = duration done /\
  CallData.status saved = "completed" /\
  CallData.user_email saved
  = (if String.eqb (user_email call) EmptyString then email user else user_email call).
Proof.
  simpl. unfold Server.elapsed_seconds, CallLogs.startTimeForDb.
  destruct (startTime call) as [t|]; simpl.
  - pose proof (Z.div_mod (now - t) 1000 ltac:(lia)) as Hdiv.
    pose proof (Z.mod_pos_bound (now - t) 1000 ltac:(lia)) as Hmod.
    pose proof (Z.div_mod t 1000 ltac:(lia)) as Hdiv'.
    pose proof (Z.mod_pos_bound t 1000 ltac:(lia)) as Hmod'.
    repeat split; first [reflexivity | lia].
  - rewrite Z.sub_diag. change (0 / 1000)%Z with 0%Z.
    replace (now - 0 * 1000)%Z with now by lia.
    pose proof (Z.div_mod now 1000 ltac:(lia)) as Hdiv.
    pose proof (Z.mod_pos_bound now 1000 ltac:(lia)) as Hmod.
    repeat split; first [reflexivity | lia].
Qed.

Lemma X7_saved_row_times_witness :
  let call := Sample.call "ongoing" "outbound" 1900 None in
  let done := complete_locally (Server.elapsed_seconds call 9000) 9000 call in
  let saved := CallLogs.params (Server.fallbackCallData Sample.alice done 9000) in
  CallData.start_time saved = 1000%Z /\ CallData.duration saved = 7%Z.
Proof.
  cbv zeta.
  destruct (X7_saved_row_times Sample.alice (Sample.call "ongoing" "outbound" 1900 None)
              9000) as (Hstart & _ & _ & _ & Hduration & _).
  split; [rewrite Hstart | rewrite Hduration]; reflexivity.
Defined.

(** ** [saveCallLog] over time, and the stored logs read back *)

Lemma filter_update_other k row t :
  k <> CallData.call_id row ->
  List.filter (call_id_is k) (map (update_call_log row) t) = List.filter (call_id_is k) t.
Proof.
  intros Hne. induction t as [|r t IH]; [reflexivity|].
  change (map (update_call_log row) (r :: t))
    with (update_call_log row r :: map (update_call_log row) t).
  assert (Hr : call_id_is k (update_call_log row r) = true -> update_call_log row r = r).
  { unfold update_call_log, call_id_is.
    destruct (String.eqb (CallData.call_id r) (CallData.call_id row)) eqn:E; [|reflexivity].
    simpl. intros Hk. apply String.eqb_eq in E, Hk. congruence. }
  assert (Hk : call_id_is k (update_call_log row r) = call_id_is k r).
  { unfold call_id_is. now rewrite update_call_log_key. }
  simpl. rewrite IH. destruct (call_id_is k (update_call_log row r)) eqn:E.
  - rewrite (Hr eq_refl) in *. now rewrite E.
  - now rewrite <- Hk.
Qed.

(** What one [saveCallLog] does to the world: nothing but the [call_logs]
    table can change, by the UPDATE alone or by the UPDATE and the INSERT. *)
Lemma saveCallLog_tables d w :
  let w' := snd (CallLogs.saveCallLog d w) in
  let t := call_logs (database w) in
  callLogsMap w' = callLogsMap w /\ callLogs w' = callLogs w /\
  subscriptions (database w') = subscriptions (database w) /\
  users (database w') = users (database w) /\
  (call_logs (database w') = t \/
   call_logs (database w') = map (update_call_log (CallLogs.params d)) t \/
   call_logs (database w')
   = (map (update_call_log (CallLogs.params d)) t ++ [CallLogs.params d])%list).
Proof.
  cbv zeta. unfold CallLogs.saveCallLog.
  destruct (negb (Js.truthy (Some (CallData.call_id d)))); [unfold ret; simpl; auto 6|].
  unfold try_catch, bind, ret.
  destruct (pool_execute_cases (UpdateCallLogs (CallLogs.params d)) w)
    as [(fs & Hf & ->) | ->]; [simpl; auto 6|].
  simpl.
  destruct (length (List.filter (call_id_is (CallData.call_id d)) (call_logs (database w))))
    as [|n]; simpl; [|auto 8].
  match goal with
  | |- context [pool_execute ?q ?w1] =>
      destruct (pool_execute_cases q w1) as [(fs & Hf & ->) | ->]
  end; simpl; auto 8.
Qed.

(** X8.  [saveCallLog] touches the rows of its own call id only: the rows of
    every other call id, the other tables and both registries are the same
    before and after, whatever the database answers; and a save without a
    call id changes nothing at all. *)
Theorem X8_save_frame d w k :
  let w' := snd (CallLogs.saveCallLog d w) in
  (k <> CallData.call_id d ->
   List.filter (call_id_is k) (call_logs (database w'))
   = List.filter (call_id_is k) (call_logs (database w))) /\
  subscriptions (database w') = subscriptions (database w) /\
  users (database w') = users (database w) /\
  callLogsMap w' = callLogsMap w /\ callLogs w' = callLogs w /\
  (CallData.call_id d = EmptyString -> CallLogs.saveCallLog d w = (Ok tt, w)).
Proof.
  destruct (saveCallLog_tables d w) as (Hm & Hl & Hs & Hu & Ht). cbv zeta.
  repeat split; auto.
  - intros Hne.
    assert (Hid : k <> CallData.call_id (CallLogs.params d)) by exact Hne.
    destruct Ht as [-> | [-> | ->]]; [reflexivity | now apply filter_update_other |].
    rewrite List.filter_app, filter_update_other by exact Hid. simpl.
    unfold call_id_is at 2. simpl.
    rewrite (eqb_neq_false (CallData.call_id d) k) by congruence.
    apply app_nil_r.
  - intros Hid. unfold CallLogs.saveCallLog. now rewrite Hid.
Qed.

Lemma X8_save_frame_witness :
  let w := mkWorld [] [] 0 (mkDb [Sample.callData "c1" "ongoing"] [] []) [] [] in
  let w' := snd (CallLogs.saveCallLog (Sample.callData "c2" "ended") w) in
  List.filter (call_id_is "c1") (call_logs (database w')) = [Sample.callData "c1" "ongoing"] /\
  CallLogs.saveCallLog (Sample.callData EmptyString "ended") w = (Ok tt, w).
Proof.
  cbv zeta.
  destruct (X8_save_frame (Sample.callData "c2" "ended")
              (mkWorld [] [] 0 (mkDb [Sample.callData "c1" "ongoing"] [] []) [] []) "c1")
    as (Hrows & _).
  split; [rewrite Hrows; [reflexivity | discriminate]|].
  now apply (X8_save_frame (Sample.callData EmptyString "ended")
               (mkWorld [] [] 0 (mkDb [Sample.callData "c1" "ongoing"] [] []) [] [])
               "c1").
Defined.

(** X9.  A call log that holds at most one row per call id holds at most one
    row per call id after any sequence of [saveCallLog] calls, whichever of
    their statements the database rejects; and no save removes a row. *)
Theorem X9_one_row_per_call saves w :
  (forall k, rows_for k (call_logs (database w)) <= 1)%nat ->
  forall k,
    (rows_for k (call_logs (database w))
     <= rows_for k (call_logs (database (save_all saves w))) <= 1)%nat.
Proof.
  unfold save_all. revert w.
  induction saves as [|d saves IH]; intros w Hone k; simpl.
  - specialize (Hone k). lia.
  - assert (Hstep : forall k0,
              (rows_for k0 (call_logs (database w))
               <= rows_for k0 (call_logs (database (snd (CallLogs.saveCallLog d w)))) <= 1)%nat).
    { intros k0. pose proof (saveCallLog_rows d w k0) as H. cbv zeta in H.
      specialize (Hone k0). lia. }
    specialize (IH (snd (CallLogs.saveCallLog d w)) (fun k0 => proj2 (Hstep k0)) k).
    specialize (Hstep k). lia.
Qed.

Lemma X9_one_row_per_call_witness :
  let saves := [Sample.callData "c1" "ringing"; Sample.callData "c2" "ongoing";
                Sample.callData "c1" "ended"] in
  (rows_for "c1" (call_logs (database (save_all saves (Sample.world [] [] [false; true]))))
   <= 1)%nat.
Proof.
  apply (X9_one_row_per_call
           [Sample.callData "c1" "ringing"; Sample.callData "c2" "ongoing";
            Sample.callData "c1" "ended"]
           (Sample.world [] [] [false; true])).
  intros k. unfold rows_for. simpl. lia.
Defined.

(** *** Reading *)

Lemma pool_select_cases {A} (read : Db -> A) w :
  (exists fs, faults w = true :: fs /\
     Reads.pool_select read w = (Throw Reads.rejected, set_database (database w) fs w)) \/
  answers w /\
  Reads.pool_select read w
  = (Ok (read (database w)), set_database (database w) (tail (faults w)) w).
Proof.
  unfold Reads.pool_select, answers.
  destruct (faults w) as [|[|] fs]; simpl.
  - right. split; [discriminate | reflexivity].
  - left. now exists fs.
  - right. split; [discriminate | reflexivity].
Qed.

Lemma healthy_answers w : healthy w -> answers w.
Proof.
  unfold healthy, answers. destruct (faults w) as [|b fs]; [discriminate|].
  intros H. apply Forall_cons in H as [-> _]. discriminate.
Qed.

#[local] Instance later_first_trans : Transitive Reads.later_first.
Proof. unfold Reads.later_first. intros a b c. lia. Qed.

#[local] Instance later_first_total : Total Reads.later_first.
Proof. unfold Reads.later_first. intros a b. lia. Qed.

Lemma select_call_logs_sorted userEmail d :
  StronglySorted Reads.later_first (Reads.select_call_logs userEmail d).
Proof. apply StronglySorted_merge_sort; apply _. Qed.

Lemma select_call_logs_all d : Reads.select_call_logs None d ≡ₚ call_logs d.
Proof. apply merge_sort_Permutation. Qed.

Lemma select_call_logs_of m d r :
  r ∈ Reads.select_call_logs (Some m) d <-> r ∈ call_logs d /\ CallData.user_email r = m.
Proof.
  unfold Reads.select_call_logs. rewrite merge_sort_Permutation.
  rewrite list_elem_of_In, List.filter_In, <- list_elem_of_In.
  unfold Reads.user_email_is. now rewrite String.eqb_eq.
Qed.

(** [getCallLogs] always returns: the selected rows, or [[]] when the
    database rejects the statement. *)
Lemma getCallLogs_cases userEmail w :
  (exists fs, faults w = true :: fs /\
     Reads.getCallLogs userEmail w = (Ok [], set_database (database w) fs w)) \/
  answers w /\
  Reads.getCallLogs userEmail w
  = (Ok (Reads.select_call_logs (if Js.truthy userEmail then userEmail else None)
           (database w)),
     set_database (database w) (tail (faults w)) w).
Proof.
  unfold Reads.getCallLogs, try_catch.
  destruct (pool_select_cases
              (Reads.select_call_logs (if Js.truthy userEmail then userEmail else None)) w)
    as [(fs & Hf & ->) | [Hans ->]].
  - left. exists fs. now split.
  - right. now split.
Qed.

Lemma rows_for_pos k t :
  (0 < rows_for k t)%nat -> exists r, r ∈ t /\ CallData.call_id r = k.
Proof.
  induction t as [|r t IH]; [unfold rows_for; simpl; lia|].
  rewrite rows_for_cons. destruct (call_id_is k r) eqn:E.
  - intros _. exists r. split; [left | now apply String.eqb_eq].
  - intros H. destruct (IH H) as (r0 & Hin & Hk). exists r0. split; [now right | exact Hk].
Qed.

(** [GET /api/call-logs] over the current [getCallLogs]: always 200, with
    the rows selected for the caller or with none. *)
Lemma callLogsRoute_cases user w :
  let arg := if Api.hasAdminRole user then None else Some (email user) in
  (exists fs, faults w = true :: fs /\
     Reads.callLogsRoute Reads.getCallLogs (Some user) w
     = (Ok (200%nat, Reads.LogsJson []), set_database (database w) fs w)) \/
  answers w /\
  Reads.callLogsRoute Reads.getCallLogs (Some user) w
  = (Ok (200%nat,
         Reads.LogsJson
           (Reads.select_call_logs (if Js.truthy arg then arg else None) (database w))),
     set_database (database w) (tail (faults w)) w).
Proof.
  cbv zeta. unfold Reads.callLogsRoute, try_catch, bind, ret.
  destruct (Api.hasAdminRole user).
  - destruct (getCallLogs_cases None w) as [(fs & Hf & ->) | [Hans ->]];
      [left; exists fs; now split | right; now split].
  - destruct (getCallLogs_cases (Some (email user)) w) as [(fs & Hf & ->) | [Hans ->]];
      [left; exists fs; now split | right; now split].
Qed.

(** X10.  Save, then list.  After [saveCallLog] of a call with a call id,
    on a database that answers, [GET /api/call-logs] by the owner of the
    call (or by an admin) answers 200 with a list that contains the saved
    row, and every row of that call id in the list is the saved row: earlier
    values of the call are gone. *)
Theorem X10_saved_log_is_listed d w user :
  healthy w ->
  CallData.call_id d <> EmptyString ->
  Api.hasAdminRole user = true \/
  (email user = CallData.user_email d /\ email user <> EmptyString) ->
  let w' := snd (CallLogs.saveCallLog d w) in
  exists logs w'',
    Reads.callLogsRoute Reads.getCallLogs (Some user) w'
    = (Ok (200%nat, Reads.LogsJson logs), w'') /\
    CallLogs.params d ∈ logs /\
    (forall r, r ∈ logs -> CallData.call_id r = CallData.call_id d -> r = CallLogs.params d).
Proof.
  intros Hw Hid Hmay w'.
  destruct (saveCallLog_healthy d w Hid Hw) as (w1 & E & Hw1 & Hrows & Hrow).
  assert (Hsaved : w' = w1) by (unfold w'; now rewrite E). rewrite Hsaved. clear Hsaved w' E.
  assert (Hin : CallLogs.params d ∈ call_logs (database w1)).
  { destruct (rows_for_pos (CallData.call_id d) (call_logs (database w1)))
      as (r & Hr & Hk).
    - rewrite Hrows, String.eqb_refl. lia.
    - now rewrite <- (Hrow r Hr Hk). }
  destruct (callLogsRoute_cases user w1) as [(fs & Hf & _) | [_ ->]].
  { apply healthy_answers in Hw1. unfold answers in Hw1. rewrite Hf in Hw1.
    now contradiction Hw1. }
  eexists _, _. split; [reflexivity|].
  destruct Hmay as [-> | [Hown Hne]].
  - simpl. split; [now rewrite select_call_logs_all|].
    intros r Hr. rewrite select_call_logs_all in Hr. now apply Hrow.
  - destruct (Api.hasAdminRole user); simpl.
    + split; [now rewrite select_call_logs_all|].
      intros r Hr. rewrite select_call_logs_all in Hr. now apply Hrow.
    + rewrite (eqb_neq_false _ _ Hne). simpl. split.
      * apply select_call_logs_of. split; [exact Hin | now rewrite Hown].
      * intros r Hr. apply select_call_logs_of in Hr as [Hr _]. now apply Hrow.
Qed.

Lemma X10_saved_log_is_listed_witness :
  let w := mkWorld [] [] 0 (mkDb [Sample.callData "c1" "ongoing"] [] []) [] [] in
  let w' := snd (CallLogs.saveCallLog (Sample.callData "c1" "ended") w) in
  exists w'',
    Reads.callLogsRoute Reads.getCallLogs (Some Sample.alice) w'
    = (Ok (200%nat, Reads.LogsJson [Sample.callData "c1" "ended"]), w'').
Proof.
  cbv zeta.
  destruct (X10_saved_log_is_listed (Sample.callData "c1" "ended")
              (mkWorld [] [] 0 (mkDb [Sample.callData "c1" "ongoing"] [] []) [] [])
              Sample.alice)
    as (logs & w'' & E & _).
  - apply Forall_nil_2.
  - discriminate.
  - right. split; [reflexivity | discriminate].
  - exists w''. rewrite E. vm_compute in E. injection E as <- _. reflexivity.
Defined.

(** X11.  [GET /api/call-logs] for a caller who is not an admin and has an
    email: the answer is always 200 with rows of that email only, most
    recently started first.  When the database answers they are all the rows
    of that email; when it rejects the statement the list is empty (the
    earlier [getCallLogs], which does not catch, makes the route answer
    500).  The tables are left as they are. *)
Theorem X11_call_logs_route w user :
  Api.hasAdminRole user = false ->
  email user <> EmptyString ->
  exists logs w',
    Reads.callLogsRoute Reads.getCallLogs (Some user) w
    = (Ok (200%nat, Reads.LogsJson logs), w') /\
    database w' = database w /\
    Forall (fun r => CallData.user_email r = email user) logs /\
    StronglySorted Reads.later_first logs /\
    (answers w ->
     forall r, r ∈ logs <-> r ∈ call_logs (database w) /\ CallData.user_email r = email user) /\
    (head (faults w) = Some true ->
     logs = [] /\
     fst (Reads.callLogsRoute Reads.getCallLogsV1 (Some user) w)
     = Ok (500%nat, Reads.LogsError "Internal server error")).
Proof.
  intros Hrole Hne.
  pose proof (callLogsRoute_cases user w) as Hcases. cbv zeta in Hcases.
  rewrite Hrole in Hcases.
  remember (Reads.callLogsRoute Reads.getCallLogs (Some user) w) as res eqn:Hres.
  simpl in Hcases. rewrite (eqb_neq_false _ _ Hne) in Hcases. simpl in Hcases.
  destruct Hcases as [(fs & Hf & ->) | [Hans ->]]; eexists _, _;
    (split; [reflexivity|]); (split; [reflexivity|]).
  - split; [apply Forall_nil_2|]. split; [constructor|]. split.
    + intros Hans. unfold answers in Hans. rewrite Hf in Hans. now contradiction Hans.
    + intros _. split; [reflexivity|].
      unfold Reads.callLogsRoute, Reads.getCallLogsV1, try_catch, bind, Reads.pool_select.
      now rewrite Hrole, Hf.
  - split.
    { apply Forall_forall. intros r Hr. now apply select_call_logs_of in Hr. }
    split; [apply select_call_logs_sorted|]. split.
    + intros _ r. apply select_call_logs_of.
    + intros Hf. unfold answers in Hans. contradiction.
Qed.

Lemma X11_call_logs_route_witness :
  let rows := [Sample.callData "c1" "ended";
               CallData.mk "c2" "bob@example.com" "inbound" "+15550101" "ended"
                 2000%Z 0%Z None None;
               CallData.mk "c3" "alice@example.com" "outbound" "+15550102" "ongoing"
                 3000%Z 0%Z None None] in
  let w := mkWorld [] [] 0 (mkDb rows [] []) [] [] in
  exists logs w',
    Reads.callLogsRoute Reads.getCallLogs (Some Sample.alice) w
    = (Ok (200%nat, Reads.LogsJson logs), w') /\
    map CallData.call_id logs = ["c3"; "c1"].
Proof.
  cbv zeta.
  destruct (X11_call_logs_route
              (mkWorld [] [] 0
                 (mkDb [Sample.callData "c1" "ended";
                        CallData.mk "c2" "bob@example.com" "inbound" "+15550101" "ended"
                          2000%Z 0%Z None None;
                        CallData.mk "c3" "alice@example.com" "outbound" "+15550102" "ongoing"
                          3000%Z 0%Z None None] [] []) [] [])
              Sample.alice)
    as (logs & w' & E & _); [reflexivity | discriminate |].
  exists logs, w'. split; [exact E|].
  vm_compute in E. injection E as <- _. reflexivity.
Defined.

(** X12.  A session without an email is not filtered: [getCallLogs] treats
    the empty email as no filter, so [GET /api/call-logs] answers such a
    caller, admin or not, with the rows of every user. *)
Theorem X12_session_without_email w user :
  email user = EmptyString ->
  answers w ->
  exists logs w',
    Reads.callLogsRoute Reads.getCallLogs (Some user) w
    = (Ok (200%nat, Reads.LogsJson logs), w') /\
    logs ≡ₚ call_logs (database w).
Proof.
  intros Hmail Hans.
  destruct (callLogsRoute_cases user w) as [(fs & Hf & _) | [_ ->]].
  { unfold answers in Hans. rewrite Hf in Hans. now contradiction Hans. }
  eexists _, _. split; [reflexivity|].
  rewrite Hmail. destruct (Api.hasAdminRole user); simpl; apply select_call_logs_all.
Qed.

Lemma X12_session_without_email_witness :
  let w := mkWorld [] [] 0 (mkDb [Sample.callData "c1" "ended"] [] []) [] [] in
  exists logs w',
    Reads.callLogsRoute Reads.getCallLogs (Some (mkUser EmptyString None)) w
    = (Ok (200%nat, Reads.LogsJson logs), w') /\
    logs ≡ₚ [Sample.callData "c1" "ended"].
Proof.
  apply (X12_session_without_email
           (mkWorld [] [] 0 (mkDb [Sample.callData "c1" "ended"] [] []) [] [])
           (mkUser EmptyString None)).
  - reflexivity.
  - unfold answers. simpl. discriminate.
Defined.

Lemma strict_admin_is_admin session :
  Reads.isAdmin session = true ->
  exists user, session = Some user /\ role user = Some "admin" /\
               Api.hasAdminRole user = true.
Proof.
  unfold Reads.isAdmin. destruct session as [user|]; [|discriminate].
  destruct (role user) as [r|] eqn:Hr; [|discriminate].
  intros H. apply String.eqb_eq in H. subst r. exists user.
  split; [reflexivity|]. split; [exact Hr|]. unfold Api.hasAdminRole. now rewrite Hr.
Qed.

(** X13.  [GET /api/admin/call-logs] against [GET /api/call-logs].  The
    admin route answers 403 and reads nothing unless the session has the
    role 'admin' in exactly this spelling; whoever passes is an admin for
    the other routes too.  For such a caller the two routes give the same
    answer when the database answers; when it rejects the statement the
    admin route answers 500 and [GET /api/call-logs] answers 200 with an
    empty list. *)
Theorem X13_admin_route session w :
  (Reads.isAdmin session = false ->
   Reads.adminCallLogs session w
   = (Ok (403%nat, Reads.LogsError "Forbidden. Admins only."), w)) /\
  (Reads.isAdmin session = true ->
   (exists user, session = Some user /\ Api.hasAdminRole user = true /\
                 Server.isAdmin user = true) /\
   (answers w ->
    Reads.adminCallLogs session w = Reads.callLogsRoute Reads.getCallLogs session w) /\
   (head (faults w) = Some true ->
    fst (Reads.adminCallLogs session w)
    = Ok (500%nat, Reads.LogsError "Internal server error") /\
    fst (Reads.callLogsRoute Reads.getCallLogs session w)
    = Ok (200%nat, Reads.LogsJson []))).
Proof.
  split; intros Hadmin.
  - unfold Reads.adminCallLogs. now rewrite Hadmin.
  - destruct (strict_admin_is_admin session Hadmin) as (user & -> & Hrole & Hloose).
    split; [exists user; now rewrite <- admin_tests_agree|].
    pose proof (callLogsRoute_cases user w) as Hroute. cbv zeta in Hroute.
    rewrite Hloose in Hroute.
    remember (Reads.callLogsRoute Reads.getCallLogs (Some user) w) as res eqn:Hres.
    simpl in Hroute.
    unfold Reads.adminCallLogs. rewrite Hadmin. unfold try_catch, bind, ret.
    destruct (pool_select_cases (Reads.select_call_logs None) w)
      as [(fs & Hf & ->) | [Hans ->]];
      destruct Hroute as [(fs' & Hf' & ->) | [Hans' ->]]; split;
      try reflexivity; try (intros H; unfold answers in *; rewrite ?Hf, ?Hf' in *;
                            simpl in *; congruence).
    intros; now split.
Qed.

Lemma X13_admin_route_witness :
  let w := mkWorld [] [] 0 (mkDb [Sample.callData "c1" "ended"] [] []) [] [] in
  Api.hasAdminRole Sample.root = true /\
  Reads.adminCallLogs (Some Sample.root) w
  = (Ok (403%nat, Reads.LogsError "Forbidden. Admins only."), w).
Proof.
  split; [reflexivity|].
  apply (X13_admin_route (Some Sample.root)
           (mkWorld [] [] 0 (mkDb [Sample.callData "c1" "ended"] [] []) [] [])).
  reflexivity.
Defined.

(** ** [saveSubscriptionToDb] over time, and the subscription read back *)

Lemma upsert_healthy d w :
  healthy w ->
  exists w',
    Subscriptions.upsert d w = (Ok tt, w') /\ healthy w' /\
    call_logs (database w') = call_logs (database w) /\
    users (database w') = users (database w) /\
    subscriptions (database w')
    = upserted (Subscriptions.params d) (subscriptions (database w)).
Proof.
  intros Hw. unfold Subscriptions.upsert, try_catch, bind, ret, upserted.
  rewrite (pool_execute_healthy _ w Hw).
  cbn [fst snd run_query rows]. rewrite selected_some.
  change (SubscriptionRow.email (Subscriptions.params d)) with (SubscriptionData.email d).
  fold (rows_for_email (SubscriptionData.email d) (subscriptions (database w))).
  destruct (rows_for_email (SubscriptionData.email d) (subscriptions (database w)))
    as [|n]; cbn [Nat.ltb Nat.leb length];
    (rewrite pool_execute_healthy by now apply healthy_tail);
    (eexists; split; [reflexivity|]);
    (split; [apply healthy_tail; simpl; now apply healthy_tail|]);
    repeat split.
Qed.

(** A delivery whose event id is on no row, on a database that answers. *)
Lemma saveSubscriptionToDb_fresh d w :
  healthy w ->
  (forall e, SubscriptionData.stripeEventId d = Some e ->
             rows_for_event e (subscriptions (database w)) = 0%nat) ->
  exists w',
    Subscriptions.saveSubscriptionToDb d w = (Ok tt, w') /\ healthy w' /\
    call_logs (database w') = call_logs (database w) /\
    users (database w') = users (database w) /\
    subscriptions (database w')
    = upserted (Subscriptions.params d) (subscriptions (database w)).
Proof.
  intros Hw Hfresh. unfold Subscriptions.saveSubscriptionToDb, bind, ret.
  destruct (Js.truthy (SubscriptionData.stripeEventId d)) eqn:Ht.
  - destruct (truthy_some _ Ht) as (e & He & _).
    rewrite He, (pool_execute_healthy _ w Hw).
    cbn [fst snd run_query rows]. rewrite selected_some.
    fold (rows_for_event e (subscriptions (database w))). rewrite (Hfresh e He).
    cbn [Nat.ltb Nat.leb].
    match goal with
    | |- context [Subscriptions.upsert d ?w1] =>
        destruct (upsert_healthy d w1) as (w' & -> & Hw' & Hc & Hu & Hs);
          [now apply healthy_tail|]
    end.
    exists w'. now repeat split.
  - now apply upsert_healthy.
Qed.

Lemma rows_for_email_update m row t :
  rows_for_email m (map (update_subscription row) t) = rows_for_email m t.
Proof.
  induction t as [|r t IH]; [reflexivity|].
  change (map (update_subscription row) (r :: t))
    with (update_subscription row r :: map (update_subscription row) t).
  rewrite !rows_for_email_cons, IH. unfold sub_email_is.
  now rewrite update_subscription_email.
Qed.

Lemma rows_for_email_insert m row t :
  rows_for_email m (t ++ [row])
  = (rows_for_email m t + if sub_email_is m row then 1 else 0)%nat.
Proof.
  unfold rows_for_email. rewrite List.filter_app, length_app. simpl.
  now destruct (sub_email_is m row).
Qed.

Lemma upserted_has_row row t :
  (0 < rows_for_email (SubscriptionRow.email row) (upserted row t))%nat.
Proof.
  unfold upserted.
  destruct (rows_for_email (SubscriptionRow.email row) t) as [|n] eqn:Hn;
    cbn [Nat.ltb Nat.leb].
  - rewrite rows_for_email_insert. unfold sub_email_is. rewrite String.eqb_refl. lia.
  - rewrite rows_for_email_update. lia.
Qed.

Lemma update_subscription_hit row r :
  SubscriptionRow.email r = SubscriptionRow.email row ->
  update_subscription row r = row.
Proof.
  intros H. unfold update_subscription, sub_email_is. rewrite H, String.eqb_refl.
  now destruct row.
Qed.

Lemma update_subscription_miss row r :
  SubscriptionRow.email r <> SubscriptionRow.email row ->
  update_subscription row r = r.
Proof.
  intros H. unfold update_subscription, sub_email_is. now rewrite (eqb_neq_false _ _ H).
Qed.

(** After the try block every row of the email is the row just written. *)
Lemma upserted_rows row t r :
  r ∈ upserted row t -> SubscriptionRow.email r = SubscriptionRow.email row -> r = row.
Proof.
  unfold upserted.
  destruct (rows_for_email (SubscriptionRow.email row) t) as [|n] eqn:Hn;
    cbn [Nat.ltb Nat.leb]; intros Hin Hmail.
  - apply elem_of_app in Hin as [Hin | Hin].
    + now destruct (rows_for_email_none _ _ _ Hn Hin).
    + now apply list_elem_of_singleton in Hin.
  - apply list_elem_of_fmap in Hin as (r0 & -> & _).
    rewrite update_subscription_email in Hmail. now apply update_subscription_hit.
Qed.

Lemma event_free e t :
  rows_for_event e t = 0%nat
  <-> Forall (fun r => SubscriptionRow.stripe_event_id r <> Some e) t.
Proof.
  induction t as [|r t IH]; [split; [constructor | reflexivity]|].
  rewrite rows_for_event_cons, Forall_cons, <- IH.
  pose proof (event_id_is_true e r) as Hr.
  destruct (event_id_is (Some e) r); split.
  - lia.
  - intros [H _]. exfalso. apply H, Hr. reflexivity.
  - intros H. split; [|lia]. intros Heq. apply Hr in Heq. discriminate.
  - intros [_ H]. lia.
Qed.

Lemma upserted_event_free e row t :
  SubscriptionRow.stripe_event_id row <> Some e ->
  rows_for_event e t = 0%nat -> rows_for_event e (upserted row t) = 0%nat.
Proof.
  intros Hrow Ht. unfold upserted.
  destruct (0 <? rows_for_email (SubscriptionRow.email row) t)%nat.
  - pose proof (rows_for_event_update_other e row t Hrow). lia.
  - rewrite rows_for_event_insert, Ht.
    destruct (event_id_is (Some e) row) eqn:E; [|reflexivity].
    apply event_id_is_true in E. contradiction.
Qed.

Lemma rows_for_email_pos m t :
  (0 < rows_for_email m t)%nat -> exists r, r ∈ t /\ SubscriptionRow.email r = m.
Proof.
  induction t as [|r t IH]; [unfold rows_for_email; simpl; lia|].
  rewrite rows_for_email_cons. destruct (sub_email_is m r) eqn:E.
  - intros _. exists r. split; [left | now apply String.eqb_eq].
  - intros H. destruct (IH H) as (r0 & Hin & Hk). exists r0. split; [now right | exact Hk].
Qed.

Lemma event_row_counts e t r :
  r ∈ t -> SubscriptionRow.stripe_event_id r = Some e -> (0 < rows_for_event e t)%nat.
Proof.
  intros Hin He. destruct (rows_for_event e t) eqn:Hn; [|lia].
  apply event_free in Hn. rewrite Forall_forall in Hn. now destruct (Hn r Hin).
Qed.

(** X14.  A [subscriptions] table with one row per email, and each event id
    on one row at most, stays so under any sequence of
    [saveSubscriptionToDb] calls, whichever statements the database
    rejects. *)
Theorem X14_subscriptions_stay_keyed deliveries w :
  keyed (subscriptions (database w)) ->
  keyed (subscriptions (database (deliver_all deliveries w))).
Proof.
  unfold deliver_all. revert w.
  induction deliveries as [|d deliveries IH]; intros w Hk; simpl; [exact Hk|].
  apply IH, saveSubscriptionToDb_keyed, Hk.
Qed.

Lemma X14_subscriptions_stay_keyed_witness :
  keyed (subscriptions (database
    (deliver_all [Sample.subscription "alice@example.com" "evt_1";
                  Sample.subscription "bob@example.com" "evt_2";
                  Sample.subscription "alice@example.com" "evt_3"]
       (Sample.world [] [] [false; false; true])))).
Proof.
  apply (X14_subscriptions_stay_keyed
           [Sample.subscription "alice@example.com" "evt_1";
            Sample.subscription "bob@example.com" "evt_2";
            Sample.subscription "alice@example.com" "evt_3"]
           (Sample.world [] [] [false; false; true])).
  split; [apply NoDup_nil_2 | intros e _; unfold rows_for_event; simpl; lia].
Defined.

Lemma update_over_update row1 row2 t :
  SubscriptionRow.email row2 = SubscriptionRow.email row1 ->
  (forall r, r ∈ t -> SubscriptionRow.email r = SubscriptionRow.email row1 -> r = row1) ->
  map (update_subscription row1) (map (update_subscription row2) t) = t.
Proof.
  intros Hsame Hrows. induction t as [|r t IH]; [reflexivity|].
  simpl. rewrite IH by (intros r0 Hr0; apply Hrows; now right). f_equal.
  destruct (decide (SubscriptionRow.email r = SubscriptionRow.email row1)) as [Hm | Hm].
  - rewrite (update_subscription_hit row2 r) by congruence.
    rewrite (update_subscription_hit row1 row2 Hsame).
    symmetry. apply Hrows; [left | exact Hm].
  - rewrite (update_subscription_miss row2 r) by congruence.
    now apply update_subscription_miss.
Qed.

(** X15.  The duplicate check looks for the event id on the rows as they are
    now, and a later event of the same email overwrites it.  So when the
    event [e1] is delivered, then a different event [e2] of the same email,
    and then [e1] again, the third delivery is not skipped: it writes the
    values of [e1] back, and the table is as it was after the first
    delivery, with [e2] on no row. *)
Theorem X15_replayed_event_overwrites d1 d2 e1 e2 w :
  healthy w ->
  SubscriptionData.email d2 = SubscriptionData.email d1 ->
  SubscriptionData.stripeEventId d1 = Some e1 ->
  SubscriptionData.stripeEventId d2 = Some e2 ->
  e1 <> e2 ->
  rows_for_event e1 (subscriptions (database w)) = 0%nat ->
  rows_for_event e2 (subscriptions (database w)) = 0%nat ->
  let first := subscriptions (database (deliver_all [d1] w)) in
  let second := subscriptions (database (deliver_all [d1; d2] w)) in
  let third := subscriptions (database (deliver_all [d1; d2; d1] w)) in
  (forall r, r ∈ second -> SubscriptionRow.email r = SubscriptionData.email d1 ->
             r = Subscriptions.params d2) /\
  third = first /\
  rows_for_event e2 third = 0%nat /\
  (0 < rows_for_event e1 third)%nat.
Proof.
  intros Hw Hsame He1 He2 Hne Hf1 Hf2. unfold deliver_all. simpl.
  set (t := subscriptions (database w)) in *.
  set (row1 := Subscriptions.params d1). set (row2 := Subscriptions.params d2).
  assert (Hmail2 : SubscriptionRow.email row2 = SubscriptionRow.email row1) by exact Hsame.
  destruct (saveSubscriptionToDb_fresh d1 w Hw) as (w1 & -> & Hw1 & _ & _ & Ht1).
  { intros e He. rewrite He1 in He. injection He as <-. exact Hf1. }
  simpl. fold t row1 in Ht1.
  assert (Hfree2 : rows_for_event e2 (upserted row1 t) = 0%nat).
  { apply upserted_event_free; [|exact Hf2]. simpl. rewrite He1. congruence. }
  destruct (saveSubscriptionToDb_fresh d2 w1 Hw1) as (w2 & -> & Hw2 & _ & _ & Ht2).
  { intros e He. rewrite He2 in He. injection He as <-. now rewrite Ht1. }
  simpl. fold row2 in Ht2. rewrite Ht1 in Ht2.
  assert (Hsecond : subscriptions (database w2)
                    = map (update_subscription row2) (upserted row1 t)).
  { rewrite Ht2. unfold upserted at 1. rewrite Hmail2.
    pose proof (upserted_has_row row1 t) as Hpos.
    destruct (rows_for_email (SubscriptionRow.email row1) (upserted row1 t));
      [lia | reflexivity]. }
  assert (Hfree1 : rows_for_event e1 (subscriptions (database w2)) = 0%nat).
  { rewrite Hsecond. apply event_free, Forall_forall. intros r Hr.
    apply list_elem_of_fmap in Hr as (r0 & -> & Hr0).
    destruct (decide (SubscriptionRow.email r0 = SubscriptionRow.email row1)) as [Hm | Hm].
    - rewrite update_subscription_hit by congruence. simpl. rewrite He2. congruence.
    - rewrite update_subscription_miss by congruence.
      intros Hev. apply Hm.
      assert (Hcases : r0 ∈ t \/ r0 = row1).
      { revert Hr0. unfold upserted.
        destruct (0 <? rows_for_email (SubscriptionRow.email row1) t)%nat.
        - intros Hr0. apply list_elem_of_fmap in Hr0 as (r1 & -> & Hr1).
          destruct (decide (SubscriptionRow.email r1 = SubscriptionRow.email row1)).
          + right. now apply update_subscription_hit.
          + left. now rewrite update_subscription_miss.
        - intros Hr0. apply elem_of_app in Hr0 as [? | Hr0]; [now left|].
          right. now apply list_elem_of_singleton in Hr0. }
      destruct Hcases as [Hin | ->]; [|reflexivity].
      apply event_free in Hf1. rewrite Forall_forall in Hf1. now destruct (Hf1 r0 Hin). }
  destruct (saveSubscriptionToDb_fresh d1 w2 Hw2) as (w3 & -> & _ & _ & _ & Ht3).
  { intros e He. rewrite He1 in He. injection He as <-. exact Hfree1. }
  simpl. fold row1 in Ht3.
  assert (Hthird : subscriptions (database w3) = upserted row1 t).
  { rewrite Ht3, Hsecond. unfold upserted at 1.
    rewrite rows_for_email_update.
    pose proof (upserted_has_row row1 t) as Hpos.
    destruct (rows_for_email (SubscriptionRow.email row1) (upserted row1 t));
      [lia|]. cbn [Nat.ltb Nat.leb].
    apply update_over_update; [exact Hmail2|]. intros r. apply upserted_rows. }
  split; [|split; [|split]].
  - rewrite Hsecond. intros r Hr Hm.
    apply list_elem_of_fmap in Hr as (r0 & -> & _).
    rewrite update_subscription_email in Hm. apply update_subscription_hit.
    rewrite Hm. symmetry. exact Hsame.
  - now rewrite Hthird, Ht1.
  - now rewrite Hthird.
  - rewrite Hthird. pose proof (upserted_has_row row1 t) as Hpos.
    destruct (rows_for_email_pos (SubscriptionRow.email row1) (upserted row1 t) Hpos)
      as (r & Hr & Hm).
    rewrite (upserted_rows row1 t r Hr Hm) in Hr.
    apply event_row_counts with (r := row1); [exact Hr | exact He1].
Qed.

Lemma X15_replayed_event_overwrites_witness :
  let d1 := Sample.subscription "alice@example.com" "evt_1" in
  let d2 := SubscriptionData.mk "alice@example.com" "sub_2" "basic" "active"
              (QArith_base.Qmake 19 1) (Some "evt_2") None in
  subscriptions (database (deliver_all [d1; d2; d1] (Sample.world [] [] [])))
  = [Subscriptions.params d1].
Proof.
  cbv zeta.
  destruct (X15_replayed_event_overwrites
              (Sample.subscription "alice@example.com" "evt_1")
              (SubscriptionData.mk "alice@example.com" "sub_2" "basic" "active"
                 (QArith_base.Qmake 19 1) (Some "evt_2") None)
              "evt_1" "evt_2" (Sample.world [] [] []))
    as (_ & Hthird & _);
    [apply Forall_nil_2 | reflexivity | reflexivity | reflexivity | discriminate
    | reflexivity | reflexivity |].
  rewrite Hthird. reflexivity.
Defined.

Lemma pool_select_healthy {A} (read : Db -> A) w :
  healthy w ->
  Reads.pool_select read w
  = (Ok (read (database w)), set_database (database w) (tail (faults w)) w).
Proof.
  intros Hw. destruct (pool_select_cases read w) as [(fs & Hf & _) | [_ E]]; [|exact E].
  apply healthy_answers in Hw. unfold answers in Hw. rewrite Hf in Hw.
  now contradiction Hw.
Qed.

Lemma active_row_selected row t :
  (forall r, r ∈ t -> SubscriptionRow.email r = SubscriptionRow.email row -> r = row) ->
  SubscriptionRow.status row = "active" ->
  (0 < rows_for_email (SubscriptionRow.email row) t)%nat ->
  Reads.select_active (SubscriptionRow.email row) (mkDb [] t []) = [row].
Proof.
  unfold Reads.select_active. simpl. intros Hrows Hact.
  induction t as [|r t IH]; [unfold rows_for_email; simpl; lia|].
  rewrite rows_for_email_cons. unfold sub_email_is. simpl. unfold Reads.is_active_for at 1.
  destruct (String.eqb (SubscriptionRow.email r) (SubscriptionRow.email row)) eqn:E.
  - intros _. apply String.eqb_eq in E.
    rewrite (Hrows r (list_elem_of_here _ _) E), Hact. reflexivity.
  - simpl. intros Hpos. apply IH; [|exact Hpos].
    intros r0 Hr0. apply Hrows. now right.
Qed.

Lemma select_active_tables m d :
  Reads.select_active m d = Reads.select_active m (mkDb [] (subscriptions d) []).
Proof. reflexivity. Qed.

(** The signed webhook on a verified [checkout.session.completed] event that
    carries its session: the subscription is saved inside a try block and the
    event acknowledged. *)
Lemma post_checkout secret constructEvent nextMonth saveCallLog sig rawBody event
    session now w :
  secret <> EmptyString ->
  Js.truthy sig = true ->
  constructEvent rawBody (default EmptyString sig) secret = inr event ->
  SignedEvent.type event = Some "checkout.session.completed" ->
  SignedEvent.data_object event = Some session ->
  SignedWebhook.post (Some secret) constructEvent nextMonth saveCallLog sig rawBody now w
  = (Ok (mkResponse 200 ReceivedJson),
     snd (try_catch
            (Subscriptions.saveSubscriptionToDb
               (SignedWebhook.subscriptionData nextMonth event session now))
            (fun _ => ret tt) w)).
Proof.
  intros Hsecret Hsig Hevent Htype Hobj.
  assert (Hty : SignedWebhook.eventType event = Some "checkout.session.completed").
  { unfold SignedWebhook.eventType. now rewrite Htype. }
  unfold SignedWebhook.post. rewrite (truthy_nonempty _ Hsecret), Hsig, Hevent, Hty.
  cbn [negb]. unfold bind at 1.
  change (SignedWebhook.type_is (Some "checkout.session.completed")
            "checkout.session.completed") with true.
  change (SignedWebhook.type_is (Some "checkout.session.completed")
            "call.inbound.completed") with false.
  cbn iota. unfold SignedWebhook.processCheckout. rewrite Hobj.
  match goal with
  | |- context [try_catch ?c ?h ?w1] =>
      destruct (try_catch_swallows c w1) as (w2 & ->)
  end.
  reflexivity.
Qed.

(** X16.  From checkout to subscription status.  When the signed webhook
    receives a verified [checkout.session.completed] event with its session,
    the database answers and the event id is on no row yet, the event is
    acknowledged with 200 and afterwards the customer of the session has an
    active subscription: every row of that email is the row of this event
    (plan of the session's metadata, price in units of 100, expiry the next
    month), [GET /api/user] reports [isSubscribed] and
    [GET /api/subscriptions/me] returns that row. *)
Theorem X16_checkout_then_subscribed secret constructEvent nextMonth saveCallLog
    sig rawBody event session user now w :
  secret <> EmptyString ->
  Js.truthy sig = true ->
  constructEvent rawBody (default EmptyString sig) secret = inr event ->
  SignedEvent.type event = Some "checkout.session.completed" ->
  SignedEvent.data_object event = Some session ->
  healthy w ->
  rows_for_event (SignedEvent.id event) (subscriptions (database w)) = 0%nat ->
  email user = DataObject.customer_email session ->
  let posted :=
    SignedWebhook.post (Some secret) constructEvent nextMonth saveCallLog
      sig rawBody now w in
  let row :=
    SubscriptionRow.mk (email user) (DataObject.subscription session)
      (Js.or_str (DataObject.metadata_plan session) "unknown") "active"
      (if Js.truthy_num (DataObject.amount_total session)
       then QArith_base.Qmake (default 0%Z (DataObject.amount_total session)) 100
       else QArith_base.Qmake 0 1)
      (Some (nextMonth now)) (Some (SignedEvent.id event)) in
  fst posted = Ok (mkResponse 200 ReceivedJson) /\
  (forall r, r ∈ subscriptions (database (snd posted)) ->
             SubscriptionRow.email r = email user -> r = row) /\
  fst (Reads.apiUser (Some user) (snd posted))
  = Ok (200%nat, Reads.UserJson (email user) true (Js.or_str (role user) "user")) /\
  fst (Reads.subscriptionsMe (Some user) (snd posted))
  = Ok (200%nat, Reads.SubscriptionJson row).
Proof.
  intros Hsecret Hsig Hevent Htype Hobj Hw Hfresh Hmail posted row.
  set (d := SignedWebhook.subscriptionData nextMonth event session now).
  assert (Hrow : Subscriptions.params d = row).
  { unfold row. rewrite Hmail. reflexivity. }
  assert (Hposted : posted
                    = (Ok (mkResponse 200 ReceivedJson),
                       snd (try_catch (Subscriptions.saveSubscriptionToDb d)
                              (fun _ => ret tt) w))).
  { apply post_checkout; assumption. }
  destruct (saveSubscriptionToDb_fresh d w Hw) as (w1 & E & Hw1 & _ & _ & Ht1).
  { intros e [= <-]. exact Hfresh. }
  unfold try_catch in Hposted. rewrite E in Hposted. simpl in Hposted.
  rewrite Hposted. simpl. rewrite Hrow in Ht1.
  assert (Hmine : forall r, r ∈ subscriptions (database w1) ->
                            SubscriptionRow.email r = email user -> r = row).
  { rewrite Ht1. intros r. apply upserted_rows. }
  assert (Hselect : Reads.select_active (email user) (database w1) = [row]).
  { rewrite select_active_tables.
    apply (active_row_selected row); [exact Hmine | reflexivity|].
    rewrite Ht1. apply upserted_has_row. }
  split; [reflexivity|]. split; [exact Hmine|].
  unfold Reads.apiUser, Reads.subscriptionsMe, try_catch, bind, ret.
  rewrite !(pool_select_healthy _ w1 Hw1), Hselect. split; reflexivity.
Qed.

Lemma X16_checkout_then_subscribed_witness :
  let posted :=
    SignedWebhook.post (Some "whsec_1") Sample.constructEvent
      (fun t => (t + 2592000000)%Z) CallLogs.saveCallLog
      (Some "t=1,v1=ok") "{}" 7000 (Sample.world [] [] []) in
  fst (Reads.apiUser (Some Sample.alice) (snd posted))
  = Ok (200%nat, Reads.UserJson "alice@example.com" true "user").
Proof.
  cbv zeta.
  destruct (X16_checkout_then_subscribed "whsec_1" Sample.constructEvent
              (fun t => (t + 2592000000)%Z) CallLogs.saveCallLog
              (Some "t=1,v1=ok") "{}" Sample.checkout
              (DataObject.mk "alice@example.com" "sub_1" (Some 4900%Z) (Some "pro")
                 "cs_1" None None "complete" None None None)
              Sample.alice 7000 (Sample.world [] [] []))
    as (_ & _ & Huser & _);
    [discriminate | reflexivity | reflexivity | reflexivity | reflexivity
    | apply Forall_nil_2 | reflexivity | reflexivity |].
  exact Huser.
Defined.

(** X17.  [POST /api/subscriptions/add-subscription] never looks for a row
    of the email: on a database that answers, its one statement is the
    INSERT of a row without event id and expiry, so the email has one row
    more than before.  A webhook delivery for that email then rewrites and
    marks every one of these rows: the event id ends up on as many rows as
    the email had. *)
Theorem X17_add_subscription_inserts m subscriptionId plan status price w :
  healthy w ->
  let row := SubscriptionRow.mk m subscriptionId plan status price None None in
  exists w',
    Reads.addSubscription m subscriptionId plan status price w
    = (Ok (200%nat, Reads.MessageJson "Subscription added successfully"), w') /\
    healthy w' /\
    statements (new_events w w') = [InsertSubscriptions row] /\
    subscriptions (database w') = (subscriptions (database w) ++ [row])%list /\
    rows_for_email m (subscriptions (database w'))
    = S (rows_for_email m (subscriptions (database w))) /\
    (forall d e,
       SubscriptionData.email d = m ->
       SubscriptionData.stripeEventId d = Some e ->
       rows_for_event e (subscriptions (database w)) = 0%nat ->
       rows_for_event e
         (subscriptions (database (snd (Subscriptions.saveSubscriptionToDb d w'))))
       = S (rows_for_email m (subscriptions (database w)))).
Proof.
  intros Hw row. unfold Reads.addSubscription, try_catch, bind, ret.
  rewrite (pool_select_healthy _ w Hw).
  assert (Hw0 : healthy (set_database (database w) (tail (faults w)) w)).
  { unfold healthy in *. simpl. destruct (faults w) as [|b fs]; [constructor|].
    now apply Forall_cons in Hw as [_ Hw]. }
  rewrite (pool_execute_healthy _ _ Hw0). fold row.
  eexists. split; [reflexivity|].
  assert (Hrows : rows_for_email m (subscriptions (database w) ++ [row])
                  = S (rows_for_email m (subscriptions (database w)))).
  { rewrite rows_for_email_insert. unfold sub_email_is, row. simpl.
    rewrite String.eqb_refl. lia. }
  split; [now apply healthy_tail|].
  split; [unfold new_events; simpl; now rewrite drop_app_length|].
  split; [reflexivity|]. split; [exact Hrows|].
  intros d e Hmail He Hfresh.
  match goal with
  | |- context [Subscriptions.saveSubscriptionToDb d ?w1] =>
      destruct (saveSubscriptionToDb_fresh d w1) as (w2 & -> & _ & _ & _ & Ht2)
  end.
  - now apply healthy_tail.
  - intros e0 He0. rewrite He in He0. injection He0 as <-. simpl.
    rewrite rows_for_event_insert, Hfresh. reflexivity.
  - simpl in *. rewrite Ht2. unfold upserted.
    change (SubscriptionRow.email (Subscriptions.params d)) with (SubscriptionData.email d).
    rewrite Hmail, Hrows. cbn [Nat.ltb Nat.leb].
    rewrite rows_for_event_update_fresh.
    + change (SubscriptionRow.email (Subscriptions.params d)) with (SubscriptionData.email d).
      now rewrite Hmail.
    + exact He.
    + rewrite rows_for_event_insert, Hfresh. reflexivity.
Qed.

Lemma X17_add_subscription_inserts_witness :
  let w := mkWorld [] [] 0
             (mkDb [] [Subscriptions.params (Sample.subscription "alice@example.com" "evt_0")]
                []) [] [] in
  exists w',
    Reads.addSubscription "alice@example.com" "sub_9" "trial" "active"
      (QArith_base.Qmake 0 1) w
    = (Ok (200%nat, Reads.MessageJson "Subscription added successfully"), w') /\
    rows_for_event "evt_1"
      (subscriptions (database
         (snd (Subscriptions.saveSubscriptionToDb
                 (Sample.subscription "alice@example.com" "evt_1") w'))))
    = 2%nat.
Proof.
  cbv zeta.
  destruct (X17_add_subscription_inserts "alice@example.com" "sub_9" "trial" "active"
              (QArith_base.Qmake 0 1)
              (mkWorld [] [] 0
                 (mkDb [] [Subscriptions.params
                             (Sample.subscription "alice@example.com" "evt_0")] [])
                 [] []))
    as (w' & E & _ & _ & _ & _ & Hmarks); [apply Forall_nil_2|].
  exists w'. split; [exact E|].
  apply (Hmarks (Sample.subscription "alice@example.com" "evt_1") "evt_1");
    reflexivity.
Defined.

(** ** The array registry under the inbound webhook, and [POST /webhook] of
    the monolithic server *)

(** X18.  On an array-registry server each delivery to the inbound-webhook
    route writes one record of the registry: the record of the event's call
    id is replaced where it stands, or a new record is put in front.  The
    record found under any other id is the same as before, the registry
    grows by one record at most, and call ids that were unique stay unique.
    On the Map-registry server a delivery changes nothing. *)
Theorem X18_inbound_writes_one_record w payload callEvent now k :
  NoDup (map id (callLogs w)) ->
  payload_call payload = Some callEvent ->
  let inbound :=
    callLogs (snd (InboundWebhook.post ArrayRegistry CallLogs.saveCallLog payload now w)) in
  NoDup (map id inbound) /\
  (k <> CallEvent.id callEvent ->
   Registry.find k inbound = Registry.find k (callLogs w)) /\
  length inbound
  = match Registry.find (CallEvent.id callEvent) (callLogs w) with
    | Some _ => length (callLogs w)
    | None => S (length (callLogs w))
    end /\
  snd (InboundWebhook.post MapRegistry CallLogs.saveCallLog payload now w) = w.
Proof.
  intros Hnd Hpayload inbound.
  destruct (inbound_post_effect w payload callEvent now Hpayload)
    as (evs & db & fs & E & _).
  cbv zeta in E. unfold inbound. rewrite E. simpl.
  split; [now apply put_ids|].
  split; [intros Hk; now apply find_put_other|].
  split; [apply put_length|].
  now rewrite (inbound_post_map_registry CallLogs.saveCallLog payload callEvent now w Hpayload).
Qed.

Lemma X18_inbound_writes_one_record_witness :
  let other := mkCall "c0" None "ongoing" None None None None None None "inbound"
                 (Some 100%Z) 0%Z "N/A" None None None None None in
  let w := Sample.world [] [Sample.ongoing; other] [] in
  let inbound :=
    callLogs (snd (InboundWebhook.post ArrayRegistry CallLogs.saveCallLog
                     (InboundWebhook.mkPayload None (Some (Sample.event "ended" None)))
                     9500 w)) in
  Registry.find "c0" inbound = Some other /\ length inbound = 2%nat.
Proof.
  cbv zeta.
  destruct (X18_inbound_writes_one_record
              (Sample.world []
                 [Sample.ongoing;
                  mkCall "c0" None "ongoing" None None None None None None "inbound"
                    (Some 100%Z) 0%Z "N/A" None None None None None] [])
              (InboundWebhook.mkPayload None (Some (Sample.event "ended" None)))
              (Sample.event "ended" None) 9500 "c0")
    as (_ & Hfind & Hlen & _).
  - simpl. apply NoDup_cons. split; [|apply NoDup_singleton].
    intros H. apply list_elem_of_singleton in H. discriminate.
  - reflexivity.
  - split; [rewrite Hfind; [reflexivity | discriminate] | rewrite Hlen; reflexivity].
Defined.

(** X19.  [POST /webhook] of the monolithic server is answered by the router
    of [routes/webhook.js], which the server mounts on the path first: for
    every body, the request has the outcome of the signed webhook, and the
    callback that the server registers on the same path afterwards, which
    would store the call of the body in the registry, never runs.  So a
    delivery without a signature header is refused with 500 or 400 and
    changes nothing, whatever call its body carries. *)
Theorem X19_monolith_webhook endpointSecret constructEvent nextMonth saveCallLog
    sig rawBody event_call now w :
  let posted :=
    Monolith.postWebhook endpointSecret constructEvent nextMonth saveCallLog
      sig rawBody event_call now w in
  posted
  = SignedWebhook.post endpointSecret constructEvent nextMonth saveCallLog
      sig rawBody now w /\
  (Js.truthy sig = false ->
   posted = (Ok (mkResponse 500 (Text "Webhook configuration error.")), w) \/
   posted = (Ok (mkResponse 400 (Text "Missing Stripe signature.")), w)).
Proof.
  cbv zeta.
  assert (E : Monolith.postWebhook endpointSecret constructEvent nextMonth saveCallLog
                sig rawBody event_call now w
              = SignedWebhook.post endpointSecret constructEvent nextMonth saveCallLog
                  sig rawBody now w).
  { unfold Monolith.postWebhook, Monolith.dispatch, Monolith.webhookRoutes, bind, ret.
    now destruct (SignedWebhook.post endpointSecret constructEvent nextMonth saveCallLog
                    sig rawBody now w) as [[response|e] w']. }
  split; [exact E|]. intros Hsig. rewrite E. unfold SignedWebhook.post.
  destruct endpointSecret as [secret|]; [|now left].
  destruct (negb (Js.truthy (Some secret))); [now left|].
  rewrite Hsig. now right.
Qed.

Lemma X19_monolith_webhook_witness :
  let w := Sample.world [] [] [] in
  let posted :=
    Monolith.postWebhook (Some "whsec_1") Sample.constructEvent (fun t => t)
      CallLogs.saveCallLog None "{}" (Some (Sample.event "ringing" (Some Sample.control)))
      2000 w in
  posted = (Ok (mkResponse 400 (Text "Missing Stripe signature.")), w) /\
  Registry.find "c1" (callLogs (snd posted)) = None.
Proof.
  cbv zeta.
  destruct (X19_monolith_webhook (Some "whsec_1") Sample.constructEvent (fun t => t)
              CallLogs.saveCallLog None "{}"
              (Some (Sample.event "ringing" (Some Sample.control)))
              2000 (Sample.world [] [] [])) as [E _].
  cbv zeta in E. rewrite E. split; reflexivity.
Defined.

(** X20.  On an array-registry server the inbound-webhook route keeps memory
    and the call log in step.  For an event with a call id, on a database
    that answers, the route answers 200; afterwards the array registry has
    the record of the event under its id, the call log has a row of that id,
    and every row of that id agrees with the record on status, direction,
    duration and caller, and has the record's start time cut to whole
    seconds.  Record and row belong to nobody ('N/A'), and the record has no
    monitor. *)
Theorem X20_inbound_memory_and_log payload callEvent now w :
  payload_call payload = Some callEvent ->
  CallEvent.id callEvent <> EmptyString ->
  healthy w ->
  let posted := InboundWebhook.post ArrayRegistry CallLogs.saveCallLog payload now w in
  exists c,
    fst posted = Ok (mkResponse 200 ReceivedJson) /\
    Registry.find (CallEvent.id callEvent) (callLogs (snd posted)) = Some c /\
    user_email c = "N/A" /\ monitor c = None /\
    (0 < rows_for (id c) (call_logs (database (snd posted))))%nat /\
    forall r, r ∈ call_logs (database (snd posted)) -> CallData.call_id r = id c ->
              CallData.status r = status c /\
              CallData.direction r = direction c /\
              Some (CallData.start_time r) = CallLogs.startTimeForDb <$> startTime c /\
              CallData.duration r = duration c /\
              Some (CallData.phone_number r) = from c /\
              CallData.user_email r = user_email c.
Proof.
  intros Hpayload Hid Hw posted.
  assert (Hposted : exists w1,
             healthy w1 /\ database w1 = database w /\
             callLogs w1 = Registry.put (InboundWebhook.newCall callEvent now) (callLogs w) /\
             posted
             = (Ok (mkResponse 200 ReceivedJson),
                snd (CallLogs.saveCallLog (InboundWebhook.callData callEvent now) w1))).
  { unfold posted, InboundWebhook.post. unfold payload_call in Hpayload. rewrite Hpayload.
    unfold bind, Registry.store, Registry.updateActiveCalls, Registry.notifyClients,
      io_emit, respond, ret, try_catch. simpl.
    match goal with
    | |- context [CallLogs.saveCallLog ?d ?w1] =>
        exists w1; destruct (saveCallLog_effect d w1) as (evs & db & fs & -> & _)
    end.
    repeat split. exact Hw. }
  destruct Hposted as (w1 & Hw1 & Hd1 & Hl1 & ->).
  pose proof (saveCallLog_tables (InboundWebhook.callData callEvent now) w1)
    as (_ & Hl2 & _).
  destruct (saveCallLog_healthy (InboundWebhook.callData callEvent now) w1 Hid Hw1)
    as (w2 & E & _ & Hrows & Hrow).
  cbv zeta in Hl2. rewrite E in *. simpl in *.
  exists (InboundWebhook.newCall callEvent now).
  split; [reflexivity|].
  split; [rewrite Hl2, Hl1; exact (find_put (InboundWebhook.newCall callEvent now) _)|].
  split; [reflexivity|]. split; [reflexivity|]. split.
  - rewrite Hrows, String.eqb_refl. lia.
  - intros r Hr Hk. rewrite (Hrow r Hr Hk). repeat split.
Qed.

Lemma X20_inbound_memory_and_log_witness :
  let ev := CallEvent.mk "c1" (Some "inboundPhoneCall") "inbound" None (Some 1900%Z)
              "ended" None (Some Sample.control) None in
  let posted :=
    InboundWebhook.post ArrayRegistry CallLogs.saveCallLog
      (InboundWebhook.mkPayload None (Some ev)) 7000 (Sample.world [] [] []) in
  exists c,
    Registry.find "c1" (callLogs (snd posted)) = Some c /\
    monitor c = None /\ startTime c = Some 1900%Z /\
    (0 < rows_for (id c) (call_logs (database (snd posted))))%nat /\
    forall r, r ∈ call_logs (database (snd posted)) -> CallData.call_id r = "c1" ->
              CallData.start_time r = 1000%Z.
Proof.
  cbv zeta.
  destruct (X20_inbound_memory_and_log
              (InboundWebhook.mkPayload None
                 (Some (CallEvent.mk "c1" (Some "inboundPhoneCall") "inbound" None
                          (Some 1900%Z) "ended" None (Some Sample.control) None)))
              (CallEvent.mk "c1" (Some "inboundPhoneCall") "inbound" None
                 (Some 1900%Z) "ended" None (Some Sample.control) None)
              7000 (Sample.world [] [] []))
    as (c & _ & Hfind & _ & Hmon & Hrows & Hrow);
    [reflexivity | discriminate | apply Forall_nil_2 |].
  exists c. split; [exact Hfind|]. split; [exact Hmon|].
  assert (Hc : c = InboundWebhook.newCall
                     (CallEvent.mk "c1" (Some "inboundPhoneCall") "inbound" None
                        (Some 1900%Z) "ended" None (Some Sample.control) None) 7000).
  { vm_compute in Hfind. now injection Hfind as <-. }
  split; [now rewrite Hc|]. split; [exact Hrows|].
  intros r Hr Hk. destruct (Hrow r Hr) as (_ & _ & Hstart & _).
  - now rewrite Hc.
  - rewrite Hc in Hstart. simpl in Hstart. now injection Hstart as ->.
Defined.

(** ** The signed webhook: what is refused, and what is not answered *)

(** X21.  The signed webhook touches nothing before the signature is
    verified.  Without a configured secret it answers 500, without a
    signature header 400, and when [constructEvent] throws 400 with the
    message of the error; a verified event of a type other than the two it
    processes is acknowledged with 200.  In all four cases no statement is
    sent to the database and the state is unchanged. *)
Theorem X21_signed_webhook_refusals endpointSecret constructEvent nextMonth
    saveCallLog sig rawBody now w :
  let posted :=
    SignedWebhook.post endpointSecret constructEvent nextMonth saveCallLog
      sig rawBody now w in
  (Js.truthy endpointSecret = false ->
   posted = (Ok (mkResponse 500 (Text "Webhook configuration error.")), w)) /\
  (Js.truthy endpointSecret = true ->
   (Js.truthy sig = false ->
    posted = (Ok (mkResponse 400 (Text "Missing Stripe signature.")), w)) /\
   (Js.truthy sig = true ->
    match constructEvent rawBody (default EmptyString sig)
            (default EmptyString endpointSecret) with
    | inl message =>
        posted = (Ok (mkResponse 400 (Text ("Webhook Error: " ++ message))), w)
    | inr event =>
        SignedWebhook.type_is (SignedWebhook.eventType event)
          "checkout.session.completed" = false ->
        SignedWebhook.type_is (SignedWebhook.eventType event)
          "call.inbound.completed" = false ->
        posted = (Ok (mkResponse 200 ReceivedJson), w)
    end)).
Proof.
  cbv zeta. unfold SignedWebhook.post. split.
  - destruct endpointSecret as [secret|]; [|reflexivity]. intros ->. reflexivity.
  - destruct endpointSecret as [secret|]; [|discriminate]. intros ->. cbn [negb].
    split; [intros ->; reflexivity|]. intros ->. cbn [negb].
    change (default EmptyString (Some secret)) with secret.
    destruct (constructEvent rawBody (default EmptyString sig) secret) as [message|event];
      [reflexivity|].
    intros -> ->. reflexivity.
Qed.

Lemma X21_signed_webhook_refusals_witness :
  let w := Sample.world [] [] [] in
  SignedWebhook.post (Some "whsec_1") Sample.constructEvent (fun t => t)
    CallLogs.saveCallLog (Some "t=1,v1=forged") "{}" 7000 w
  = (Ok (mkResponse 400 (Text "Webhook Error: No signatures found")), w).
Proof.
  cbv zeta.
  destruct (X21_signed_webhook_refusals (Some "whsec_1") Sample.constructEvent
              (fun t => t) CallLogs.saveCallLog (Some "t=1,v1=forged") "{}" 7000
              (Sample.world [] [] []))
    as [_ Hverified].
  destruct (Hverified eq_refl) as [_ Hsigned]. exact (Hsigned eq_refl).
Defined.

(** X22.  A verified event that lacks what the handler dereferences outside
    its try blocks is not acknowledged: for a [checkout.session.completed] or
    [call.inbound.completed] event without [data.object], and for a call
    event whose object has no [type], the handler throws a TypeError before
    it sends a response, and no table has changed. *)
Theorem X22_unreadable_event_throws secret constructEvent nextMonth saveCallLog
    sig rawBody event now w :
  secret <> EmptyString ->
  Js.truthy sig = true ->
  constructEvent rawBody (default EmptyString sig) secret = inr event ->
  readable event = false ->
  let posted :=
    SignedWebhook.post (Some secret) constructEvent nextMonth saveCallLog
      sig rawBody now w in
  fst posted = Throw (TypeError "Cannot read properties of undefined") /\
  database (snd posted) = database w /\
  callLogs (snd posted) = callLogs w /\
  broadcasts (new_events w (snd posted)) = [].
Proof.
  intros Hsecret Hsig Hevent Hread. cbv zeta.
  unfold SignedWebhook.post. rewrite (truthy_nonempty _ Hsecret), Hsig, Hevent.
  cbn [negb]. unfold readable in Hread. unfold bind at 1.
  destruct (SignedWebhook.type_is (SignedWebhook.eventType event)
              "checkout.session.completed") eqn:Hcheckout.
  - destruct (SignedEvent.data_object event) as [session|] eqn:Hobj; [discriminate|].
    unfold SignedWebhook.processCheckout, throw. rewrite Hobj. simpl.
    rewrite new_events_same. now repeat split.
  - unfold ret at 1. unfold bind at 1.
    destruct (SignedWebhook.type_is (SignedWebhook.eventType event)
                "call.inbound.completed") eqn:Hcall; [|discriminate].
    unfold SignedWebhook.processCall.
    destruct (SignedEvent.data_object event) as [o|] eqn:Hobj.
    + destruct (DataObject.type o) as [t|] eqn:Ht; [discriminate|].
      unfold bind at 1.
      destruct (Js.truthy (customer_number (DataObject.customer o))).
      * unfold try_catch, bind, ret, throw.
        match goal with
        | |- context [pool_execute ?q w] =>
            destruct (pool_execute_cases q w) as [(fs & Hf & ->) | ->]
        end; simpl; (repeat split; try reflexivity);
          unfold new_events; simpl; now rewrite drop_app_length.
      * unfold ret, throw. simpl. rewrite new_events_same. now repeat split.
    + unfold throw. simpl. rewrite new_events_same. now repeat split.
Qed.

Lemma X22_unreadable_event_throws_witness :
  let event := SignedEvent.mk "evt_9" None true None in
  fst (SignedWebhook.post (Some "whsec_1") (fun _ _ _ => inr event) (fun t => t)
         CallLogs.saveCallLog (Some "t=1,v1=ok") "{}" 7000 (Sample.world [] [] []))
  = Throw (TypeError "Cannot read properties of undefined").
Proof.
  cbv zeta.
  apply (X22_unreadable_event_throws "whsec_1"
           (fun _ _ _ => inr (SignedEvent.mk "evt_9" None true None)) (fun t => t)
           CallLogs.saveCallLog (Some "t=1,v1=ok") "{}"
           (SignedEvent.mk "evt_9" None true None) 7000 (Sample.world [] [] []));
    [discriminate | reflexivity | reflexivity | reflexivity].
Defined.

(** ** [addTagsToContact] *)

Lemma unique_from_elem seen l x :
  x ∈ Ghl.unique_from seen l <-> x ∈ l /\ x ∉ seen.
Proof.
  revert seen. induction l as [|y l IH]; intros seen; simpl.
  - split; [intros H; inversion H | intros [H _]; inversion H].
  - destruct (decide (y ∈ seen)) as [Hy | Hy].
    + rewrite IH, elem_of_cons. split; [intros [? ?]; auto|].
      intros [[-> | ?] Hx]; [contradiction | auto].
    + rewrite !elem_of_cons, IH, not_elem_of_cons. split.
      * intros [-> | (? & ? & ?)]; auto.
      * intros [[-> | ?] Hx]; [now left|].
        destruct (decide (x = y)) as [-> | Hne]; [now left | right; auto].
Qed.

Lemma unique_from_NoDup seen l : NoDup (Ghl.unique_from seen l).
Proof.
  revert seen. induction l as [|y l IH]; intros seen; simpl; [apply NoDup_nil_2|].
  destruct (decide (y ∈ seen)); [apply IH|].
  apply NoDup_cons. split; [|apply IH].
  rewrite unique_from_elem, not_elem_of_cons. intros [_ [H _]]. now apply H.
Qed.

Lemma unique_elem l x : x ∈ Ghl.unique l <-> x ∈ l.
Proof.
  unfold Ghl.unique. rewrite unique_from_elem. split; [now intros [? _]|].
  intros H. split; [exact H | apply not_elem_of_nil].
Qed.

Lemma sort_perm l : Ghl.sort l ≡ₚ l.
Proof. apply merge_sort_Permutation. Qed.

Lemma sort_sorted l : StronglySorted String.le (Ghl.sort l).
Proof. apply StronglySorted_merge_sort; apply _. Qed.

(** The comparison of [addTagsToContact] finds nothing to do exactly when the
    contact's tags have no duplicate and every tag to add is among them. *)
Lemma nothing_to_add existing tagsToAdd :
  Ghl.sort existing = Ghl.sort (Ghl.unique (existing ++ tagsToAdd))
  <-> NoDup existing /\ forall x, x ∈ tagsToAdd -> x ∈ existing.
Proof.
  split.
  - intros Heq.
    assert (Hperm : existing ≡ₚ Ghl.unique (existing ++ tagsToAdd)).
    { etransitivity; [symmetry; apply sort_perm|]. rewrite Heq. apply sort_perm. }
    split.
    + rewrite Hperm. apply unique_from_NoDup.
    + intros x Hx. rewrite Hperm, unique_elem, elem_of_app. now right.
  - intros [Hnd Hsub].
    apply (StronglySorted_unique String.le); [apply sort_sorted | apply sort_sorted|].
    rewrite !sort_perm. apply NoDup_Permutation; [exact Hnd | apply unique_from_NoDup|].
    intros x. rewrite unique_elem, elem_of_app. split; [auto|].
    intros [? | ?]; auto.
Qed.

(** X23.  [addTagsToContact] with an API key, a contact id and tags to add
    sends one GET for the contact.  Without the contact the result is false
    and nothing else is sent.  With it, no PUT is sent, and the result is
    true, exactly when the contact's tags have no duplicate and contain
    every tag to add; otherwise one PUT follows, whose outcome is the result
    and whose tags are sorted, free of duplicates, and are the contact's
    tags together with the tags to add: no tag is lost. *)
Theorem X23_add_tags_merges apiKey fetched updated contactId tagsToAdd :
  Js.truthy apiKey = true ->
  contactId <> EmptyString ->
  tagsToAdd <> [] ->
  let result := Ghl.addTagsToContact apiKey fetched updated contactId tagsToAdd in
  match fetched contactId with
  | None => result = (false, [Ghl.GetContact contactId])
  | Some contact =>
      let existing := default [] (Ghl.tags contact) in
      ((NoDup existing /\ forall x, x ∈ tagsToAdd -> x ∈ existing) ->
       result = (true, [Ghl.GetContact contactId])) /\
      (~ (NoDup existing /\ forall x, x ∈ tagsToAdd -> x ∈ existing) ->
       exists merged,
         result = (updated contactId merged,
                   [Ghl.GetContact contactId; Ghl.PutTags contactId merged]) /\
         NoDup merged /\ StronglySorted String.le merged /\
         forall x, x ∈ merged <-> x ∈ existing \/ x ∈ tagsToAdd)
  end.
Proof.
  intros Hkey Hid Htags. cbv zeta.
  unfold Ghl.addTagsToContact, Ghl.getContact, Ghl.updateTags.
  rewrite Hkey, (truthy_nonempty _ Hid). cbn [negb orb].
  destruct tagsToAdd as [|tag more]; [contradiction|]. cbn [length Nat.eqb].
  destruct (fetched contactId) as [contact|]; [|reflexivity].
  destruct (decide (Ghl.sort (default [] (Ghl.tags contact))
                    = Ghl.sort (Ghl.unique (default [] (Ghl.tags contact) ++ tag :: more))))
    as [Hsame | Hdiff].
  - split; [reflexivity|]. intros Hnot. exfalso. now apply Hnot, nothing_to_add.
  - split; [intros Hall; exfalso; now apply Hdiff, nothing_to_add|].
    intros _. eexists. split; [reflexivity|].
    split; [rewrite sort_perm; apply unique_from_NoDup|].
    split; [apply sort_sorted|].
    intros x. now rewrite sort_perm, unique_elem, elem_of_app.
Qed.

Lemma X23_add_tags_merges_witness :
  let fetched := fun _ : string => Some (Ghl.mkContact "k1" (Some ["vip"; "lead"])) in
  let updated := fun (_ : string) (_ : list string) => true in
  exists merged,
    Ghl.addTagsToContact (Some "key") fetched updated "k1" ["call"; "vip"]
    = (true, [Ghl.GetContact "k1"; Ghl.PutTags "k1" merged]) /\
    NoDup merged /\ "lead" ∈ merged /\ "call" ∈ merged.
Proof.
  cbv zeta.
  pose proof (X23_add_tags_merges (Some "key")
                (fun _ => Some (Ghl.mkContact "k1" (Some ["vip"; "lead"])))
                (fun _ _ => true) "k1" ["call"; "vip"]) as H.
  simpl in H. destruct H as [_ H]; [reflexivity | discriminate | discriminate |].
  destruct H as (merged & E & Hnd & _ & Hmem).
  - intros [_ Hsub]. specialize (Hsub "call" ltac:(left)).
    apply elem_of_cons in Hsub as [Hsub | Hsub]; [discriminate|].
    apply list_elem_of_singleton in Hsub. discriminate.
  - exists merged. split; [exact E|]. split; [exact Hnd|].
    split; apply Hmem; [left; right; left | right; left].
Defined.

(** ** The version of [server.js] with the array registry *)

(** X24.  [POST /api/calls/end/:callId] of the array-registry server.
    Without a record of the id, or without a control URL on it, the answer
    is 404; when the provider rejects the command it is 500; in both cases
    nothing changes (this version has no local fallback).  When the provider
    accepts, whoever the caller is: the record is completed with the elapsed
    seconds as duration, the count of ongoing calls and the record are
    broadcast, one [saveCallLog] is attempted, and the answer is 200
    whatever the database does. *)
Theorem X24_v2_end w user callId axios now :
  let ended := ServerV2.endCall user callId axios now w in
  let found := Registry.find callId (callLogs w) in
  (Js.truthy (controlHandle found) = false ->
   ended
   = (Ok (mkResponse 404 (ErrorJson "Call not found or no control URL available")), w)) /\
  (Js.truthy (controlHandle found) = true ->
   (forall message,
      axios = Failed message ->
      ended
      = (Ok (mkResponse 500 (ErrorJson (Js.or_str message "Failed to end call"))), w)) /\
   (axios = Delivered ->
    exists call,
      let done := ServerV2.complete (Server.elapsed_seconds call now) call in
      found = Some call /\
      fst ended = Ok (mkResponse 200 (MessageCallJson "Call end request sent" done)) /\
      Registry.find callId (callLogs (snd ended)) = Some done /\
      broadcasts (new_events w (snd ended))
      = [ActiveCalls (length (List.filter Registry.is_ongoing (callLogs (snd ended))));
         CallUpdate done] /\
      (callId <> EmptyString ->
       (call_log_writes (new_events w (snd ended)) <= 1)%nat /\
       (healthy w -> call_log_writes (new_events w (snd ended)) = 1%nat)))).
Proof.
  cbv zeta. split.
  - unfold ServerV2.endCall. run_v2.
    destruct (Registry.find callId (callLogs w)) as [call|]; simpl; [|reflexivity].
    now intros ->.
  - destruct (Registry.find callId (callLogs w)) as [call|] eqn:Hfind; simpl;
      [|discriminate].
    intros Hurl. split.
    + intros message ->. unfold ServerV2.endCall. run_v2. now rewrite Hfind, Hurl.
    + intros ->. exists call. split; [reflexivity|].
      destruct (v2_end_effect w user callId call now Hfind Hurl)
        as (evs & db & fs & -> & Hb & Hs).
      pose proof (find_Some_id _ _ _ Hfind) as Hid. cbn [fst snd callLogs].
      split; [reflexivity|]. split.
      { rewrite <- Hid at 1.
        exact (find_put (ServerV2.complete (Server.elapsed_seconds call now) call) _). }
      unfold new_events. cbn [trace]. rewrite drop_app_length, broadcasts_app, Hb.
      split; [reflexivity|]. intros Hne. rewrite call_log_writes_emitted. now apply Hs.
Qed.

Lemma X24_v2_end_witness :
  let w := Sample.world [] [Sample.ongoing] [true] in
  let ended := ServerV2.endCall Sample.bob "c1" Delivered 9500 w in
  (exists done, Registry.find "c1" (callLogs (snd ended)) = Some done /\
                status done = "completed" /\ duration done = 8%Z) /\
  ServerV2.endCall Sample.alice "c1" Delivered 9500
    (Sample.world [] [Sample.unmonitored] [])
  = (Ok (mkResponse 404 (ErrorJson "Call not found or no control URL available")),
     Sample.world [] [Sample.unmonitored] []).
Proof.
  cbv zeta. split.
  - destruct (X24_v2_end (Sample.world [] [Sample.ongoing] [true]) Sample.bob "c1"
                Delivered 9500) as [_ Hurl].
    destruct (Hurl eq_refl) as [_ Hdone].
    destruct (Hdone eq_refl) as (call & Hfound & _ & Hfind & _).
    eexists. split; [exact Hfind|]. injection Hfound as <-. split; reflexivity.
  - now apply (X24_v2_end (Sample.world [] [Sample.unmonitored] []) Sample.alice "c1"
                 Delivered 9500).
Defined.

(** X25.  Answer and reject of the array-registry server do not look at the
    status.  On an inbound call with a control URL, whatever its status and
    whoever the caller: a delivered answer makes the record ongoing and
    broadcasts the record alone, the published count stays as it was; a
    delivered reject completes the record with the elapsed seconds and
    broadcasts count and record.  Neither sends a statement to the database.
    When the provider rejects the command the answer is 500 and nothing
    changes. *)
Theorem X25_v2_answer_and_reject w user callId call now :
  Registry.find callId (callLogs w) = Some call ->
  direction call = "inbound" ->
  Js.truthy (monitor_controlUrl (monitor call)) = true ->
  let answered := ServerV2.answerCall user callId Delivered w in
  let rejected := ServerV2.rejectCall user callId Delivered now w in
  let done := ServerV2.complete (Server.elapsed_seconds call now) call in
  (fst answered
   = Ok (mkResponse 200 (MessageCallJson "Call answered" (set_status "ongoing" call))) /\
   Registry.find callId (callLogs (snd answered)) = Some (set_status "ongoing" call) /\
   broadcasts (new_events w (snd answered)) = [CallUpdate (set_status "ongoing" call)] /\
   activeCalls (snd answered) = activeCalls w /\
   statements (new_events w (snd answered)) = []) /\
  (fst rejected = Ok (mkResponse 200 (MessageCallJson "Call rejected" done)) /\
   Registry.find callId (callLogs (snd rejected)) = Some done /\
   broadcasts (new_events w (snd rejected))
   = [ActiveCalls (length (List.filter Registry.is_ongoing (callLogs (snd rejected))));
      CallUpdate done] /\
   statements (new_events w (snd rejected)) = [] /\
   database (snd rejected) = database w) /\
  (forall message,
     ServerV2.answerCall user callId (Failed message) w
     = (Ok (mkResponse 500 (ErrorJson (Js.or_str message "Failed to answer call"))), w) /\
     ServerV2.rejectCall user callId (Failed message) now w
     = (Ok (mkResponse 500 (ErrorJson (Js.or_str message "Failed to reject call"))), w)).
Proof.
  intros Hfind Hdir Hurl. cbv zeta.
  pose proof (find_Some_id _ _ _ Hfind) as Hid.
  unfold ServerV2.answerCall, ServerV2.rejectCall. run_v2.
  rewrite Hfind, Hdir, Hurl. simpl.
  rewrite (mutate_is_put callId (callLogs w) call (set_status "ongoing" call) Hfind Hid).
  rewrite (mutate_is_put callId (callLogs w) call
             (ServerV2.complete (Server.elapsed_seconds call now) call) Hfind Hid).
  unfold new_events. simpl. rewrite <- ?app_assoc. rewrite !drop_app_length.
  repeat split.
  - rewrite <- Hid at 1. exact (find_put (set_status "ongoing" call) _).
  - rewrite <- Hid at 1.
    exact (find_put (ServerV2.complete (Server.elapsed_seconds call now) call) _).
Qed.

Lemma X25_v2_answer_and_reject_witness :
  let finished := Sample.call "completed" "inbound" 1000 (Some Sample.control) in
  let w := Sample.world [] [finished] [] in
  Registry.find "c1" (callLogs (snd (ServerV2.answerCall Sample.bob "c1" Delivered w)))
  = Some (set_status "ongoing" finished).
Proof.
  cbv zeta.
  now apply (X25_v2_answer_and_reject
               (Sample.world [] [Sample.call "completed" "inbound" 1000 (Some Sample.control)] [])
               Sample.bob "c1"
               (Sample.call "completed" "inbound" 1000 (Some Sample.control)) 9500).
Defined.

(** X26.  Start, then read, on the array-registry server.  A placed call is
    recorded as queued, whatever status the provider reports, for the caller,
    in front of the registry; the count of ongoing calls, unchanged, and the
    record are broadcast.  The listing and the single-record route do not
    filter by owner: any logged-in user is then answered with the whole
    registry, the new record first, and with the new record for its id. *)
Theorem X26_v2_start_then_read w user other phoneNumber data now :
  Js.truthy phoneNumber = true ->
  let started := ServerV2.startCall user phoneNumber (Placed data) now w in
  let call := ServerV2.newCall (email user) data now in
  fst started = Ok (mkResponse 200 (CallJson call)) /\
  status call = "queued" /\ user_email call = email user /\
  monitor call = VapiCall.monitor data /\
  callLogs (snd started) = call :: callLogs w /\
  broadcasts (new_events w (snd started))
  = [ActiveCalls (length (List.filter Registry.is_ongoing (callLogs w)));
     CallUpdate call] /\
  ServerV2.getCalls other (snd started)
  = (Ok (mkResponse 200 (CallsJson (call :: callLogs w))), snd started) /\
  ServerV2.getCall other (VapiCall.id data) (snd started)
  = (Ok (mkResponse 200 (CallJson call)), snd started).
Proof.
  intros Hphone. cbv zeta. unfold ServerV2.startCall. rewrite Hphone. cbn [negb].
  unfold ServerV2.getCalls, ServerV2.getCall. run_v2.
  unfold new_events. simpl. rewrite <- ?app_assoc. rewrite drop_app_length.
  rewrite find_cons. simpl. rewrite decide_True by reflexivity.
  repeat split.
Qed.

Lemma X26_v2_start_then_read_witness :
  let started :=
    ServerV2.startCall Sample.alice (Some "+15550100")
      (Placed (Sample.placed (Some "ringing"))) 5000 (Sample.world [] [] []) in
  exists call,
    ServerV2.getCall Sample.bob "c1" (snd started)
    = (Ok (mkResponse 200 (CallJson call)), snd started) /\
    status call = "queued".
Proof.
  cbv zeta. eexists. split.
  - apply (X26_v2_start_then_read (Sample.world [] [] []) Sample.alice Sample.bob
             (Some "+15550100") (Sample.placed (Some "ringing")) 5000).
    reflexivity.
  - reflexivity.
Defined.
